(** * VA Form 21-0966 filler: field-tree traversal and value mapping

    A shallow embedding of [va_form_filler_complete.py] (class
    [VAForm21_0966Filler]) and of the path-building half of
    [enhanced_field_discovery.py], together with the properties of the
    name decoder, the value transformers, the field mapper and the form
    writer.

    Python values are modelled as follows.
    - [str] is a list of Unicode code points ([list N]); [lit] turns an
      ASCII literal into such a list.
    - A call that may raise returns a [result]; [try ... except] is a
      match on it.
    - The PDF field hierarchy handed over by pdfrw is a finite tree of
      records; the in-place mutation done by the writer is modelled by
      returning the updated tree.
    - [datetime.now()] is an argument of the function that calls it.
    - [print] raises on a text that the console cannot encode: the
      console is an argument of the functions that print, which are
      given in [Printing] with their [print] calls in their places.
      [Filler] and [Discovery] have the value transformers, the field
      mapper and the listing as the values they compute, without the
      console.
    - The command line and the file system are arguments of [main]. *)

From Stdlib Require Import ZArith NArith Ascii String Lia.
From stdpp Require Import base tactics option list pretty.

Local Open Scope Z_scope.

(** ** Python builtins *)

Module Py.

Abbreviation pystr := (list N).

Definition lit (s : string) : pystr :=
  map N_of_ascii (list_ascii_of_string s).

Inductive exn := KeyError | ValueError | TypeError | AttributeError.

Inductive result (A : Type) :=
| Ok (a : A)
| Raise (e : exn).
Arguments Ok {A} a.
Arguments Raise {A} e.

#[global] Instance result_ret : MRet result := fun _ a => Ok a.

#[global] Instance result_bind : MBind result := fun _ _ k r =>
  match r with
  | Ok a => k a
  | Raise e => Raise e
  end.

(** [len(s)] *)
Definition len {A} (s : list A) : Z := Z.of_nat (length s).

(** Index normalisation of a slice bound: negative bounds count from the
    end, and every bound is clipped to [0 .. len]. *)
Definition clip (n i : Z) : Z :=
  if i <? 0 then Z.max (i + n) 0 else Z.min i n.

(** [s[lo:hi]], either bound optional. *)
Definition slice {A} (lo hi : option Z) (s : list A) : list A :=
  let n := len s in
  let l := from_option (clip n) 0 lo in
  let h := from_option (clip n) n hi in
  take (Z.to_nat (h - l)) (drop (Z.to_nat l) s).

(** [s.startswith(p)] and [s.endswith(p)] *)
Definition startswith (p s : pystr) : bool :=
  bool_decide (take (length p) s = p).

Definition endswith (p s : pystr) : bool :=
  bool_decide (drop (length s - length p) s = p /\ (length p <= length s)%nat).

(** [sub in s] for strings: [sub] occurs as a contiguous run of [s]. *)
Fixpoint py_in (sub s : pystr) : bool :=
  startswith sub s ||
  match s with
  | [] => false
  | _ :: r => py_in sub r
  end.

(** [s.split(sep)] for a one-character separator: always at least one
    part, one more part than there are separators. *)
Fixpoint split (sep : N) (s : pystr) : list pystr :=
  match s with
  | [] => [[]]
  | c :: r =>
      if (c =? sep)%N then [] :: split sep r
      else match split sep r with
           | p :: ps => (c :: p) :: ps
           | [] => [[c]]
           end
  end.

(** [s.replace(c, '')] for a one-character [c]. *)
Definition remove_char (c : N) (s : pystr) : pystr :=
  filter (fun x => x <> c) s.

Definition is_sign (c : N) : bool := (c =? 43)%N || (c =? 45)%N.

(** [s.zfill(width)]: zeros go after a leading sign. *)
Definition zfill (width : nat) (s : pystr) : pystr :=
  let fill := replicate (width - length s) 48%N in
  match s with
  | c :: r => if is_sign c then c :: fill ++ r else fill ++ s
  | [] => fill
  end.

(** [s.ljust(width, c)] *)
Definition ljust (width : nat) (c : N) (s : pystr) : pystr :=
  s ++ replicate (width - length s) c.

(** [str(n)] for a non-negative integer, and the format [f"{n:02d}"]. *)
Definition str_N (n : N) : pystr := lit (pretty n).

Definition format_02d (n : N) : pystr := zfill 2 (str_N n).

(** [range(0, n, 4)] *)
Definition range4 (n : Z) : list Z :=
  map (fun k => 4 * Z.of_nat k) (seq 0 (Z.to_nat ((n + 3) / 4))).

(** [chr(i)] *)
Definition chr (i : Z) : result N :=
  if (0 <=? i) && (i <? 1114112) then Ok (Z.to_N i) else Raise ValueError.

(** *** The Unicode character database

    [int] and [str.isdigit] consult CPython's character database for
    code points outside ASCII.  The tables are not part of this
    repository; they are a parameter of the model, read only at code
    points from 127 (for [int]) or 128 (for [isdigit]) upwards. *)
Record unicode_db := {
  Py_UNICODE_ISSPACE : N -> bool;
  Py_UNICODE_TODECIMAL : N -> option N;
  Py_UNICODE_ISDIGIT : N -> bool
}.

(** The database that knows no character outside ASCII; evaluating the
    model on ASCII input gives the same result under every database. *)
Definition ascii_db : unicode_db :=
  {| Py_UNICODE_ISSPACE := fun _ => false;
     Py_UNICODE_TODECIMAL := fun _ => None;
     Py_UNICODE_ISDIGIT := fun _ => false |}.

Definition is_ascii_digit (c : N) : bool := (48 <=? c)%N && (c <=? 57)%N.

(** [c.isdigit()] for a single character, as used by
    [filter(str.isdigit, s)]. *)
Definition isdigit (db : unicode_db) (c : N) : bool :=
  if (c <? 128)%N then is_ascii_digit c else Py_UNICODE_ISDIGIT db c.

(** *** [int(s, base)] on a string, for the bases 10 and 16

    Follows CPython's [PyLong_FromUnicodeObject] / [PyLong_FromString]:
    non-ASCII spaces and decimal digits are first mapped to ASCII, then
    the grammar is: spaces, an optional sign, for base 16 an optional
    [0x]/[0X] (after which one underscore is allowed), digits with single
    underscores between them, spaces. *)

(** [Py_ISSPACE]: space, and tab to carriage return. *)
Definition is_c_space (c : N) : bool :=
  (c =? 32)%N || ((9 <=? c)%N && (c <=? 13)%N).

(** [_PyLong_DigitValue] *)
Definition digit_value (c : N) : option Z :=
  if (48 <=? c)%N && (c <=? 57)%N then Some (Z.of_N c - 48)
  else if (97 <=? c)%N && (c <=? 122)%N then Some (Z.of_N c - 87)
  else if (65 <=? c)%N && (c <=? 90)%N then Some (Z.of_N c - 55)
  else None.

(** One character of [_PyUnicode_TransformDecimalAndSpaceToASCII]; a
    character that is neither a space nor a decimal digit becomes [?],
    which no later stage accepts. *)
Definition to_ascii (db : unicode_db) (c : N) : N :=
  if (c <? 127)%N then c
  else if Py_UNICODE_ISSPACE db c then 32%N
  else match Py_UNICODE_TODECIMAL db c with
       | Some d => (48 + d)%N
       | None => 63%N
       end.

Fixpoint skip_spaces (s : pystr) : pystr :=
  match s with
  | c :: r => if is_c_space c then skip_spaces r else s
  | [] => []
  end.

(** The digit loop: [prev_us] says that the previous character was an
    underscore, [seen] that at least one digit was read.  Returns the
    value and the unread rest, or [None] for a doubled or trailing
    underscore or for no digit at all. *)
Fixpoint scan_digits (base : Z) (prev_us seen : bool) (acc : Z) (s : pystr)
  : option (Z * pystr) :=
  let stop := if prev_us || negb seen then None else Some (acc, s) in
  match s with
  | [] => stop
  | c :: r =>
      if (c =? 95)%N then
        if prev_us then None else scan_digits base true seen acc r
      else
        match digit_value c with
        | Some d =>
            if d <? base then scan_digits base false true (acc * base + d) r
            else stop
        | None => stop
        end
  end.

Definition int (db : unicode_db) (s : pystr) (base : Z) : result Z :=
  let s1 := skip_spaces (map (to_ascii db) s) in
  let '(sign, s2) :=
    match s1 with
    | 43%N :: r => (1, r)
    | 45%N :: r => (-1, r)
    | _ => (1, s1)
    end in
  let s3 :=
    match s2 with
    | 48%N :: x :: r =>
        if (base =? 16) && ((x =? 120)%N || (x =? 88)%N) then
          match r with
          | 95%N :: r' => r'
          | _ => r
          end
        else s2
    | _ => s2
    end in
  match s3 with
  | 95%N :: _ => Raise ValueError
  | _ =>
      match scan_digits base false false 0 s3 with
      | Some (v, rest) =>
          match skip_spaces rest with
          | [] => Ok (sign * v)
          | _ :: _ => Raise ValueError
          end
      | None => Raise ValueError
      end
  end.

End Py.

Import Py.

(** ** The field hierarchy (pdfrw objects)

    A field dictionary with the entries the modelled code reads or
    writes.  An entry that is absent reads as [None] in pdfrw; [Kids]
    absent and [Kids] empty are both falsy and are both the empty list
    here.  A [PdfName] is its text with the leading slash. *)

Module Pdf.

#[warning="-register-all"]
Inductive field := Field {
  T : option pystr;      (* /T, the raw name token *)
  FT : option pystr;     (* /FT, the type tag *)
  V : option pystr;      (* /V, the value *)
  AS : option pystr;     (* /AS, the visible selection state *)
  Kids : list field      (* /Kids *)
}.

(** [PdfName(name)] *)
Definition PdfName (name : pystr) : pystr := lit "/" ++ name.

(** Truthiness of an optional string-like entry ([if field.T:]). *)
Definition truthy (o : option pystr) : bool :=
  match o with
  | Some (_ :: _) => true
  | _ => false
  end.

(** [/AcroForm] of the document catalog, and the reader holding it. *)
Record acroform := { Fields : option (list field) }.
Record reader := { AcroForm : option acroform }.

End Pdf.

Import Pdf.

(** Truthiness of a string or list ([if s:], [if not s:]). *)
Definition nonempty {A} (s : list A) : bool :=
  match s with
  | [] => false
  | _ :: _ => true
  end.

(** The loop [for x in xs: ...] whose body either returns [True] after
    updating [x] or goes on to the next element; the list comes back
    with the updates made on the way. *)
Definition first_hit {A} (body : A -> bool * A) : list A -> bool * list A :=
  fix loop (xs : list A) : bool * list A :=
    match xs with
    | [] => (false, [])
    | x :: rest =>
        let '(found, x') := body x in
        if found then (true, x' :: rest)
        else let '(found', rest') := loop rest in (found', x' :: rest')
    end.

(** ** enhanced_field_discovery.py

    The decoder, and the listing as it is computed; the lines that
    discovery prints on the way are with [Printing]. *)

Module Discovery.

Definition decode_loop (db : unicode_db) (hex_content : pystr)
  : list Z -> pystr -> result pystr :=
  fix loop (range : list Z) (decoded : pystr) : result pystr :=
    match range with
    | [] => Ok decoded
    | i :: range' =>
        let hex_char := slice (Some i) (Some (i + 4)) hex_content in
        char_code ← int db hex_char 16;
        c ← chr char_code;
        loop range' (decoded ++ [c])
    end.

Definition decode_unicode_field_name (db : unicode_db) (field_str : pystr)
  : result pystr :=
  if startswith (lit "<FEFF") field_str && endswith (lit ">") field_str then
    let hex_content := slice (Some 5) (Some (-1)) field_str in
    match decode_loop db hex_content (range4 (len hex_content)) [] with
    | Ok decoded => Ok decoded
    | Raise _ => Ok field_str
    end
  else if startswith (lit "(") field_str && endswith (lit ")") field_str then
    Ok (slice (Some 1) (Some (-1)) field_str)
  else Ok field_str.

(** The entries of the per-field dictionary that do not merely render
    an attribute of the node ([field_flags], [default_value],
    [current_value], [max_length], [button_type] and [options] are left
    out); [field_type] already carries the later overwrite for choice
    fields, which the appended dictionary shares. *)
Record field_info := {
  level : Z;
  parent : pystr;
  field_name : pystr;
  full_path : pystr;
  field_type : pystr;
  has_children : bool;
  child_count : Z
}.

Fixpoint analyze_field_recursive (db : unicode_db) (field : Pdf.field)
    (fields_info : list field_info) (level : Z) (parent_name : pystr)
  : list field_info :=
  match field with
  | Field t ft v as_ kids =>
      let try_body : result (list field_info) :=
        field_name ←
          (if truthy t then decode_unicode_field_name db (default [] t)
           else Ok (lit "unnamed_field_" ++ str_N (N.of_nat (length fields_info))));
        let full_name :=
          if nonempty parent_name then parent_name ++ lit "." ++ field_name
          else field_name in
        let info :=
          {| level := level;
             parent := parent_name;
             field_name := field_name;
             full_path := full_name;
             field_type :=
               if bool_decide (ft = Some (lit "/Ch")) then lit "Choice Field"
               else if truthy ft then default [] ft else lit "Unknown";
             has_children := nonempty kids;
             child_count := len kids |} in
        Ok (fold_left
              (fun infos child =>
                 analyze_field_recursive db child infos (level + 1) full_name)
              kids (fields_info ++ [info])) in
      match try_body with
      | Ok infos => infos
      | Raise _ => fields_info
      end
  end.

(** [discover_pdf_fields_enhanced], from the document already read:
    [None] when there is no form or no field list. *)
Definition discover_pdf_fields_enhanced (db : unicode_db) (pdf : reader)
  : option (list field_info) :=
  match AcroForm pdf with
  | None => None
  | Some form =>
      match Fields form with
      | None => None
      | Some fields =>
          Some (fold_left
                  (fun fields_info field =>
                     analyze_field_recursive db field fields_info 0 [])
                  fields [])
      end
  end.

End Discovery.

(** ** va_form_filler_complete.py *)

Module Filler.

(** *** Input record

    The JSON document, typed as the form's schema gives it: strings for
    scalars, booleans for election flags, every key optional ([None]
    is a key that is absent). *)
Record address_t := {
  street : option pystr;
  apt_unit : option pystr;
  city : option pystr;
  state : option pystr;
  country : option pystr;
  zip_code : option pystr
}.

Record veteran_info_t := {
  first_name : option pystr;
  middle_initial : option pystr;
  last_name : option pystr;
  date_of_birth : option pystr;
  ssn : option pystr;
  phone : option pystr;
  email : option pystr;
  va_file_number : option pystr;
  service_number : option pystr;
  address : option address_t
}.

Record benefit_election_t := {
  compensation : option bool;
  pension : option bool;
  survivors_pension_dic : option bool
}.

Record signature_info_t := {
  date_signed : option pystr;
  attorney_agent_vso_name : option pystr
}.

Record input_record := {
  veteran_info : option veteran_info_t;
  benefit_election : option benefit_election_t;
  signature_info : option signature_info_t
}.

(** The empty dictionaries used as [.get] defaults. *)
Definition no_address : address_t :=
  {| street := None; apt_unit := None; city := None; state := None;
     country := None; zip_code := None |}.
Definition no_election : benefit_election_t :=
  {| compensation := None; pension := None; survivors_pension_dic := None |}.
Definition no_signature : signature_info_t :=
  {| date_signed := None; attorney_agent_vso_name := None |}.

(** [d.get(key, '')] and [d.get(key, False)] *)
Definition get_str (o : option pystr) : pystr := default [] o.
Definition get_flag (o : option bool) : bool := default false o.

(** The calendar part of [datetime.now()]. *)
Record date := { year : N; month : N; day : N }.

(** *** The output dictionary, in insertion order *)
Abbreviation dict := (list (pystr * pystr)).

Fixpoint dict_get (d : dict) (k : pystr) : option pystr :=
  match d with
  | [] => None
  | (k', v) :: r => if bool_decide (k' = k) then Some v else dict_get r k
  end.

(** [d[k] = v]: in place for a key that is there, appended otherwise. *)
Fixpoint dict_set (d : dict) (k v : pystr) : dict :=
  match d with
  | [] => [(k, v)]
  | (k', v') :: r =>
      if bool_decide (k' = k) then (k, v) :: r else (k', v') :: dict_set r k v
  end.

Definition keys (d : dict) : list pystr := map fst d.

Definition validate_json_input (data : input_record) : bool :=
  match veteran_info data with
  | None => false
  | Some veteran_info =>
      match first_name veteran_info, last_name veteran_info,
            date_of_birth veteran_info with
      | Some _, Some _, Some _ => true
      | _, _, _ => false
      end
  end.

(** *** Value transformers

    The values they compute; the warnings that [split_ssn],
    [split_phone], [split_date] and [split_zip] print on the way are
    with [Printing]. *)

Definition handle_email_overflow (email : pystr) : pystr * pystr :=
  if negb (nonempty email) then ([], [])
  else if len email <=? 20 then ([], email)
  else
    let email_part_1 := slice None (Some 20) email in
    let email_part_0 := slice (Some 20) None email in
    (email_part_0, email_part_1).

Definition split_ssn (ssn : pystr) : pystr * pystr * pystr :=
  let clean_ssn := remove_char 32 (remove_char 45 ssn) in
  if negb (len clean_ssn =? 9) then
    (slice None (Some 3) clean_ssn, slice (Some 3) (Some 5) clean_ssn,
     slice (Some 5) (Some 9) clean_ssn)
  else
    (slice None (Some 3) clean_ssn, slice (Some 3) (Some 5) clean_ssn,
     slice (Some 5) (Some 9) clean_ssn).

Definition split_phone (db : unicode_db) (phone : pystr)
  : pystr * pystr * pystr :=
  let clean_phone := filter (fun c => isdigit db c = true) phone in
  let clean_phone :=
    if negb (len clean_phone =? 10) then
      slice None (Some 10) (ljust 10 48 clean_phone)
    else clean_phone in
  (slice None (Some 3) clean_phone, slice (Some 3) (Some 6) clean_phone,
   slice (Some 6) (Some 10) clean_phone).

Definition sentinel : pystr * pystr * pystr :=
  (lit "01", lit "01", lit "1970").

(** The body of the [try] in [split_date]. *)
Definition split_date_try (db : unicode_db) (date_str : pystr)
  : result (pystr * pystr * pystr) :=
  let with_parts (parts : list pystr) : result (pystr * pystr * pystr) :=
    if len parts =? 3 then
      match parts with
      | [month; day; year] =>
          let month := zfill 2 month in
          let day := zfill 2 day in
          year ←
            (if len year =? 2 then
               n ← int db year 10;
               Ok (if n >? 50 then lit "19" ++ year else lit "20" ++ year)
             else Ok year);
          Ok (month, day, year)
      | _ => Raise ValueError
      end
    else Ok sentinel in
  if py_in (lit "/") date_str then with_parts (split 47 date_str)
  else if py_in (lit "-") date_str then with_parts (split 45 date_str)
  else Ok sentinel.

Definition split_date (db : unicode_db) (date_str : pystr)
  : result (pystr * pystr * pystr) :=
  match split_date_try db date_str with
  | Ok r => Ok r
  | Raise _ => Ok sentinel
  end.

Definition split_zip (db : unicode_db) (zip_code : pystr) : pystr * pystr :=
  let clean_zip := filter (fun c => isdigit db c = true) zip_code in
  if len clean_zip >=? 5 then
    let zip_5 := slice None (Some 5) clean_zip in
    let zip_4 :=
      if len clean_zip >? 5 then slice (Some 5) (Some 9) clean_zip else [] in
    (zip_5, zip_4)
  else (ljust 5 48 clean_zip, []).

(** *** Field mapper *)

(** The three election checkboxes and their fixed paths. *)
Definition COMPENSATION : pystr := lit "F[0].#subform[1].COMPENSATION[0]".
Definition PENSION : pystr := lit "F[0].#subform[1].PENSION[0]".
Definition SURVIVORS : pystr :=
  lit "F[0].#subform[1].SURVIVORS_PENSION_AND_OR_DEPENDENCY_AND_INDEMNITY_COMPENSATION_DIC[0]".

Definition create_field_mapping (db : unicode_db) (now : date)
    (data : input_record) : result dict :=
  veteran_info ←
    match veteran_info data with
    | Some v => Ok v
    | None => Raise KeyError
    end;
  let benefit_election := default no_election (benefit_election data) in
  let signature_info := default no_signature (signature_info data) in
  let email := get_str (email veteran_info) in
  let '(email_0, email_1) := handle_email_overflow email in
  let ssn := get_str (ssn veteran_info) in
  let '(ssn_1, ssn_2, ssn_3) :=
    if nonempty ssn then split_ssn ssn else ([], [], []) in
  let phone := get_str (phone veteran_info) in
  let '(phone_1, phone_2, phone_3) :=
    if nonempty phone then split_phone db phone else ([], [], []) in
  let dob := get_str (date_of_birth veteran_info) in
  '(dob_month, dob_day, dob_year) ←
    (if nonempty dob then split_date db dob else Ok ([], [], []));
  let sig_date := get_str (date_signed signature_info) in
  '(sig_month, sig_day, sig_year) ←
    (if nonempty sig_date then split_date db sig_date
     else
       let today := now in
       Ok (format_02d (month today), format_02d (day today),
           str_N (year today)));
  let address := default no_address (address veteran_info) in
  let zip_code := get_str (zip_code address) in
  let '(zip_5, zip_4) :=
    if nonempty zip_code then split_zip db zip_code else ([], []) in
  let field_mapping : dict :=
    [ (lit "F[0].Page_1[0].Veterans_First_Name[0]",
       get_str (first_name veteran_info));
      (lit "F[0].Page_1[0].Veterans_Middle_Initial1[0]",
       get_str (middle_initial veteran_info));
      (lit "F[0].Page_1[0].Veterans_Last_Name[0]",
       get_str (last_name veteran_info));
      (lit "F[0].Page_1[0].Veterans_Social_SecurityNumber_FirstThreeNumbers[0]",
       ssn_1);
      (lit "F[0].Page_1[0].Veterans_Social_SecurityNumber_SecondTwoNumbers[0]",
       ssn_2);
      (lit "F[0].Page_1[0].VeteransSocialSecurityNumber_LastFourNumbers[0]",
       ssn_3);
      (lit "F[0].Page_1[0].DOB_Month[0]", dob_month);
      (lit "F[0].Page_1[0].DOB_Day[0]", dob_day);
      (lit "F[0].Page_1[0].DOB_Year[0]", dob_year);
      (lit "F[0].Page_1[0].EMAIL_ADDRESS[0]", email_0);
      (lit "F[0].Page_1[0].EMAIL_ADDRESS[1]", email_1);
      (lit "F[0].Page_1[0].Telephone_Number_FirstThreeNumbers[0]", phone_1);
      (lit "F[0].Page_1[0].Telephone_Number_SecondThreeNumbers[0]", phone_2);
      (lit "F[0].Page_1[0].Telephone_Number_LastFourNumbers[0]", phone_3);
      (lit "F[0].Page_1[0].Mailing_Address_NumberAndStreet[0]",
       get_str (street address));
      (lit "F[0].Page_1[0].Mailing_Address_ApartmentOrUnitNumber[0]",
       get_str (apt_unit address));
      (lit "F[0].Page_1[0].MailingAddress_City[0]", get_str (city address));
      (lit "F[0].Page_1[0].MailingAddress_StateOrProvince[0]",
       get_str (state address));
      (lit "F[0].Page_1[0].MailingAddress_Country[0]",
       get_str (country address));
      (lit "F[0].Page_1[0].MailingAddress_ZIPOrPostalCode_FirstFiveNumbers[0]",
       zip_5);
      (lit "F[0].Page_1[0].MailingAddress_ZIPOrPostalCode_LastFourNumbers[0]",
       zip_4);
      (lit "F[0].Page_1[0].VA_File_Number[0]",
       get_str (va_file_number veteran_info));
      (lit "F[0].Page_1[0].Veterans_Service_Number[0]",
       get_str (service_number veteran_info));
      (lit "F[0].#subform[1].Date_Signed_Month[0]", sig_month);
      (lit "F[0].#subform[1].Date_Signed_Day[0]", sig_day);
      (lit "F[0].#subform[1].Date_Signed_Year[0]", sig_year);
      (lit "F[0].#subform[1].Name_Of_Attorney_Agent_Or_Veterans_Service_Organization_VS[0]",
       get_str (attorney_agent_vso_name signature_info)) ] in
  let field_mapping :=
    if get_flag (compensation benefit_election)
    then dict_set field_mapping COMPENSATION (lit "/1") else field_mapping in
  let field_mapping :=
    if get_flag (pension benefit_election)
    then dict_set field_mapping PENSION (lit "/1") else field_mapping in
  let field_mapping :=
    if get_flag (survivors_pension_dic benefit_election)
    then dict_set field_mapping SURVIVORS (lit "/1") else field_mapping in
  Ok field_mapping.

(** *** Form writer *)

Definition decode_loop (db : unicode_db) (hex_content : pystr)
  : list Z -> pystr -> result pystr :=
  fix loop (range : list Z) (decoded : pystr) : result pystr :=
    match range with
    | [] => Ok decoded
    | i :: range' =>
        let hex_char := slice (Some i) (Some (i + 4)) hex_content in
        char_code ← int db hex_char 16;
        c ← chr char_code;
        loop range' (decoded ++ [c])
    end.

Definition decode_unicode_field_name (db : unicode_db) (field_str : pystr)
  : result pystr :=
  if startswith (lit "<FEFF") field_str && endswith (lit ">") field_str then
    let hex_content := slice (Some 5) (Some (-1)) field_str in
    match decode_loop db hex_content (range4 (len hex_content)) [] with
    | Ok decoded => Ok decoded
    | Raise _ => Ok field_str
    end
  else if startswith (lit "(") field_str && endswith (lit ")") field_str then
    Ok (slice (Some 1) (Some (-1)) field_str)
  else Ok field_str.

(** The assignment made at the target: both [/V] and [/AS] for a
    button, [/V] alone otherwise. *)
Definition set_value (f : field) (value : pystr) : field :=
  if bool_decide (FT f = Some (PdfName (lit "Btn"))) then
    {| T := T f; FT := FT f;
       V := Some (PdfName (remove_char 47 value));
       AS := Some (PdfName (remove_char 47 value));
       Kids := Kids f |}
  else
    {| T := T f; FT := FT f; V := Some value; AS := AS f; Kids := Kids f |}.

Definition join_path (parent_path field_name : pystr) : pystr :=
  if nonempty parent_path then parent_path ++ lit "." ++ field_name
  else field_name.

(** One turn of the loop of [find_and_fill_field] on [field]: [true]
    stands for [return True]; [false] for reaching the next turn, by
    [continue] or by falling off the end of the body. *)
Fixpoint visit_field (db : unicode_db) (target_field_name value : pystr)
    (parent_path : pystr) (field : Pdf.field) {struct field} : bool * Pdf.field :=
  match field with
  | Field t ft v as_ kids =>
      if truthy t then
        match decode_unicode_field_name db (default [] t) with
        | Raise _ => (false, field)
        | Ok field_name =>
            let full_path := join_path parent_path field_name in
            if bool_decide (full_path = target_field_name) then
              (true, set_value field value)
            else if nonempty kids then
              let '(found, kids') :=
                first_hit
                  (visit_field db target_field_name value full_path) kids in
              (found, Field t ft v as_ kids')
            else (false, field)
        end
      else (false, field)
  end.

Definition find_and_fill_field (db : unicode_db) (fields : list Pdf.field)
    (target_field_name value : pystr) (parent_path : pystr)
  : bool * list Pdf.field :=
  first_hit (visit_field db target_field_name value parent_path) fields.

(** A line of the report of [fill_form] for an entry it tries. *)
Inductive outcome :=
| Filled (field_name field_value : pystr)
| NotFound (field_name : pystr)
| Failed (field_name : pystr) (e : exn).

(** The state of the loop of [fill_form]: the field list with the
    writes made so far, the two counters, and the lines of the report
    that were printed. *)
Record fill_state := {
  fields : option (list Pdf.field);
  filled_count : Z;
  failed_count : Z;
  printed : list outcome
}.

Definition start (fs : option (list Pdf.field)) : fill_state :=
  {| fields := fs; filled_count := 0; failed_count := 0; printed := [] |}.

End Filler.

Import Filler.

(** ** va_form_filler_complete.py: the output file *)

Module Run.

(** [c.isalnum()] for a single character: letters and digits within
    ASCII, the character database ([Py_UNICODE_ISALNUM], given as
    [alnum]) from 128 upwards. *)
Definition is_ascii_alnum (c : N) : bool :=
  is_ascii_digit c || ((65 <=? c)%N && (c <=? 90)%N)
  || ((97 <=? c)%N && (c <=? 122)%N).

Definition isalnum (alnum : N -> bool) (c : N) : bool :=
  if (c <? 128)%N then is_ascii_alnum c else alnum c.

Definition generate_output_filename (alnum : N -> bool) (data : input_record)
  : pystr :=
  let first_name :=
    match veteran_info data with
    | Some veteran_info => default (lit "Unknown") (first_name veteran_info)
    | None => lit "Unknown"
    end in
  let last_name :=
    match veteran_info data with
    | Some veteran_info => default (lit "Veteran") (last_name veteran_info)
    | None => lit "Veteran"
    end in
  let clean_first := filter (fun c => isalnum alnum c = true) first_name in
  let clean_last := filter (fun c => isalnum alnum c = true) last_name in
  lit "VA_Form_21-0966_" ++ clean_first ++ clean_last ++ lit ".pdf".

End Run.

Import Run.

(** ** The console

    [print] encodes its text for [sys.stdout] and raises
    [UnicodeEncodeError] on a character the stream's codec does not
    have.  Every codec takes the ASCII characters; which others it
    takes is the console's ([utf-8] takes all but the surrogates, a
    legacy code page does not have the symbols the program prints).
    The stream is taken to be open: [print] fails on its text only. *)

Module Console.

Record console := { beyond_ascii : N -> bool }.

Definition encodes (out : console) (c : N) : bool :=
  (c <? 128)%N || beyond_ascii out c.

(** The console can show the text. *)
Definition shows (out : console) (text : pystr) : bool :=
  forallb (encodes out) text.

(** [print(text)]; [UnicodeEncodeError] is a [ValueError]. *)
Definition print (out : console) (text : pystr) : result unit :=
  if shows out text then Ok tt else Raise ValueError.

Definition is_surrogate (c : N) : bool := (0xD800 <=? c)%N && (c <=? 0xDFFF)%N.

Definition utf8 : console := {| beyond_ascii := fun c => negb (is_surrogate c) |}.
Definition ascii_only : console := {| beyond_ascii := fun _ => false |}.

(** [str(n)] for an integer. *)
Definition str_int (n : Z) : pystr :=
  if n <? 0 then lit "-" ++ str_N (Z.to_N (- n)) else str_N (Z.to_N n).

(** [str(e)] in a message.  The text of an exception is ASCII apart
    from characters it quotes from a string that the same line shows in
    full, so the name of the class in its place leaves unchanged
    whether a console takes the line. *)
Definition str_exn (e : exn) : pystr :=
  match e with
  | KeyError => lit "KeyError"
  | ValueError => lit "ValueError"
  | TypeError => lit "TypeError"
  | AttributeError => lit "AttributeError"
  end.

(** The symbols of the program's messages. *)
Definition CHECK_MARK : pystr := [0x2705%N].
Definition CROSS_MARK : pystr := [0x274C%N].
Definition WARNING_SIGN : pystr := [0x26A0%N; 0xFE0F%N].
Definition WRENCH : pystr := [0x1F527%N].
Definition BAR_CHART : pystr := [0x1F4CA%N].
Definition ROCKET : pystr := [0x1F680%N].
Definition MAGNIFIER : pystr := [0x1F50D%N].
Definition PAGE : pystr := [0x1F4C4%N].
Definition CLIPBOARD : pystr := [0x1F4CB%N].
Definition DIAMOND : pystr := [0x1F538%N].

(** The loop [for x in xs: ...] over a body that updates a state and
    may raise: the first exception ends it, with the state reached. *)
Definition for_each {A S} (body : S -> A -> S * result unit)
  : list A -> S -> S * result unit :=
  fix loop (xs : list A) (st : S) : S * result unit :=
    match xs with
    | [] => (st, Ok tt)
    | x :: rest =>
        match body st x with
        | (st', Ok _) => loop rest st'
        | (st', Raise e) => (st', Raise e)
        end
    end.

End Console.

Import Console.

(** ** The functions that print, with the console

    The functions of [va_form_filler_complete.py] and of
    [enhanced_field_discovery.py] that write to the console, each with
    its [print] calls in their places.  Where such a function returns,
    it returns what the function of the same name above computes. *)

Module Printing.

Definition validate_json_input (out : console) (data : input_record)
  : result bool :=
  match veteran_info data with
  | None =>
      _ ← print out (CROSS_MARK ++ lit " Missing required field: "
                     ++ lit "veteran_info");
      Ok false
  | Some veteran_info =>
      match first_name veteran_info with
      | None =>
          _ ← print out (CROSS_MARK ++ lit " Missing required veteran field: "
                         ++ lit "first_name");
          Ok false
      | Some _ =>
          match last_name veteran_info with
          | None =>
              _ ← print out (CROSS_MARK
                             ++ lit " Missing required veteran field: "
                             ++ lit "last_name");
              Ok false
          | Some _ =>
              match date_of_birth veteran_info with
              | None =>
                  _ ← print out (CROSS_MARK
                                 ++ lit " Missing required veteran field: "
                                 ++ lit "date_of_birth");
                  Ok false
              | Some _ =>
                  _ ← print out (CHECK_MARK
                                 ++ lit " JSON input validation passed");
                  Ok true
              end
          end
      end
  end.

Definition split_ssn (out : console) (ssn : pystr)
  : result (pystr * pystr * pystr) :=
  let clean_ssn := remove_char 32 (remove_char 45 ssn) in
  if negb (len clean_ssn =? 9) then
    _ ← print out (WARNING_SIGN ++ lit " Warning: SSN should be 9 digits, got "
                   ++ str_int (len clean_ssn));
    Ok (slice None (Some 3) clean_ssn, slice (Some 3) (Some 5) clean_ssn,
        slice (Some 5) (Some 9) clean_ssn)
  else
    Ok (slice None (Some 3) clean_ssn, slice (Some 3) (Some 5) clean_ssn,
        slice (Some 5) (Some 9) clean_ssn).

Definition split_phone (out : console) (db : unicode_db) (phone : pystr)
  : result (pystr * pystr * pystr) :=
  let clean_phone := filter (fun c => isdigit db c = true) phone in
  clean_phone ←
    (if negb (len clean_phone =? 10) then
       _ ← print out (WARNING_SIGN
                      ++ lit " Warning: Phone should be 10 digits, got "
                      ++ str_int (len clean_phone));
       Ok (slice None (Some 10) (ljust 10 48 clean_phone))
     else Ok clean_phone);
  Ok (slice None (Some 3) clean_phone, slice (Some 3) (Some 6) clean_phone,
      slice (Some 6) (Some 10) clean_phone).

(** The body of the [try] in [split_date]. *)
Definition split_date_try (out : console) (db : unicode_db) (date_str : pystr)
  : result (pystr * pystr * pystr) :=
  let with_parts (parts : list pystr) : result (pystr * pystr * pystr) :=
    if len parts =? 3 then
      match parts with
      | [month; day; year] =>
          let month := zfill 2 month in
          let day := zfill 2 day in
          year ←
            (if len year =? 2 then
               n ← int db year 10;
               Ok (if n >? 50 then lit "19" ++ year else lit "20" ++ year)
             else Ok year);
          Ok (month, day, year)
      | _ => Raise ValueError
      end
    else
      _ ← print out (WARNING_SIGN ++ lit " Warning: Invalid date format: "
                     ++ date_str);
      Ok sentinel in
  if py_in (lit "/") date_str then with_parts (split 47 date_str)
  else if py_in (lit "-") date_str then with_parts (split 45 date_str)
  else
    _ ← print out (WARNING_SIGN ++ lit " Warning: Unrecognized date format: "
                   ++ date_str);
    Ok sentinel.

Definition split_date (out : console) (db : unicode_db) (date_str : pystr)
  : result (pystr * pystr * pystr) :=
  match split_date_try out db date_str with
  | Ok r => Ok r
  | Raise e =>
      _ ← print out (WARNING_SIGN ++ lit " Error parsing date " ++ date_str
                     ++ lit ": " ++ str_exn e);
      Ok sentinel
  end.

Definition split_zip (out : console) (db : unicode_db) (zip_code : pystr)
  : result (pystr * pystr) :=
  let clean_zip := filter (fun c => isdigit db c = true) zip_code in
  if len clean_zip >=? 5 then
    let zip_5 := slice None (Some 5) clean_zip in
    let zip_4 :=
      if len clean_zip >? 5 then slice (Some 5) (Some 9) clean_zip else [] in
    Ok (zip_5, zip_4)
  else
    _ ← print out (WARNING_SIGN ++ lit " Warning: ZIP code too short: "
                   ++ zip_code);
    Ok (ljust 5 48 clean_zip, []).

Definition create_field_mapping (out : console) (db : unicode_db) (now : date)
    (data : input_record) : result dict :=
  veteran_info ←
    match veteran_info data with
    | Some v => Ok v
    | None => Raise KeyError
    end;
  let benefit_election := default no_election (benefit_election data) in
  let signature_info := default no_signature (signature_info data) in
  let email := get_str (email veteran_info) in
  let '(email_0, email_1) := handle_email_overflow email in
  let ssn := get_str (ssn veteran_info) in
  '(ssn_1, ssn_2, ssn_3) ←
    (if nonempty ssn then split_ssn out ssn else Ok ([], [], []));
  let phone := get_str (phone veteran_info) in
  '(phone_1, phone_2, phone_3) ←
    (if nonempty phone then split_phone out db phone else Ok ([], [], []));
  let dob := get_str (date_of_birth veteran_info) in
  '(dob_month, dob_day, dob_year) ←
    (if nonempty dob then split_date out db dob else Ok ([], [], []));
  let sig_date := get_str (date_signed signature_info) in
  '(sig_month, sig_day, sig_year) ←
    (if nonempty sig_date then split_date out db sig_date
     else
       let today := now in
       Ok (format_02d (month today), format_02d (day today),
           str_N (year today)));
  let address := default no_address (address veteran_info) in
  let zip_code := get_str (zip_code address) in
  '(zip_5, zip_4) ←
    (if nonempty zip_code then split_zip out db zip_code else Ok ([], []));
  let field_mapping : dict :=
    [ (lit "F[0].Page_1[0].Veterans_First_Name[0]",
       get_str (first_name veteran_info));
      (lit "F[0].Page_1[0].Veterans_Middle_Initial1[0]",
       get_str (middle_initial veteran_info));
      (lit "F[0].Page_1[0].Veterans_Last_Name[0]",
       get_str (last_name veteran_info));
      (lit "F[0].Page_1[0].Veterans_Social_SecurityNumber_FirstThreeNumbers[0]",
       ssn_1);
      (lit "F[0].Page_1[0].Veterans_Social_SecurityNumber_SecondTwoNumbers[0]",
       ssn_2);
      (lit "F[0].Page_1[0].VeteransSocialSecurityNumber_LastFourNumbers[0]",
       ssn_3);
      (lit "F[0].Page_1[0].DOB_Month[0]", dob_month);
      (lit "F[0].Page_1[0].DOB_Day[0]", dob_day);
      (lit "F[0].Page_1[0].DOB_Year[0]", dob_year);
      (lit "F[0].Page_1[0].EMAIL_ADDRESS[0]", email_0);
      (lit "F[0].Page_1[0].EMAIL_ADDRESS[1]", email_1);
      (lit "F[0].Page_1[0].Telephone_Number_FirstThreeNumbers[0]", phone_1);
      (lit "F[0].Page_1[0].Telephone_Number_SecondThreeNumbers[0]", phone_2);
      (lit "F[0].Page_1[0].Telephone_Number_LastFourNumbers[0]", phone_3);
      (lit "F[0].Page_1[0].Mailing_Address_NumberAndStreet[0]",
       get_str (street address));
      (lit "F[0].Page_1[0].Mailing_Address_ApartmentOrUnitNumber[0]",
       get_str (apt_unit address));
      (lit "F[0].Page_1[0].MailingAddress_City[0]", get_str (city address));
      (lit "F[0].Page_1[0].MailingAddress_StateOrProvince[0]",
       get_str (state address));
      (lit "F[0].Page_1[0].MailingAddress_Country[0]",
       get_str (country address));
      (lit "F[0].Page_1[0].MailingAddress_ZIPOrPostalCode_FirstFiveNumbers[0]",
       zip_5);
      (lit "F[0].Page_1[0].MailingAddress_ZIPOrPostalCode_LastFourNumbers[0]",
       zip_4);
      (lit "F[0].Page_1[0].VA_File_Number[0]",
       get_str (va_file_number veteran_info));
      (lit "F[0].Page_1[0].Veterans_Service_Number[0]",
       get_str (service_number veteran_info));
      (lit "F[0].#subform[1].Date_Signed_Month[0]", sig_month);
      (lit "F[0].#subform[1].Date_Signed_Day[0]", sig_day);
      (lit "F[0].#subform[1].Date_Signed_Year[0]", sig_year);
      (lit "F[0].#subform[1].Name_Of_Attorney_Agent_Or_Veterans_Service_Organization_VS[0]",
       get_str (attorney_agent_vso_name signature_info)) ] in
  let field_mapping :=
    if get_flag (compensation benefit_election)
    then dict_set field_mapping COMPENSATION (lit "/1") else field_mapping in
  let field_mapping :=
    if get_flag (pension benefit_election)
    then dict_set field_mapping PENSION (lit "/1") else field_mapping in
  let field_mapping :=
    if get_flag (survivors_pension_dic benefit_election)
    then dict_set field_mapping SURVIVORS (lit "/1") else field_mapping in
  Ok field_mapping.

(** *** Form writer *)

(** The body of the loop over [field_mapping.items()]: the state after
    the turn, with the exception that leaves the turn if one does.
    The write is made before the line of the report is printed, and
    both run inside the [try]; the handler prints as well.  Iterating
    [Fields] when the entry is absent raises [TypeError] inside
    [find_and_fill_field], before any field is touched. *)
Definition fill_entry (out : console) (db : unicode_db) (st : fill_state)
    (item : pystr * pystr) : fill_state * result unit :=
  let '(field_name, field_value) := item in
  if nonempty field_value then
    let attempt : fill_state * result unit :=
      match fields st with
      | None => (st, Raise TypeError)
      | Some fs =>
          let '(field_found, fs') :=
            find_and_fill_field db fs field_name field_value [] in
          let written :=
            {| fields := Some fs';
               filled_count := filled_count st;
               failed_count := failed_count st;
               printed := printed st |} in
          if field_found then
            match print out (CHECK_MARK ++ lit " " ++ field_name ++ lit ": '"
                             ++ field_value ++ lit "'") with
            | Ok _ =>
                ({| fields := Some fs';
                    filled_count := filled_count st + 1;
                    failed_count := failed_count st;
                    printed := printed st ++ [Filled field_name field_value] |},
                 Ok tt)
            | Raise e => (written, Raise e)
            end
          else
            match print out (WARNING_SIGN ++ lit " Field not found: "
                             ++ field_name) with
            | Ok _ =>
                ({| fields := Some fs';
                    filled_count := filled_count st;
                    failed_count := failed_count st + 1;
                    printed := printed st ++ [NotFound field_name] |},
                 Ok tt)
            | Raise e => (written, Raise e)
            end
      end in
    match attempt with
    | (st', Ok _) => (st', Ok tt)
    | (st', Raise e) =>
        match print out (CROSS_MARK ++ lit " Failed to fill " ++ field_name
                         ++ lit ": " ++ str_exn e) with
        | Ok _ =>
            ({| fields := fields st';
                filled_count := filled_count st';
                failed_count := failed_count st' + 1;
                printed := printed st' ++ [Failed field_name e] |},
             Ok tt)
        | Raise e' => (st', Raise e')
        end
    end
  else (st, Ok tt).

(** [fill_form]: what the call gives (a flag, or the exception that
    leaves it), the reader after the call, and the counters and the
    report lines reached (none when the loop is not reached). *)
Definition fill_form (out : console) (db : unicode_db)
    (pdf_reader : option reader) (field_mapping : dict)
  : result bool * option reader * option fill_state :=
  let try_body : result bool * option reader * option fill_state :=
    match print out ([10%N] ++ WRENCH
                     ++ lit " Filling form fields...") with
    | Raise e => (Raise e, pdf_reader, None)
    | Ok _ =>
        match pdf_reader with
        | None => (Raise AttributeError, None, None)
        | Some rd =>
            match AcroForm rd with
            | None =>
                let r : result bool :=
                  _ ← print out (CROSS_MARK ++ lit " No AcroForm found in PDF");
                  Ok false in
                (r, Some rd, None)
            | Some form =>
                let '(st, r) :=
                  for_each (fill_entry out db) field_mapping
                    (start (Fields form)) in
                let rd' := {| AcroForm := Some {| Fields := fields st |} |} in
                let summary : result bool :=
                  _ ← r;
                  _ ← print out ([10%N] ++ BAR_CHART
                                 ++ lit " Form filling summary:");
                  _ ← print out (CHECK_MARK ++ lit " Successfully filled: "
                                 ++ str_int (filled_count st) ++ lit " fields");
                  _ ← print out (CROSS_MARK ++ lit " Failed to fill: "
                                 ++ str_int (failed_count st) ++ lit " fields");
                  Ok true in
                (summary, Some rd', Some st)
            end
        end
    end in
  match try_body with
  | (Ok b, rd, st) => (Ok b, rd, st)
  | (Raise e, rd, st) =>
      let handled : result bool :=
        _ ← print out (CROSS_MARK ++ lit " Error filling form: " ++ str_exn e);
        Ok false in
      (handled, rd, st)
  end.

(** *** Discovery *)

(** The list is extended in place, so what a call has appended stays
    when the call ends by an exception.  The line is printed after the
    entry is appended and before the kids are visited, inside the
    [try]; the overwrite of [field_type] for a choice field comes after
    the line. *)
Fixpoint analyze_field_recursive (out : console) (db : unicode_db)
    (field : Pdf.field) (fields_info : list Discovery.field_info)
    (level : Z) (parent_name : pystr)
  : list Discovery.field_info * result unit :=
  match field with
  | Field t ft v as_ kids =>
      let try_body : list Discovery.field_info * result unit :=
        match (if truthy t
               then Discovery.decode_unicode_field_name db (default [] t)
               else Ok (lit "unnamed_field_"
                          ++ str_N (N.of_nat (length fields_info)))) with
        | Raise e => (fields_info, Raise e)
        | Ok field_name =>
            let full_name :=
              if nonempty parent_name
              then parent_name ++ lit "." ++ field_name
              else field_name in
            let field_type := if truthy ft then default [] ft else lit "Unknown" in
            let info (field_type : pystr) :=
              {| Discovery.level := level;
                 Discovery.parent := parent_name;
                 Discovery.field_name := field_name;
                 Discovery.full_path := full_name;
                 Discovery.field_type := field_type;
                 Discovery.has_children := nonempty kids;
                 Discovery.child_count := len kids |} in
            let indent := replicate (2 * Z.to_nat level) 32%N in
            match print out (indent ++ DIAMOND ++ lit " " ++ full_name
                             ++ lit " (Type: " ++ field_type
                             ++ lit ", Children: " ++ str_int (len kids)
                             ++ lit ")") with
            | Raise e => (fields_info ++ [info field_type], Raise e)
            | Ok _ =>
                let field_type :=
                  if bool_decide (ft = Some (lit "/Ch")) then lit "Choice Field"
                  else field_type in
                for_each
                  (fun infos child =>
                     analyze_field_recursive out db child infos (level + 1)
                       full_name)
                  kids (fields_info ++ [info field_type])
            end
        end in
      match try_body with
      | (infos, Ok _) => (infos, Ok tt)
      | (infos, Raise e) =>
          (infos,
           print out (WARNING_SIGN ++ lit " Error analyzing field at level "
                      ++ str_int level ++ lit ": " ++ str_exn e))
      end
  end.

(** [discover_pdf_fields_enhanced]; [PdfReader] gives the document and
    the number of its pages, or the exception of the reading. *)
Definition discover_pdf_fields_enhanced (out : console) (db : unicode_db)
    (pdf_path : pystr) (PdfReader : pystr -> result (reader * Z))
  : result (option (list Discovery.field_info)) :=
  _ ← print out (MAGNIFIER ++ lit " Starting Enhanced PDF Field Discovery...");
  _ ← print out (PAGE ++ lit " Analyzing: " ++ pdf_path);
  let try_body : result (option (list Discovery.field_info)) :=
    '(pdf, pages) ← PdfReader pdf_path;
    _ ← print out (CHECK_MARK ++ lit " PDF loaded successfully - "
                   ++ str_int pages ++ lit " pages");
    match AcroForm pdf with
    | None =>
        _ ← print out (CROSS_MARK ++ lit " No form fields found in PDF");
        Ok None
    | Some form =>
        match Fields form with
        | None =>
            _ ← print out (CROSS_MARK
                           ++ lit " AcroForm exists but no Fields found");
            Ok None
        | Some fields =>
            _ ← print out (CLIPBOARD ++ lit " Found " ++ str_int (len fields)
                           ++ lit " top-level form fields");
            let '(fields_info, r) :=
              for_each
                (fun fields_info field =>
                   analyze_field_recursive out db field fields_info 0 [])
                fields [] in
            _ ← r;
            Ok (Some fields_info)
        end
    end in
  match try_body with
  | Ok r => Ok r
  | Raise e =>
      _ ← print out (CROSS_MARK ++ lit " Error reading PDF: " ++ str_exn e);
      Ok None
  end.

(** *** [main] *)

(** How a run of [main] ends: at one of its early [return]s, or at the
    call of [save_filled_form] with the path and the document to
    write. *)
Inductive ending :=
| Usage
| BlankPdfNotFound
| JsonInputNotFound
| NoData
| FormNotLoaded
| InvalidInput
| FormNotFilled
| Save (output_path : pystr) (doc : reader).

(** [main], as a function of what it reads from outside: the command
    line, [os.path.exists], [load_json_input] giving the document when
    it could be read and is truthy, and [load_blank_form] giving the
    blank form when it could be read; either may let an exception out,
    as they print.  [Raise] is an exception that leaves [main].  The
    run is followed up to the call of [save_filled_form];
    [os.makedirs] before it and the writing itself belong to the file
    system and are left out. *)
Definition main (out : console) (db : unicode_db) (alnum : N -> bool)
    (now : date) (argv : list pystr) (path_exists : pystr -> bool)
    (load_json_input : pystr -> result (option input_record))
    (load_blank_form : pystr -> result (option reader)) : result ending :=
  match argv with
  | _ :: blank_pdf_path :: json_input_path :: _ =>
      if negb (path_exists blank_pdf_path) then
        _ ← print out (CROSS_MARK ++ lit " Blank PDF not found: "
                       ++ blank_pdf_path);
        Ok BlankPdfNotFound
      else if negb (path_exists json_input_path) then
        _ ← print out (CROSS_MARK ++ lit " JSON input not found: "
                       ++ json_input_path);
        Ok JsonInputNotFound
      else
        _ ← print out (ROCKET
                       ++ lit " Starting VA Form 21-0966 Fill Process...");
        _ ← print out (replicate 50 61%N);
        data ← load_json_input json_input_path;
        match data with
        | None => Ok NoData
        | Some data =>
            pdf_reader ← load_blank_form blank_pdf_path;
            match pdf_reader with
            | None => Ok FormNotLoaded
            | Some pdf_reader =>
                valid ← validate_json_input out data;
                if negb valid then Ok InvalidInput
                else
                  field_mapping ← create_field_mapping out db now data;
                  match fill_form out db (Some pdf_reader) field_mapping with
                  | (Raise e, _, _) => Raise e
                  | (Ok true, Some doc, _) =>
                      let output_filename :=
                        generate_output_filename alnum data in
                      let output_path := lit "output/" ++ output_filename in
                      Ok (Save output_path doc)
                  | (Ok _, _, _) => Ok FormNotFilled
                  end
            end
        end
  | _ =>
      _ ← print out (lit "Usage: python va_form_filler_complete.py <blank_pdf> <json_input>");
      _ ← print out (lit "Example: python va_form_filler_complete.py data/VA_Form_21-0966_blank.pdf data/test_data.json");
      Ok Usage
  end.

End Printing.

(** * Vocabulary of the statements *)

(** ** Strings and dates *)

(** The number of times [c] occurs in [s]. *)
Definition occurrences (c : N) (s : pystr) : nat :=
  length (filter (fun x => x = c) s).

(** Plain left padding with zeros, without [zfill]'s treatment of a sign. *)
Definition lpad0 (width : nat) (s : pystr) : pystr :=
  replicate (width - length s) 48%N ++ s.

Definition lone_sign (s : pystr) : Prop := s = lit "+" \/ s = lit "-".

#[global] Instance lone_sign_dec s : Decision (lone_sign s).
Proof. unfold lone_sign. apply _. Defined.

(** The number written by two decimal digits. *)
Definition two_digit_value (a b : N) : Z :=
  (Z.of_N a - 48) * 10 + (Z.of_N b - 48).

(** An input is a 3-part string for a separator when the separator
    occurs in it exactly twice. *)
Definition three_part (sep : N) (s : pystr) : Prop :=
  occurrences sep s = 2%nat.

#[global] Instance three_part_dec sep s : Decision (three_part sep s).
Proof. unfold three_part. apply _. Defined.

(** ** The field tree *)

(** Induction on a field with the property known for its kids. *)
Section FieldInduction.
Variable P : field -> Prop.
Hypothesis step :
  forall t ft v as_ kids, Forall P kids -> P (Field t ft v as_ kids).

Fixpoint field_tree_ind (f : field) : P f :=
  match f with
  | Field t ft v as_ kids =>
      step t ft v as_ kids
        ((fix all (l : list field) : Forall P l :=
            match l with
            | [] => List.Forall_nil P
            | x :: r => List.Forall_cons P x r (field_tree_ind x) (all r)
            end) kids)
  end.
End FieldInduction.

(** A loop body that leaves its argument alone when it misses. *)
Definition quiet {A} (body : A -> bool * A) (x : A) : Prop :=
  (body x).1 = false -> (body x).2 = x.

(** The full paths the writer can reach: those of the nodes all of whose
    ancestors, and themselves, carry a name. *)
Fixpoint node_paths (db : unicode_db) (parent_path : pystr) (f : field)
  : list pystr :=
  match f with
  | Field t ft v as_ kids =>
      if truthy t then
        match decode_unicode_field_name db (default [] t) with
        | Ok field_name =>
            let full_path := join_path parent_path field_name in
            full_path :: (kids ≫= node_paths db full_path)
        | Raise _ => []
        end
      else []
  end.

Definition named_paths (db : unicode_db) (parent_path : pystr)
    (fields : list field) : list pystr :=
  fields ≫= node_paths db parent_path.

(** The decoded name under which the writer knows a node, if any. *)
Definition decoded_name (db : unicode_db) (f : field) : option pystr :=
  if truthy (T f) then
    match decode_unicode_field_name db (default [] (T f)) with
    | Ok field_name => Some field_name
    | Raise _ => None
    end
  else None.

Definition dup_first : field :=
  Field (Some (lit "(A)")) (Some (lit "/Tx")) (Some (lit "first")) None [].
Definition dup_second : field :=
  Field (Some (lit "(A)")) (Some (lit "/Tx")) (Some (lit "second")) None [].

(** ** The form writer's report *)

(** The entries [fill_form] tries: those with a non-empty value. *)
Definition attempted (field_mapping : dict) : dict :=
  filter (fun item => item.2 <> []) field_mapping.

Definition outcome_name (o : outcome) : pystr :=
  match o with
  | Filled n _ => n
  | NotFound n => n
  | Failed n _ => n
  end.

(** ** Encoded names *)

(** A token in the byte-order-mark form, and its payload. *)
Definition wrap (hex_content : pystr) : pystr :=
  lit "<FEFF" ++ hex_content ++ lit ">".

(** The successive groups of four characters of the payload; the last
    one is shorter when the length is not a multiple of four. *)
Definition chunks4 (hex_content : pystr) : list pystr :=
  map (fun k => take 4 (drop (4 * k) hex_content))
      (seq 0 (Z.to_nat ((len hex_content + 3) / 4))).

(** What the loop computes from one group. *)
Definition chunk_char (db : unicode_db) (hex_char : pystr) : result N :=
  char_code ← int db hex_char 16; chr char_code.

Definition rejected (db : unicode_db) (hex_char : pystr) : Prop :=
  exists e, chunk_char db hex_char = Raise e.

Definition accepted (db : unicode_db) (hex_char : pystr) (c : N) : Prop :=
  chunk_char db hex_char = Ok c.

Definition is_hex_digit (c : N) : bool :=
  match digit_value c with
  | Some d => d <? 16
  | None => false
  end.

(** The payload as the specification words it: a sequence of groups of
    four hexadecimal digits. *)
Definition spec_wellformed_hex (hex_content : pystr) : bool :=
  forallb is_hex_digit hex_content && (len hex_content mod 4 =? 0).

(** The number written by a run of hexadecimal digits. *)
Definition hex_value (s : pystr) : Z :=
  fold_left (fun acc c => acc * 16 + default 0 (digit_value c)) s 0.

(** The results from left to right, up to the first that is a [Raise]. *)
Fixpoint all_ok {A} (rs : list (result A)) : result (list A) :=
  match rs with
  | [] => Ok []
  | r :: rs' => a ← r; rest ← all_ok rs'; Ok (a :: rest)
  end.

(** ** Nodes without a name *)

Definition nameless (f : field) : Prop := truthy (T f) = false.

(** The name prefix that discovery gives a node without a name. *)
Definition unnamed_marker : pystr := lit "unnamed_field_".

(** The node at a position: the indices of the siblings to go through,
    from the top-level list downwards. *)
Fixpoint node_at (pos : list nat) (fs : list field) : option field :=
  match pos with
  | [] => None
  | i :: pos' =>
      match fs !! i with
      | None => None
      | Some f =>
          match pos' with
          | [] => Some f
          | _ :: _ => node_at pos' (Kids f)
          end
      end
  end.

(** No name that the writer can reach contains [sub]. *)
Fixpoint names_avoid (db : unicode_db) (sub : pystr) (f : field) : bool :=
  match f with
  | Field t ft v as_ kids =>
      if truthy t then
        match decode_unicode_field_name db (default [] t) with
        | Ok field_name =>
            negb (py_in sub field_name) && forallb (names_avoid db sub) kids
        | Raise _ => true
        end
      else true
  end.

Definition nameless_root : field := Field None (Some (lit "/Tx")) None None [].
Definition lookalike_root : field :=
  Field (Some (lit "(unnamed_field_0)")) (Some (lit "/Tx")) None None [].

Definition marked (info : Discovery.field_info) : Prop :=
  py_in unnamed_marker (Discovery.full_path info) = true.

Definition nameless_parent : field :=
  Field None None None None
    [Field (Some (lit "(X)")) (Some (lit "/Tx")) None None []].
Definition plain_root : field :=
  Field (Some (lit "(F)")) None None None
    [Field (Some (lit "(X)")) (Some (lit "/Tx")) None None []].

(** ** The value map *)

(** The keys of the dictionary literal, in order. *)
Definition base_keys : list pystr :=
  [ lit "F[0].Page_1[0].Veterans_First_Name[0]";
    lit "F[0].Page_1[0].Veterans_Middle_Initial1[0]";
    lit "F[0].Page_1[0].Veterans_Last_Name[0]";
    lit "F[0].Page_1[0].Veterans_Social_SecurityNumber_FirstThreeNumbers[0]";
    lit "F[0].Page_1[0].Veterans_Social_SecurityNumber_SecondTwoNumbers[0]";
    lit "F[0].Page_1[0].VeteransSocialSecurityNumber_LastFourNumbers[0]";
    lit "F[0].Page_1[0].DOB_Month[0]";
    lit "F[0].Page_1[0].DOB_Day[0]";
    lit "F[0].Page_1[0].DOB_Year[0]";
    lit "F[0].Page_1[0].EMAIL_ADDRESS[0]";
    lit "F[0].Page_1[0].EMAIL_ADDRESS[1]";
    lit "F[0].Page_1[0].Telephone_Number_FirstThreeNumbers[0]";
    lit "F[0].Page_1[0].Telephone_Number_SecondThreeNumbers[0]";
    lit "F[0].Page_1[0].Telephone_Number_LastFourNumbers[0]";
    lit "F[0].Page_1[0].Mailing_Address_NumberAndStreet[0]";
    lit "F[0].Page_1[0].Mailing_Address_ApartmentOrUnitNumber[0]";
    lit "F[0].Page_1[0].MailingAddress_City[0]";
    lit "F[0].Page_1[0].MailingAddress_StateOrProvince[0]";
    lit "F[0].Page_1[0].MailingAddress_Country[0]";
    lit "F[0].Page_1[0].MailingAddress_ZIPOrPostalCode_FirstFiveNumbers[0]";
    lit "F[0].Page_1[0].MailingAddress_ZIPOrPostalCode_LastFourNumbers[0]";
    lit "F[0].Page_1[0].VA_File_Number[0]";
    lit "F[0].Page_1[0].Veterans_Service_Number[0]";
    lit "F[0].#subform[1].Date_Signed_Month[0]";
    lit "F[0].#subform[1].Date_Signed_Day[0]";
    lit "F[0].#subform[1].Date_Signed_Year[0]";
    lit "F[0].#subform[1].Name_Of_Attorney_Agent_Or_Veterans_Service_Organization_VS[0]" ].

Definition election_keys : list pystr := [COMPENSATION; PENSION; SURVIVORS].

(** The optional scalar fields of the input record: every scalar but the
    three required ones and the election flags. *)
Inductive scalar :=
| MiddleInitial | Ssn | Phone | Email | VaFileNumber | ServiceNumber
| Street | AptUnit | City | State | Country | ZipCode
| DateSigned | AttorneyName.

(** The value of a scalar in a record; [None] when its key, or an object
    on the way to it, is absent. *)
Definition scalar_value (data : input_record) (f : scalar) : option pystr :=
  let of_veteran (key : veteran_info_t -> option pystr) :=
    match veteran_info data with
    | Some vi => key vi
    | None => None
    end in
  let of_address (key : address_t -> option pystr) :=
    match veteran_info data with
    | Some vi => match address vi with Some ad => key ad | None => None end
    | None => None
    end in
  let of_signature (key : signature_info_t -> option pystr) :=
    match signature_info data with
    | Some si => key si
    | None => None
    end in
  match f with
  | MiddleInitial => of_veteran middle_initial
  | Ssn => of_veteran ssn
  | Phone => of_veteran phone
  | Email => of_veteran email
  | VaFileNumber => of_veteran va_file_number
  | ServiceNumber => of_veteran service_number
  | Street => of_address street
  | AptUnit => of_address apt_unit
  | City => of_address city
  | State => of_address state
  | Country => of_address country
  | ZipCode => of_address zip_code
  | DateSigned => of_signature date_signed
  | AttorneyName => of_signature attorney_agent_vso_name
  end.

(** Where each scalar goes: positions in [base_keys]. *)
Definition target_positions (f : scalar) : list nat :=
  match f with
  | MiddleInitial => [1]
  | Ssn => [3; 4; 5]
  | Phone => [11; 12; 13]
  | Email => [9; 10]
  | VaFileNumber => [21]
  | ServiceNumber => [22]
  | Street => [14]
  | AptUnit => [15]
  | City => [16]
  | State => [17]
  | Country => [18]
  | ZipCode => [19; 20]
  | DateSigned => [23; 24; 25]
  | AttorneyName => [26]
  end%nat.

Definition target_keys (f : scalar) : list pystr :=
  omap (fun i => base_keys !! i) (target_positions f).

Definition SIG_MONTH : pystr := lit "F[0].#subform[1].Date_Signed_Month[0]".
Definition SIG_DAY : pystr := lit "F[0].#subform[1].Date_Signed_Day[0]".
Definition SIG_YEAR : pystr := lit "F[0].#subform[1].Date_Signed_Year[0]".

(** The three conditional insertions. *)
Definition with_flags (c p s : bool) (d : dict) : dict :=
  let d := if c then dict_set d COMPENSATION (lit "/1") else d in
  let d := if p then dict_set d PENSION (lit "/1") else d in
  if s then dict_set d SURVIVORS (lit "/1") else d.

Definition split_date_value (db : unicode_db) (s : pystr)
  : pystr * pystr * pystr :=
  match split_date db s with
  | Ok r => r
  | Raise _ => sentinel
  end.

(** The values of the dictionary literal, in the order of [base_keys]. *)
Definition entry_values (db : unicode_db) (now : date)
    (vi : veteran_info_t) (si : signature_info_t) : list pystr :=
  let em := handle_email_overflow (get_str (email vi)) in
  let sn := if nonempty (get_str (ssn vi)) then split_ssn (get_str (ssn vi))
            else ([], [], []) in
  let ph := if nonempty (get_str (phone vi))
            then split_phone db (get_str (phone vi)) else ([], [], []) in
  let dob := if nonempty (get_str (date_of_birth vi))
             then split_date_value db (get_str (date_of_birth vi))
             else ([], [], []) in
  let sg := if nonempty (get_str (date_signed si))
            then split_date_value db (get_str (date_signed si))
            else (format_02d (month now), format_02d (day now),
                  str_N (year now)) in
  let ad := default no_address (address vi) in
  let zp := if nonempty (get_str (zip_code ad))
            then split_zip db (get_str (zip_code ad)) else ([], []) in
  [ get_str (first_name vi); get_str (middle_initial vi);
    get_str (last_name vi);
    sn.1.1; sn.1.2; sn.2;
    dob.1.1; dob.1.2; dob.2;
    em.1; em.2;
    ph.1.1; ph.1.2; ph.2;
    get_str (street ad); get_str (apt_unit ad); get_str (city ad);
    get_str (state ad); get_str (country ad);
    zp.1; zp.2;
    get_str (va_file_number vi); get_str (service_number vi);
    sg.1.1; sg.1.2; sg.2;
    get_str (attorney_agent_vso_name si) ].

Definition flag_keys (c p s : bool) : list pystr :=
  (if c then [COMPENSATION] else []) ++ (if p then [PENSION] else [])
  ++ (if s then [SURVIVORS] else []).

(** ** Sample inputs *)

Definition sample_veteran : veteran_info_t :=
  {| first_name := Some (lit "Jane"); middle_initial := None;
     last_name := Some (lit "Doe");
     date_of_birth := Some (lit "01/02/1980");
     ssn := None; phone := None; email := None; va_file_number := None;
     service_number := None; address := None |}.

Definition sample_record : input_record :=
  {| veteran_info := Some sample_veteran; benefit_election := None;
     signature_info := None |}.

Definition sample_day : date := {| year := 2024; month := 1; day := 15 |}.
Definition next_day : date := {| year := 2024; month := 1; day := 16 |}.

Definition sample_reader : reader :=
  {| AcroForm := Some {| Fields := Some [dup_first; dup_second] |} |}.

Definition sample_mapping : dict :=
  [ (lit "A", lit "x"); (lit "B", lit "y"); (lit "C", lit "") ].

(** ** Vocabulary of the further properties *)


(** *** The two written forms of a name *)

(** A name as a literal string token. *)
Definition paren (s : pystr) : pystr := lit "(" ++ s ++ lit ")".

(** A name as a hexadecimal string token with byte-order mark: four
    upper-case hexadecimal digits per character. *)
Definition hex_digit (d : N) : N :=
  if (d <? 10)%N then (48 + d)%N else (55 + d)%N.

Definition hex4 (c : N) : pystr :=
  [ hex_digit (c / 4096 mod 16); hex_digit (c / 256 mod 16);
    hex_digit (c / 16 mod 16); hex_digit (c mod 16) ]%N.

Definition hex_encode (s : pystr) : pystr := s ≫= hex4.

(** *** The writer as an update of a map from paths to fields *)

(** The first result a function gives along a list. *)
Definition first_some {A B} (g : A -> option B) : list A -> option B :=
  fix go (l : list A) : option B :=
    match l with
    | [] => None
    | x :: r => match g x with Some y => Some y | None => go r end
    end.

(** The field a path stands for: the first one in depth-first order
    that carries the path, looked for as the writer does (below fields
    with a name only, and not below a field that matches). *)
Fixpoint read_node (db : unicode_db) (target parent_path : pystr) (f : field)
  : option field :=
  match f with
  | Field t ft v as_ kids =>
      if truthy t then
        match decode_unicode_field_name db (default [] t) with
        | Raise _ => None
        | Ok field_name =>
            let full_path := join_path parent_path field_name in
            if bool_decide (full_path = target) then Some f
            else first_some (read_node db target full_path) kids
        end
      else None
  end.

Definition read_field (db : unicode_db) (fields : list field)
    (target parent_path : pystr) : option field :=
  first_some (read_node db target parent_path) fields.

(** A field without its kids, and a field without any value. *)
Definition shallow (f : field) : field :=
  {| T := T f; FT := FT f; V := V f; AS := AS f; Kids := [] |}.

Fixpoint erase (f : field) : field :=
  match f with
  | Field t ft _ _ kids => Field t ft None None (map erase kids)
  end.

(** The value of the last entry of a list of items that [fill_form]
    tries for a key. *)
Fixpoint last_write (items : dict) (k : pystr) : option pystr :=
  match items with
  | [] => None
  | (k', v) :: rest =>
      match last_write rest k with
      | Some w => Some w
      | None => if bool_decide (k' = k) && nonempty v then Some v else None
      end
  end.

(** What one turn of the search does to a node, seen through reading. *)
Definition turn_ok (db : unicode_db) (t value pp : pystr) (f : field) : Prop :=
  let f' := (visit_field db t value pp f).2 in
  ((visit_field db t value pp f).1 = true <-> is_Some (read_node db t pp f)) /\
  erase f' = erase f /\
  read_node db t pp f' = (fun n => set_value n value) <$> read_node db t pp f /\
  (forall t', t' <> t ->
     shallow <$> read_node db t' pp f' = shallow <$> read_node db t' pp f).

(** A field with the value of a write, if there was one. *)
Definition apply_write (o : option pystr) (n : field) : field :=
  match o with
  | Some v => set_value n v
  | None => n
  end.

Definition EMAIL_0 : pystr := lit "F[0].Page_1[0].EMAIL_ADDRESS[0]".
Definition EMAIL_1 : pystr := lit "F[0].Page_1[0].EMAIL_ADDRESS[1]".

(** *** The listing of discovery *)

(** The nodes of a tree, a node before its kids. *)
Fixpoint preorder (f : field) : list field :=
  match f with
  | Field _ _ _ _ kids => f :: (kids ≫= preorder)
  end.

(** Every node of the tree carries a name. *)
Fixpoint all_named (f : field) : bool :=
  match f with
  | Field t _ _ _ kids => truthy t && forallb all_named kids
  end.

(** The name discovery makes up at position [i] of its list. *)
Definition unnamed (i : nat) : pystr := unnamed_marker ++ str_N (N.of_nat i).

(** [info] is the entry of [node], listed at position [i]. *)
Definition describes (db : unicode_db) (i : nat) (node : field)
    (info : Discovery.field_info) : Prop :=
  Discovery.field_name info = default (unnamed i) (decoded_name db node) /\
  Discovery.full_path info
    = join_path (Discovery.parent info) (Discovery.field_name info) /\
  Discovery.has_children info = nonempty (Kids node) /\
  Discovery.child_count info = len (Kids node).

(** [new] lists [nodes] one by one, from position [off] on. *)
Fixpoint listed (db : unicode_db) (off : nat) (nodes : list field)
    (new : list Discovery.field_info) : Prop :=
  match nodes, new with
  | [], [] => True
  | node :: nodes', info :: new' =>
      describes db off node info /\ listed db (S off) nodes' new'
  | _, _ => False
  end.

(** What a call of [analyze_field_recursive] on [f] adds to the list. *)
Definition listing_ok (db : unicode_db) (f : field) : Prop :=
  forall fields_info level parent_name,
  exists new,
    Discovery.analyze_field_recursive db f fields_info level parent_name
      = fields_info ++ new /\
    listed db (length fields_info) (preorder f) new /\
    node_paths db parent_name f ⊆ map Discovery.full_path new /\
    (all_named f = true ->
     map Discovery.full_path new = node_paths db parent_name f).

(** A small form: the root with two subforms, each with a named field
    and a field without a name. *)
Definition sample_form : list field :=
  [ Field (Some (lit "(F[0])")) None None None
      [ Field (Some (lit "(Page_1[0])")) None None None
          [ Field (Some (lit "(Veterans_First_Name[0])")) (Some (lit "/Tx"))
              None None [];
            Field None (Some (lit "/Tx")) None None [] ];
        Field (Some (lit "(#subform[1])")) None None None
          [ Field (Some (lit "(COMPENSATION[0])")) (Some (lit "/Btn"))
              None (Some (lit "/Off")) [];
            Field None (Some (lit "/Btn")) None None [] ] ] ].

Definition form_reader : reader :=
  {| AcroForm := Some {| Fields := Some sample_form |} |}.

Definition bare_reader : reader :=
  {| AcroForm := Some {| Fields := None |} |}.

Definition sample_election : benefit_election_t :=
  {| compensation := Some true; pension := Some false;
     survivors_pension_dic := None |}.

(** ** Vocabulary of the properties of the printing functions *)

(** The console has the symbols of the program's messages. *)
Definition symbols : pystr :=
  CHECK_MARK ++ CROSS_MARK ++ WARNING_SIGN ++ WRENCH ++ BAR_CHART ++ ROCKET
  ++ MAGNIFIER ++ PAGE ++ CLIPBOARD ++ DIAMOND.

Definition has_symbols (out : console) : Prop := shows out symbols = true.

(** A text made of three parts by the separator that [split_date]
    goes by: '/' when the text has one, and '-' otherwise. *)
Definition dated (s : pystr) : Prop :=
  three_part 47 s \/ (occurrences 47 s = 0%nat /\ three_part 45 s).

#[global] Instance dated_dec s : Decision (dated s).
Proof. unfold dated. apply _. Defined.

(** A lone surrogate, which no console takes that goes by UTF-8. *)
Definition lone_surrogate : pystr := [0xD800%N].

(** The entries of a map under a path, and what a flag of the record
    asks of them: one entry with the selected token for a flag that is
    true, none for a flag that is false or absent. *)
Definition entries_at (m : dict) (path : pystr) : dict :=
  filter (fun item => item.1 = path) m.

Definition flag_entry (m : dict) (path : pystr) (flag : option bool) : Prop :=
  match flag with
  | Some true => entries_at m path = [(path, lit "/1")]
  | Some false | None => entries_at m path = []
  end.

(** The console shows the keys of the entries that [fill_form] tries. *)
Definition keys_shown (out : console) (items : dict) : Prop :=
  Forall (fun item => shows out item.1 = true) (attempted items).

(** The tried entries that [fill_form] counts as filled: the path
    stands for a field of the form and the console shows the value. *)
Definition hits (out : console) (db : unicode_db) (fs : list field)
    (items : dict) : dict :=
  filter (fun item => item.1 ∈ named_paths db [] fs /\ shows out item.2 = true)
    (attempted items).

(** The line of the report for a tried entry, by the form given. *)
Definition report_line (out : console) (db : unicode_db) (fs : list field)
    (item : pystr * pystr) : outcome :=
  if bool_decide (item.1 ∈ named_paths db [] fs) then
    if shows out item.2 then Filled item.1 item.2
    else Failed item.1 ValueError
  else NotFound item.1.

(** The texts of a record that [create_field_mapping] may print in a
    warning: the two dates and the ZIP code. *)
Definition printed_texts (data : input_record) : list pystr :=
  match veteran_info data with
  | None => []
  | Some vi =>
      [ get_str (date_of_birth vi);
        get_str (date_signed (default no_signature (signature_info data)));
        get_str (zip_code (default no_address (address vi))) ]
  end.

Definition texts_shown (out : console) (data : input_record) : Prop :=
  Forall (fun text => shows out text = true) (printed_texts data).

(** The checkbox at a path after the form is filled, by the flag of the
    record: with the selected token set on it for a flag that is true,
    as it was for a flag that is false or absent. *)
Definition box_after (db : unicode_db) (fs fs' : list field) (path : pystr)
    (flag : option bool) : Prop :=
  shallow <$> read_field db fs' path []
  = apply_write (match flag with
                 | Some true => Some (lit "/1")
                 | Some false | None => None
                 end)
    <$> (shallow <$> read_field db fs path []).

(** A form with two of the election checkboxes. *)
Definition boxes_form : list field :=
  [ Field (Some (lit "(F[0])")) None None None
      [ Field (Some (lit "(#subform[1])")) None None None
          [ Field (Some (lit "(COMPENSATION[0])")) (Some (lit "/Btn"))
              None (Some (lit "/Off")) [];
            Field (Some (lit "(PENSION[0])")) (Some (lit "/Btn"))
              None (Some (lit "/Off")) [] ] ] ].

Definition boxes_reader : reader :=
  {| AcroForm := Some {| Fields := Some boxes_form |} |}.

(** A record whose date of birth the console cannot show. *)
Definition unshown_veteran : veteran_info_t :=
  {| first_name := Some (lit "Jane"); middle_initial := None;
     last_name := Some (lit "Doe");
     date_of_birth := Some lone_surrogate;
     ssn := None; phone := None; email := None; va_file_number := None;
     service_number := None; address := None |}.

(** The console shows the decoded name and the type tag of a node, and
    those of every node of a form. *)
Definition node_shown (out : console) (db : unicode_db) (f : field) : Prop :=
  shows out (default [] (decoded_name db f)) = true /\
  shows out (default [] (FT f)) = true.

Definition form_shown (out : console) (db : unicode_db) (fs : list field)
  : Prop :=
  Forall (node_shown out db) (fs ≫= preorder).

(** A form whose root has a name that decodes to two lone surrogates. *)
Definition unshown_root : field :=
  Field (Some (lit "<FEFFD83DDE00>")) None None None
    [Field (Some (lit "(X)")) (Some (lit "/Tx")) None None []].

(** * Properties *)

(** ** The model of the builtins against CPython *)

Example int_tests :
  int ascii_db (lit " 041") 16 = Ok 65 /\
  int ascii_db (lit "0x41") 16 = Ok 65 /\
  int ascii_db (lit "+041") 16 = Ok 65 /\
  int ascii_db (lit "4_1") 16 = Ok 65 /\
  int ascii_db (lit "-041") 16 = Ok (-65) /\
  int ascii_db (lit "-041") 10 = Ok (-41) /\
  int ascii_db (lit "0x") 16 = Raise ValueError /\
  int ascii_db (lit "0x_1") 16 = Ok 1 /\
  int ascii_db (lit "0x_1") 10 = Raise ValueError /\
  int ascii_db (lit "_1") 16 = Raise ValueError /\
  int ascii_db (lit "1_") 16 = Raise ValueError /\
  int ascii_db (lit "1__1") 16 = Raise ValueError /\
  int ascii_db (lit "0X1f") 16 = Ok 31 /\
  int ascii_db (lit "0X1f") 10 = Raise ValueError /\
  int ascii_db (lit "0x 1") 16 = Raise ValueError /\
  int ascii_db (lit "+ 1") 16 = Raise ValueError /\
  int ascii_db (lit "0_x1") 16 = Raise ValueError /\
  int ascii_db (lit "0b1") 16 = Ok 177 /\
  int ascii_db (lit "0b1") 10 = Raise ValueError /\
  int ascii_db (lit "") 10 = Raise ValueError /\
  int ascii_db (lit "99") 10 = Ok 99.
Proof. repeat split; vm_compute; reflexivity. Qed.

Example str_tests :
  zfill 2 (lit "-") = lit "-0" /\ zfill 2 (lit "") = lit "00" /\
  zfill 2 (lit "3") = lit "03" /\ zfill 3 (lit "-1") = lit "-01" /\
  split 47 (lit "a/b/c") = [lit "a"; lit "b"; lit "c"] /\
  split 47 (lit "") = [lit ""] /\ split 47 (lit "/") = [lit ""; lit ""] /\
  split 47 (lit "a//") = [lit "a"; lit ""; lit ""] /\
  slice (Some 5) (Some (-1)) (lit "abc") = [] /\
  slice (Some 5) (Some (-1)) (lit "<FEFF>") = [] /\
  slice (Some 5) (Some (-1)) (lit "<FEFF0041>") = lit "0041" /\
  slice (Some 1) (Some (-1)) (lit "ab") = [] /\
  slice (Some 1) (Some (-1)) (lit "(ab)") = lit "ab" /\
  ljust 5 48 (lit "x") = lit "x0000" /\
  format_02d 7 = lit "07" /\ format_02d 12 = lit "12" /\ format_02d 123 = lit "123" /\
  str_N 2024 = lit "2024" /\
  startswith (lit "<FEFF") (lit "<FEFF>") = true /\
  endswith (lit ">") (lit "<FEFF>") = true /\
  endswith (lit ")") (lit "(") = false /\
  py_in (lit "/") (lit "3/4") = true /\ py_in (lit "/") (lit "3-4") = false /\
  py_in (lit "") (lit "") = true.
Proof. repeat split; vm_compute; reflexivity. Qed.

(** Settles a closed decidable proposition by evaluation. *)
Ltac by_compute := apply (bool_decide_unpack _); vm_compute; exact I.

(** ** Strings *)

Section StringFacts.

Lemma slice_to (k : nat) {A} (s : list A) :
  slice None (Some (Z.of_nat k)) s = take k s.
Proof.
  unfold slice, clip, len; simpl.
  destruct (Z.ltb_spec (Z.of_nat k) 0) as [?|_]; [lia|].
  rewrite drop_0, Z.sub_0_r.
  destruct (decide (k <= length s)%nat) as [Hle|Hgt].
  - rewrite Z.min_l by lia. by rewrite Nat2Z.id.
  - rewrite Z.min_r by lia. rewrite Nat2Z.id.
    rewrite !take_ge by lia. done.
Qed.

Lemma slice_from (k : nat) {A} (s : list A) :
  slice (Some (Z.of_nat k)) None s = drop k s.
Proof.
  unfold slice, clip, len; simpl.
  destruct (Z.ltb_spec (Z.of_nat k) 0) as [?|_]; [lia|].
  destruct (decide (k <= length s)%nat) as [Hle|Hgt].
  - rewrite Z.min_l by lia. rewrite Nat2Z.id.
    apply take_ge. rewrite length_drop. lia.
  - rewrite Z.min_r by lia. rewrite Nat2Z.id.
    rewrite !drop_ge by lia. by rewrite take_nil.
Qed.

Lemma split_not_nil sep s : split sep s <> [].
Proof.
  destruct s as [|c r]; simpl; [done|].
  destruct (c =? sep)%N; [done|]. by destruct (split sep r).
Qed.

Lemma length_split sep s : length (split sep s) = S (occurrences sep s).
Proof.
  unfold occurrences. induction s as [|c r IH]; simpl; [done|].
  rewrite filter_cons.
  destruct (N.eqb_spec c sep) as [->|Hne].
  - rewrite decide_True by done. simpl. by rewrite IH.
  - rewrite decide_False by done.
    destruct (split sep r) eqn:E; [by apply split_not_nil in E|].
    simpl in *. done.
Qed.

Lemma split_free sep (a : pystr) : sep ∉ a -> split sep a = [a].
Proof.
  induction a as [|c r IH]; simpl; intros Hn; [done|].
  apply not_elem_of_cons in Hn as [Hc Hr].
  destruct (N.eqb_spec c sep) as [->|_]; [done|].
  by rewrite IH.
Qed.

Lemma split_app sep (a r : pystr) :
  sep ∉ a -> split sep (a ++ sep :: r) = a :: split sep r.
Proof.
  induction a as [|c a IH]; simpl; intros Hn.
  - by rewrite N.eqb_refl.
  - apply not_elem_of_cons in Hn as [Hc Hr].
    destruct (N.eqb_spec c sep) as [->|_]; [done|].
    by rewrite IH.
Qed.

Lemma startswith_char c (s : pystr) :
  startswith [c] s = true <-> exists r, s = c :: r.
Proof.
  unfold startswith. rewrite bool_decide_eq_true. simpl.
  destruct s as [|x r]; simpl.
  - split; [done|]. by intros [? ?].
  - rewrite take_0. split.
    + intros [= ->]. by eexists.
    + by intros [? [= -> ->]].
Qed.

Lemma py_in_char c (s : pystr) : py_in [c] s = true <-> c ∈ s.
Proof.
  induction s as [|x r IH].
  - change (py_in [c] []) with (startswith [c] [] || false).
    rewrite orb_false_r, startswith_char.
    split; [by intros [? ?]|]. by intros ?%elem_of_nil.
  - change (py_in [c] (x :: r)) with (startswith [c] (x :: r) || py_in [c] r).
    rewrite orb_true_iff, IH, startswith_char, elem_of_cons.
    split.
    + intros [[? [= -> ->]]|?]; auto.
    + intros [->|?]; [left; by eexists|by right].
Qed.

Lemma py_in_char_false c (s : pystr) : py_in [c] s = false <-> c ∉ s.
Proof.
  rewrite <- py_in_char. by destruct (py_in [c] s).
Qed.

Lemma occurrences_pos c (s : pystr) : c ∈ s <-> (0 < occurrences c s)%nat.
Proof.
  unfold occurrences. induction s as [|x r IH]; simpl.
  - split; [by intros ?%elem_of_nil|lia].
  - rewrite filter_cons, elem_of_cons. destruct (decide (x = c)) as [->|Hne]; simpl.
    + split; [lia|auto].
    + rewrite <- IH. split; [intros [?|?]; [congruence|done]|auto].
Qed.

Lemma zfill_lpad0 (s : pystr) : ~ lone_sign s -> zfill 2 s = lpad0 2 s.
Proof.
  unfold zfill, lpad0, lone_sign. intros Hs.
  destruct s as [|c [|d r]]; simpl.
  - done.
  - destruct (is_sign c) eqn:Hc; [|done].
    exfalso. apply Hs. unfold is_sign in Hc.
    apply orb_true_iff in Hc as [?%N.eqb_eq|?%N.eqb_eq]; subst; auto.
  - by destruct (is_sign c).
Qed.

Lemma ascii_digit_range (c : N) :
  is_ascii_digit c = true -> (48 <= c <= 57)%N.
Proof. unfold is_ascii_digit. rewrite andb_true_iff, !N.leb_le. done. Qed.

Lemma ascii_digit_cases (c : N) :
  is_ascii_digit c = true ->
  c ∈ [48; 49; 50; 51; 52; 53; 54; 55; 56; 57]%N.
Proof.
  unfold is_ascii_digit. rewrite andb_true_iff, !N.leb_le. intros [H1 H2].
  rewrite !elem_of_cons. lia.
Qed.

Lemma int_two_digits db (a b : N) :
  is_ascii_digit a = true -> is_ascii_digit b = true ->
  int db [a; b] 10 = Ok (two_digit_value a b).
Proof.
  intros Ha%ascii_digit_cases Hb%ascii_digit_cases.
  repeat (apply elem_of_cons in Ha as [->|Ha]);
    try (by apply elem_of_nil in Ha);
    repeat (apply elem_of_cons in Hb as [->|Hb]);
    try (by apply elem_of_nil in Hb);
    vm_compute; reflexivity.
Qed.

End StringFacts.

(** ** Value transformers *)

(** C2. The overflow split returns (remainder, first chunk): the second
    component is the first 20 characters of the input and the first
    component is what follows them; an input of at most 20 characters
    comes back whole as the chunk with an empty remainder, and a longer
    one gives a chunk of exactly 20 characters.  The two examples of the
    specification are instances. *)
Theorem handle_email_overflow_reversed :
  (forall s : pystr,
     (handle_email_overflow s).2 = take 20 s /\
     (handle_email_overflow s).1 = drop 20 s /\
     ((length s <= 20)%nat -> handle_email_overflow s = ([], s)) /\
     ((20 < length s)%nat ->
        length (handle_email_overflow s).2 = 20%nat /\
        (handle_email_overflow s).2 ++ (handle_email_overflow s).1 = s)) /\
  handle_email_overflow (lit "short@x.com") = (lit "", lit "short@x.com") /\
  handle_email_overflow (replicate 25 97%N)
    = (replicate 5 97%N, replicate 20 97%N).
Proof.
  split; [|split; vm_compute; reflexivity].
  intros s.
  assert (handle_email_overflow s = (drop 20 s, take 20 s)) as Heq.
  { unfold handle_email_overflow, len.
    destruct s as [|c r]; [done|]. cbn [nonempty negb].
    destruct (Z.leb_spec (Z.of_nat (length (c :: r))) 20) as [Hle|Hgt].
    - rewrite take_ge, drop_ge by lia. done.
    - change 20 with (Z.of_nat 20). by rewrite slice_to, slice_from. }
  rewrite Heq. cbn [fst snd]. split_and!; [done|done| |].
  - intros Hle. rewrite take_ge, drop_ge by lia. done.
  - intros Hgt. split; [rewrite length_take; lia|apply take_drop].
Qed.

Lemma handle_email_overflow_short :
  handle_email_overflow (lit "bob@va.gov") = ([], lit "bob@va.gov").
Proof.
  apply (proj1 handle_email_overflow_reversed (lit "bob@va.gov")).
  vm_compute. lia.
Defined.

Lemma split_date_eq db s :
  split_date db s =
    match split_date_try db s with Ok r => Ok r | Raise _ => Ok sentinel end.
Proof. reflexivity. Qed.

Lemma split_date_total db s : exists r, split_date db s = Ok r.
Proof. rewrite split_date_eq. destruct (split_date_try db s); eauto. Qed.

(** C7. For a 3-part date with a 2-digit year, month and day are
    padded with zeros on the left to two characters and the year gets
    the prefix "19" when its value is above 50 and "20" otherwise.  The
    separator is '/' or, in an input without '/', '-'; month and day are
    any texts without the separator other than a lone sign. *)
Theorem split_date_pivot (db : unicode_db) (sep : N) (m d : pystr) (a b : N) :
  sep = 47%N \/ (sep = 45%N /\ (47%N ∉ m) /\ (47%N ∉ d)) ->
  sep ∉ m -> sep ∉ d ->
  ~ lone_sign m -> ~ lone_sign d ->
  is_ascii_digit a = true -> is_ascii_digit b = true ->
  split_date db (m ++ sep :: d ++ sep :: [a; b])
    = Ok (lpad0 2 m, lpad0 2 d,
          (if two_digit_value a b >? 50 then lit "19" else lit "20") ++ [a; b]).
Proof.
  intros Hsep Hm Hd Hsm Hsd Ha Hb.
  assert (sep ∉ [a; b]) as Hy.
  { apply ascii_digit_range in Ha, Hb. rewrite !elem_of_cons.
    intros [->|[->|?%elem_of_nil]]; [| |done].
    - destruct Hsep as [?|[? _]]; lia.
    - destruct Hsep as [?|[? _]]; lia. }
  assert (split sep (m ++ sep :: d ++ sep :: [a; b]) = [m; d; [a; b]]) as Hsplit.
  { rewrite split_app by done. rewrite split_app by done.
    by rewrite split_free. }
  assert (sep ∈ m ++ sep :: d ++ sep :: [a; b]) as Hin.
  { rewrite elem_of_app, elem_of_cons. auto. }
  rewrite split_date_eq. unfold split_date_try.
  assert (forall ps, ps = [m; d; [a; b]] ->
    (if len ps =? 3
     then match ps with
          | [month; day; year] =>
              year0 ← (if len year =? 2
                       then n ← int db year 10;
                            Ok (if n >? 50 then lit "19" ++ year
                                else lit "20" ++ year)
                       else Ok year);
              Ok (zfill 2 month, zfill 2 day, year0)
          | _ => Raise ValueError
          end
     else Ok sentinel)
    = Ok (lpad0 2 m, lpad0 2 d,
          (if two_digit_value a b >? 50 then lit "19" else lit "20") ++ [a; b]))
    as Hbody.
  { intros ps ->. unfold len. cbn [length Z.of_nat Z.eqb Pos.eqb Pos.of_succ_nat Pos.succ].
    rewrite int_two_digits by done. cbn [mbind result_bind].
    rewrite !zfill_lpad0 by done.
    by destruct (two_digit_value a b >? 50). }
  destruct Hsep as [->|(-> & Hnm & Hnd)].
  - apply py_in_char in Hin. change [47%N] with (lit "/") in Hin. rewrite Hin.
    cbv zeta. rewrite (Hbody _ Hsplit). done.
  - assert (47%N ∉ m ++ 45%N :: d ++ 45%N :: [a; b]) as Hnin.
    { apply ascii_digit_range in Ha, Hb.
      rewrite !elem_of_app, !elem_of_cons, !elem_of_app, !elem_of_cons.
      intros [?|[?|[?|[?|[?|[?|?%elem_of_nil]]]]]]; try done; lia. }
    apply py_in_char_false in Hnin. apply py_in_char in Hin.
    change [47%N] with (lit "/") in Hnin. change [45%N] with (lit "-") in Hin.
    rewrite Hnin, Hin. cbv zeta. rewrite (Hbody _ Hsplit). done.
Qed.

Lemma split_date_pivot_examples :
  split_date ascii_db (lit "3/4/99") = Ok (lit "03", lit "04", lit "1999") /\
  split_date ascii_db (lit "3/4/05") = Ok (lit "03", lit "04", lit "2005").
Proof.
  split.
  - apply (split_date_pivot ascii_db 47 (lit "3") (lit "4") 57 57);
      first [by left | by_compute | reflexivity].
  - apply (split_date_pivot ascii_db 47 (lit "3") (lit "4") 48 53);
      first [by left | by_compute | reflexivity].
Defined.

(** ** The field tree and the writer's search *)

Section FirstHit.
Context {A : Type} (body : A -> bool * A).

Lemma first_hit_cons x rest :
  first_hit body (x :: rest) =
    if (body x).1 then (true, (body x).2 :: rest)
    else ((first_hit body rest).1, (body x).2 :: (first_hit body rest).2).
Proof.
  cbn [first_hit]. destruct (body x) as [[] x'];
    destruct (first_hit body rest); reflexivity.
Qed.

Lemma first_hit_miss xs :
  Forall (quiet body) xs -> (first_hit body xs).1 = false -> (first_hit body xs).2 = xs.
Proof.
  induction 1 as [|x r Hx Hr IH]; [done|].
  rewrite first_hit_cons. destruct (body x).1 eqn:E; [done|].
  cbn [fst snd]. intros Hmiss. by rewrite (Hx E), IH.
Qed.

Lemma first_hit_found xs :
  (first_hit body xs).1 = true <-> Exists (fun x => (body x).1 = true) xs.
Proof.
  induction xs as [|x r IH].
  - cbn. rewrite Exists_nil. done.
  - rewrite first_hit_cons, Exists_cons.
    destruct (body x).1 eqn:E; cbn [fst]; [tauto|].
    rewrite IH. split; [auto|]. by intros [?|?].
Qed.

(** The first element on which the body hits is the one updated; what
    stands after it is not looked at. *)
Lemma first_hit_app pre x rest :
  Forall (quiet body) pre -> Forall (fun y => (body y).1 = false) pre ->
  (body x).1 = true ->
  first_hit body (pre ++ x :: rest) = (true, pre ++ (body x).2 :: rest).
Proof.
  intros Hq Hmiss Hx. induction pre as [|y pre IH]; simpl app.
  - rewrite first_hit_cons, Hx. done.
  - apply Forall_cons in Hq as [Hy Hq]. apply Forall_cons in Hmiss as [Hmy Hmiss].
    rewrite first_hit_cons, Hmy, (IH Hq Hmiss). cbn [fst snd].
    by rewrite (Hy Hmy).
Qed.

Lemma first_hit_tail pre x rest :
  (body x).1 = true ->
  exists front,
    first_hit body (pre ++ x :: rest) = (true, front ++ rest) /\
    length front = S (length pre).
Proof.
  intros Hx. induction pre as [|y pre (front & IH & Hlen)]; simpl app.
  - exists [(body x).2]. by rewrite first_hit_cons, Hx.
  - rewrite first_hit_cons. destruct (body y).1.
    + exists ((body y).2 :: pre ++ [x]). split.
      * cbn [app]. by rewrite <- app_assoc.
      * rewrite length_cons, length_app. simpl. lia.
    + exists ((body y).2 :: front). rewrite IH. cbn [fst snd length]. auto.
Qed.
End FirstHit.

Lemma visit_field_eq db target value parent_path t ft v as_ kids :
  visit_field db target value parent_path (Field t ft v as_ kids) =
    if truthy t then
      match decode_unicode_field_name db (default [] t) with
      | Raise _ => (false, Field t ft v as_ kids)
      | Ok field_name =>
          let full_path := join_path parent_path field_name in
          if bool_decide (full_path = target) then
            (true, set_value (Field t ft v as_ kids) value)
          else if nonempty kids then
            ((find_and_fill_field db kids target value full_path).1,
             Field t ft v as_ (find_and_fill_field db kids target value full_path).2)
          else (false, Field t ft v as_ kids)
      end
    else (false, Field t ft v as_ kids).
Proof.
  cbn [visit_field]. destruct (truthy t); [|done].
  destruct (decode_unicode_field_name db (default [] t)); [|done].
  cbv zeta. case_bool_decide; [done|]. destruct (nonempty kids); [|done].
  unfold find_and_fill_field.
  by destruct (first_hit _ kids).
Qed.

(** The search hits exactly on the reachable paths, and a miss leaves
    the node as it was. *)
Lemma visit_field_spec db target value (f : field) :
  forall parent_path,
    ((visit_field db target value parent_path f).1 = true
       <-> target ∈ node_paths db parent_path f) /\
    ((visit_field db target value parent_path f).1 = false ->
       (visit_field db target value parent_path f).2 = f).
Proof.
  induction f as [t ft v as_ kids IH] using field_tree_ind. intros pp.
  rewrite visit_field_eq. cbn [node_paths].
  destruct (truthy t); [|cbn; rewrite elem_of_nil; done].
  destruct (decode_unicode_field_name db (default [] t)) as [name|e];
    [|cbn; rewrite elem_of_nil; done].
  cbv zeta. rewrite elem_of_cons. case_bool_decide as Heq.
  { cbn [fst snd]. split; [split; auto|done]. }
  assert (((find_and_fill_field db kids target value (join_path pp name)).1 = true
           <-> target ∈ kids ≫= node_paths db (join_path pp name)) /\
          ((find_and_fill_field db kids target value (join_path pp name)).1 = false ->
           (find_and_fill_field db kids target value (join_path pp name)).2 = kids))
    as [Hfound Hmiss].
  { unfold find_and_fill_field. split.
    - rewrite first_hit_found, list_elem_of_bind, Exists_exists.
      rewrite Forall_forall in IH.
      split; intros (x & H1 & H2); exists x.
      + split; [by apply (IH x H1)|done].
      + split; [done|by apply (IH x H2)].
    - apply first_hit_miss. eapply Forall_impl; [exact IH|].
      intros x Hx. exact (proj2 (Hx (join_path pp name))). }
  destruct kids as [|k kids'] eqn:Hk; cbn [nonempty].
  { cbn. rewrite elem_of_nil. split; [|done]. split; [done|]. intros [?|[]]. by destruct Heq. }
  rewrite <- Hk in *. cbn [fst snd]. split.
  - rewrite Hfound. split; [auto|]. intros [?|?]; [by destruct Heq|done].
  - intros Hm. by rewrite (Hmiss Hm).
Qed.

Lemma visit_field_hit db target value parent_path f :
  (visit_field db target value parent_path f).1 = true
    <-> target ∈ node_paths db parent_path f.
Proof. exact (proj1 (visit_field_spec db target value f parent_path)). Qed.

Lemma visit_field_quiet db target value parent_path f :
  quiet (visit_field db target value parent_path) f.
Proof. exact (proj2 (visit_field_spec db target value f parent_path)). Qed.

Lemma find_and_fill_field_found db fields target value parent_path :
  (find_and_fill_field db fields target value parent_path).1 = true
    <-> target ∈ named_paths db parent_path fields.
Proof.
  unfold find_and_fill_field, named_paths.
  rewrite first_hit_found, list_elem_of_bind, Exists_exists.
  split; intros (x & H1 & H2); exists x.
  - split; [exact (proj1 (visit_field_hit _ _ _ _ _) H2)|done].
  - split; [done|exact (proj2 (visit_field_hit _ _ _ _ _) H1)].
Qed.

Lemma find_and_fill_field_miss db fields target value parent_path :
  target ∉ named_paths db parent_path fields ->
  find_and_fill_field db fields target value parent_path = (false, fields).
Proof.
  intros Hnot.
  destruct (find_and_fill_field db fields target value parent_path) as [b fs'] eqn:E.
  assert (b = false) as ->.
  { destruct b; [|done]. exfalso. apply Hnot.
    apply (find_and_fill_field_found db fields target value). by rewrite E. }
  f_equal. change fs' with (false, fs').2. rewrite <- E.
  unfold find_and_fill_field. apply first_hit_miss.
  - apply Forall_forall. intros x _. apply visit_field_quiet.
  - unfold find_and_fill_field in E. by rewrite E.
Qed.

Lemma visit_field_target db value parent_path f field_name :
  decoded_name db f = Some field_name ->
  visit_field db (join_path parent_path field_name) value parent_path f
    = (true, set_value f value).
Proof.
  unfold decoded_name. destruct f as [t ft v as_ kids]. cbn [T].
  rewrite visit_field_eq. destruct (truthy t); [|done].
  destruct (decode_unicode_field_name db (default [] t)); [|done].
  intros [= ->]. cbv zeta. by rewrite bool_decide_eq_true_2.
Qed.

(** C4, as the code has it.  Of two siblings that decode to the same
    name, the writer never reaches the later one through their common
    path: the search returns at the first match, which is the earlier
    sibling unless a field before it already carries that path, and
    everything after the first match, the later duplicate included, is
    left as it was. *)
Theorem find_and_fill_field_first_match (db : unicode_db)
    (pre mid post : list field) (n1 n2 : field)
    (parent_path field_name value : pystr) :
  decoded_name db n1 = Some field_name ->
  decoded_name db n2 = Some field_name ->
  exists front,
    find_and_fill_field db (pre ++ n1 :: mid ++ n2 :: post)
      (join_path parent_path field_name) value parent_path
      = (true, front ++ mid ++ n2 :: post) /\
    length front = S (length pre) /\
    (join_path parent_path field_name ∉ named_paths db parent_path pre ->
     front = pre ++ [set_value n1 value]).
Proof.
  intros Hn1 _. unfold find_and_fill_field.
  pose proof (visit_field_target db value parent_path n1 field_name Hn1) as Hhit.
  destruct (first_hit_tail
              (visit_field db (join_path parent_path field_name) value parent_path)
              pre n1 (mid ++ n2 :: post)) as (front & Hfront & Hlen).
  { by rewrite Hhit. }
  exists front. split; [done|]. split; [done|].
  intros Hpre.
  rewrite first_hit_app in Hfront.
  - rewrite Hhit in Hfront. cbn [snd] in Hfront.
    injection Hfront as Hfront.
    change (pre ++ set_value n1 value :: mid ++ n2 :: post)
      with (pre ++ [set_value n1 value] ++ mid ++ n2 :: post) in Hfront.
    rewrite app_assoc in Hfront. by apply app_inv_tail in Hfront.
  - apply Forall_forall. intros x _. apply visit_field_quiet.
  - apply Forall_forall. intros x Hx.
    destruct (visit_field db (join_path parent_path field_name) value parent_path x).1
      eqn:E; [|done].
    exfalso. apply Hpre. unfold named_paths. apply list_elem_of_bind.
    exists x. split; [|done]. by apply visit_field_hit in E.
  - by rewrite Hhit.
Qed.

Lemma find_and_fill_field_first_match_pair :
  exists front,
    find_and_fill_field ascii_db ([] ++ dup_first :: [] ++ dup_second :: [])
      (join_path [] (lit "A")) (lit "new") []
      = (true, front ++ [] ++ dup_second :: []) /\
    length front = 1%nat /\
    (join_path [] (lit "A") ∉ named_paths ascii_db [] [] ->
     front = [] ++ [set_value dup_first (lit "new")]).
Proof.
  apply (find_and_fill_field_first_match ascii_db [] [] [] dup_first dup_second
           [] (lit "A") (lit "new")); vm_compute; reflexivity.
Defined.

(** C4, as stated, fails: with two top-level fields both named "A", a
    write to "A" changes the first and leaves the second. *)
Lemma later_duplicate_not_written :
  (forall db, decoded_name db dup_first = Some (lit "A") /\
              decoded_name db dup_second = Some (lit "A")) /\
  (forall db,
     find_and_fill_field db [dup_first; dup_second] (lit "A") (lit "new") []
       = (true,
          [Field (Some (lit "(A)")) (Some (lit "/Tx")) (Some (lit "new")) None [];
           dup_second])).
Proof. split; intros db; vm_compute; auto. Qed.

(** ** Name decoder *)

Lemma slice_range (lo n : nat) {A} (s : list A) :
  slice (Some (Z.of_nat lo)) (Some (Z.of_nat lo + Z.of_nat n)) s
    = take n (drop lo s).
Proof.
  unfold slice, clip, len; cbn [from_option].
  destruct (Z.ltb_spec (Z.of_nat lo) 0) as [?|_]; [lia|].
  destruct (Z.ltb_spec (Z.of_nat lo + Z.of_nat n) 0) as [?|_]; [lia|].
  destruct (decide (length s <= lo)%nat) as [Hge|Hlt].
  - rewrite (drop_ge s lo) by lia. rewrite take_nil.
    rewrite drop_ge by lia. by rewrite take_nil.
  - rewrite (Z.min_l (Z.of_nat lo)) by lia. rewrite Nat2Z.id.
    destruct (decide (lo + n <= length s)%nat) as [Hle|Hgt].
    + rewrite Z.min_l by lia. f_equal. lia.
    + rewrite Z.min_r by lia.
      rewrite !take_ge; [done| |]; rewrite length_drop; lia.
Qed.

Lemma wrap_startswith hex : startswith (lit "<FEFF") (wrap hex) = true.
Proof. unfold startswith, wrap. by apply bool_decide_eq_true_2. Qed.

Lemma wrap_endswith hex : endswith (lit ">") (wrap hex) = true.
Proof.
  unfold endswith, wrap. apply bool_decide_eq_true_2. split.
  - rewrite app_assoc, length_app. cbn [lit length list_ascii_of_string map].
    rewrite Nat.add_sub. rewrite drop_app_length. done.
  - rewrite !length_app. cbn. lia.
Qed.

Lemma wrap_payload hex : slice (Some 5) (Some (-1)) (wrap hex) = hex.
Proof.
  unfold slice, clip, len, wrap; cbn [from_option].
  rewrite !length_app.
  change (length (lit "<FEFF")) with 5%nat. change (length (lit ">")) with 1%nat.
  change (-1 <? 0) with true. change (5 <? 0) with false. cbv iota.
  rewrite Z.max_l by lia. rewrite Z.min_l by lia.
  change (Z.to_nat 5) with (length (lit "<FEFF")).
  rewrite drop_app_length.
  replace (Z.to_nat _) with (length hex) by (cbn; lia).
  by rewrite take_app_length.
Qed.

(** Every token that passes the first test of the decoder is a payload
    between "<FEFF" and ">". *)
Lemma wrapped_is_wrap (field_str : pystr) :
  startswith (lit "<FEFF") field_str && endswith (lit ">") field_str = true ->
  exists hex, field_str = wrap hex.
Proof.
  unfold startswith, endswith.
  rewrite andb_true_iff, !bool_decide_eq_true.
  change (length (lit "<FEFF")) with 5%nat. change (length (lit ">")) with 1%nat.
  intros [Hpre [Hsuf Hlen]].
  assert (5 < length field_str)%nat as Hlong.
  { destruct (decide (5 < length field_str)%nat) as [?|Hshort]; [done|].
    exfalso.
    assert (length (take 5 field_str) = 5%nat) as H5 by (by rewrite Hpre).
    rewrite length_take in H5.
    assert (length field_str = 5%nat) as Hl by lia.
    rewrite Hl in Hsuf. cbn in Hsuf.
    rewrite take_ge in Hpre by lia. rewrite Hpre in Hsuf. done. }
  exists (take (length field_str - 6) (drop 5 field_str)).
  unfold wrap. rewrite <- Hpre at 1. rewrite <- Hsuf at 1.
  replace (length field_str - 1)%nat with (5 + (length field_str - 6))%nat by lia.
  rewrite <- drop_drop. by rewrite !take_drop.
Qed.

Lemma range4_chunks db hex :
  map (fun i => chunk_char db (slice (Some i) (Some (i + 4)) hex))
      (range4 (len hex))
    = map (chunk_char db) (chunks4 hex).
Proof.
  unfold range4, chunks4. rewrite !map_map.
  apply map_ext. intros k. f_equal.
  change 4 with (Z.of_nat 4) at 1 2. rewrite <- Nat2Z.inj_mul.
  apply (slice_range (4 * k) 4).
Qed.

Lemma decode_loop_all_ok db hex range decoded :
  decode_loop db hex range decoded =
    (cs ← all_ok (map (fun i => chunk_char db (slice (Some i) (Some (i + 4)) hex))
                      range);
     Ok (decoded ++ cs)).
Proof.
  unfold chunk_char.
  revert decoded. induction range as [|i range IH]; intros decoded.
  - cbn. by rewrite app_nil_r.
  - cbn [decode_loop map all_ok].
    destruct (int db (slice (Some i) (Some (i + 4)) hex) 16) as [n|e]; [|done].
    cbn [mbind result_bind]. destruct (chr n) as [c|e]; [|done].
    cbn [mbind result_bind]. rewrite IH.
    destruct (all_ok _) as [cs|e]; [|done].
    cbn [mbind result_bind]. by rewrite <- app_assoc.
Qed.

Lemma all_ok_rejected {A} (rs : list (result A)) :
  Exists (fun r => exists e, r = Raise e) rs -> exists e, all_ok rs = Raise e.
Proof.
  induction rs as [|r rs IH]; intros Hex.
  - by apply Exists_nil in Hex.
  - cbn [all_ok]. destruct r as [a|e]; cbn [mbind result_bind]; [|by eexists].
    apply Exists_cons in Hex as [[e [=]]|Hex].
    destruct (IH Hex) as [e ->]. by eexists.
Qed.

Lemma all_ok_accepted {A} (rs : list (result A)) (xs : list A) :
  Forall2 (fun r x => r = Ok x) rs xs -> all_ok rs = Ok xs.
Proof.
  induction 1 as [|r x rs xs -> _ IH]; [done|]. cbn [all_ok]. by rewrite IH.
Qed.

Lemma decode_wrapped db hex :
  decode_unicode_field_name db (wrap hex) =
    match all_ok (map (chunk_char db) (chunks4 hex)) with
    | Ok decoded => Ok decoded
    | Raise _ => Ok (wrap hex)
    end.
Proof.
  unfold decode_unicode_field_name.
  rewrite wrap_startswith, wrap_endswith, wrap_payload. cbn [andb].
  rewrite decode_loop_all_ok, range4_chunks.
  by destruct (all_ok _).
Qed.

Lemma decoders_agree db field_str :
  Discovery.decode_unicode_field_name db field_str
    = decode_unicode_field_name db field_str.
Proof. reflexivity. Qed.

(** C8, as the code has it.  The decoder never raises, in either copy.
    On a token of the form <FEFF...> it returns the token unchanged
    exactly in the case that [int(group, 16)] or [chr] rejects one of
    the groups of the payload, and otherwise returns one character per
    group, which is never the token itself. *)
Theorem decode_unicode_field_name_total (db : unicode_db) :
  (forall field_str,
     (exists s, decode_unicode_field_name db field_str = Ok s) /\
     Discovery.decode_unicode_field_name db field_str
       = decode_unicode_field_name db field_str) /\
  (forall hex,
     (Exists (rejected db) (chunks4 hex) ->
      decode_unicode_field_name db (wrap hex) = Ok (wrap hex)) /\
     (forall decoded,
        Forall2 (accepted db) (chunks4 hex) decoded ->
        decode_unicode_field_name db (wrap hex) = Ok decoded /\
        decoded <> wrap hex)).
Proof.
  split.
  - intros field_str. split; [|apply decoders_agree].
    unfold decode_unicode_field_name.
    destruct (startswith (lit "<FEFF") field_str && endswith (lit ">") field_str).
    { destruct (decode_loop _ _ _ _); eauto. }
    destruct (startswith (lit "(") field_str && endswith (lit ")") field_str);
      eauto.
  - intros hex. rewrite decode_wrapped. split.
    + intros Hrej.
      destruct (all_ok_rejected (map (chunk_char db) (chunks4 hex))) as [e ->];
        [|done].
      apply Exists_fmap. exact Hrej.
    + intros decoded Hacc.
      rewrite (all_ok_accepted _ decoded).
      * split; [done|]. intros Heq.
        apply Forall2_length in Hacc. rewrite Heq in Hacc.
        unfold chunks4, wrap, len in Hacc.
        rewrite length_map, length_seq, !length_app in Hacc.
        change (length (lit "<FEFF")) with 5%nat in Hacc.
        change (length (lit ">")) with 1%nat in Hacc.
        assert ((Z.of_nat (length hex) + 3) / 4 <= Z.of_nat (length hex) + 3)
          by (apply Z.div_le_upper_bound; lia).
        lia.
      * apply Forall2_fmap_l. exact Hacc.
Qed.

Lemma decode_unicode_field_name_garbage :
  decode_unicode_field_name ascii_db (wrap (lit "00G1")) = Ok (wrap (lit "00G1")).
Proof.
  apply (proj1 (proj2 (decode_unicode_field_name_total ascii_db) (lit "00G1"))).
  change (chunks4 (lit "00G1")) with [lit "00G1"].
  apply Exists_cons_hd. exists ValueError. vm_compute. reflexivity.
Defined.

(** C8, as stated, fails: payloads that are not groups of four
    hexadecimal digits, and are decoded all the same instead of being
    returned unchanged. *)
Lemma decode_malformed_payload_decoded :
  spec_wellformed_hex (lit "+041") = false /\
  spec_wellformed_hex (lit " 041") = false /\
  spec_wellformed_hex (lit "4_1") = false /\
  spec_wellformed_hex (lit "41") = false /\
  (forall db,
     decode_unicode_field_name db (lit "<FEFF+041>") = Ok (lit "A") /\
     decode_unicode_field_name db (lit "<FEFF 041>") = Ok (lit "A") /\
     decode_unicode_field_name db (lit "<FEFF4_1>") = Ok (lit "A") /\
     decode_unicode_field_name db (lit "<FEFF41>") = Ok (lit "A")).
Proof.
  split_and!; try (vm_compute; reflexivity).
  intros db. split_and!; vm_compute; reflexivity.
Qed.

(** *** Well-formed payloads *)

Lemma hex_digit_cases (c : N) :
  is_hex_digit c = true ->
  c ∈ [48; 49; 50; 51; 52; 53; 54; 55; 56; 57;
       65; 66; 67; 68; 69; 70; 97; 98; 99; 100; 101; 102]%N.
Proof.
  unfold is_hex_digit, digit_value. rewrite !elem_of_cons.
  destruct ((48 <=? c)%N && (c <=? 57)%N) eqn:E1.
  { apply andb_true_iff in E1 as [?%N.leb_le ?%N.leb_le]. lia. }
  destruct ((97 <=? c)%N && (c <=? 122)%N) eqn:E2.
  { apply andb_true_iff in E2 as [?%N.leb_le ?%N.leb_le].
    intros ?%Z.ltb_lt. lia. }
  destruct ((65 <=? c)%N && (c <=? 90)%N) eqn:E3; [|done].
  apply andb_true_iff in E3 as [?%N.leb_le ?%N.leb_le].
  intros ?%Z.ltb_lt. lia.
Qed.

Lemma hex_digit_value (c : N) :
  is_hex_digit c = true ->
  exists d, digit_value c = Some d /\ 0 <= d < 16 /\ (c <? 127)%N = true /\
            is_c_space c = false /\ (c =? 95)%N = false /\
            (c =? 120)%N = false /\ (c =? 88)%N = false.
Proof.
  intros Hc%hex_digit_cases.
  repeat (apply elem_of_cons in Hc as [->|Hc]);
    try (by apply elem_of_nil in Hc);
    eexists; (split; [vm_compute; reflexivity|]); split_and!; try done; lia.
Qed.

Lemma scan_hex_digits (s : pystr) :
  forallb is_hex_digit s = true ->
  forall acc seen,
    seen = true \/ s <> [] ->
    scan_digits 16 false seen acc s
      = Some (fold_left (fun a c => a * 16 + default 0 (digit_value c)) s acc,
              []).
Proof.
  induction s as [|c r IH]; intros Hall acc seen Hseen.
  - destruct Hseen as [->|?]; done.
  - cbn [forallb] in Hall. apply andb_true_iff in Hall as [Hc Hr].
    destruct (hex_digit_value c Hc) as (d & Hd & Hrange & _ & _ & Hus & _).
    cbn [scan_digits fold_left]. rewrite Hus, Hd. cbn [default].
    destruct (Z.ltb_spec d 16) as [_|?]; [|lia].
    apply IH; auto.
Qed.

Lemma hex_value_bound (s : pystr) :
  forallb is_hex_digit s = true ->
  forall acc, 0 <= acc ->
    0 <= fold_left (fun a c => a * 16 + default 0 (digit_value c)) s acc
      < (acc + 1) * 16 ^ Z.of_nat (length s).
Proof.
  induction s as [|c r IH]; intros Hall acc Hacc.
  - cbn. lia.
  - cbn [forallb] in Hall. apply andb_true_iff in Hall as [Hc Hr].
    destruct (hex_digit_value c Hc) as (d & Hd & Hrange & _).
    cbn [fold_left length]. rewrite Hd. cbn [default].
    specialize (IH Hr (acc * 16 + d) ltac:(lia)).
    rewrite Nat2Z.inj_succ, Z.pow_succ_r by lia.
    destruct IH as [IH0 IH1]. split; [exact IH0|].
    eapply Z.lt_le_trans; [exact IH1|].
    assert (0 <= 16 ^ Z.of_nat (length r)) by (apply Z.pow_nonneg; lia).
    nia.
Qed.

(** [int(s, 16)] on a run of hexadecimal digits is the number they write. *)
Lemma int_hex_digits db (s : pystr) :
  forallb is_hex_digit s = true -> s <> [] ->
  int db s 16 = Ok (hex_value s).
Proof.
  intros Hall Hne.
  assert (map (to_ascii db) s = s) as Hmap.
  { clear Hne. induction s as [|c r IH]; [done|].
    cbn [forallb] in Hall. apply andb_true_iff in Hall as [Hc Hr].
    destruct (hex_digit_value c Hc) as (d & _ & _ & Hlt & _).
    cbn [map]. unfold to_ascii at 1. rewrite Hlt. by rewrite IH. }
  pose proof (scan_hex_digits s Hall 0 false (or_intror Hne)) as Hscan.
  unfold int. rewrite Hmap. fold (hex_value s) in Hscan.
  destruct s as [|a r]; [done|]. clear Hne Hmap.
  cbn [forallb] in Hall. apply andb_true_iff in Hall as [Ha Hr].
  assert (forall x r', r = x :: r' ->
            (x =? 120)%N = false /\ (x =? 88)%N = false) as Hx.
  { intros x r' ->. cbn [forallb] in Hr. apply andb_true_iff in Hr as [Hx _].
    destruct (hex_digit_value x Hx) as (d & _ & _ & _ & _ & _ & H1 & H2). done. }
  apply hex_digit_cases in Ha.
  repeat (apply elem_of_cons in Ha as [->|Ha]);
    try (by apply elem_of_nil in Ha);
    cbn [skip_spaces is_c_space N.eqb Pos.eqb N.leb N.compare Pos.compare
         Pos.compare_cont orb andb];
    try (destruct r as [|x r'];
         [|destruct (Hx x r' eq_refl) as [-> ->]; cbn [Z.eqb Pos.eqb andb orb]]);
    rewrite Hscan; cbn [skip_spaces]; by rewrite Z.mul_1_l.
Qed.

Lemma chunk_char_hex db (ch : pystr) :
  forallb is_hex_digit ch = true -> length ch = 4%nat ->
  chunk_char db ch = Ok (Z.to_N (hex_value ch)).
Proof.
  intros Hall Hlen. unfold chunk_char.
  rewrite int_hex_digits; [|done|by destruct ch].
  cbn [mbind result_bind]. unfold chr.
  destruct (hex_value_bound ch Hall 0 ltac:(lia)) as [H0 H1].
  fold (hex_value ch) in H0, H1. rewrite Hlen in H1.
  change ((0 + 1) * 16 ^ Z.of_nat 4) with 65536 in H1.
  destruct (Z.leb_spec 0 (hex_value ch)); [|lia].
  destruct (Z.ltb_spec (hex_value ch) 1114112); [done|lia].
Qed.

Lemma chunks4_wellformed (hex : pystr) :
  spec_wellformed_hex hex = true ->
  Forall (fun ch => forallb is_hex_digit ch = true /\ length ch = 4%nat)
         (chunks4 hex).
Proof.
  unfold spec_wellformed_hex, chunks4, len.
  intros [Hall Hmod%Z.eqb_eq]%andb_true_iff.
  apply Forall_forall. intros ch (k & -> & Hk)%list_elem_of_fmap.
  apply elem_of_seq in Hk.
  assert (Z.of_nat (length hex) = 4 * (Z.of_nat (length hex) / 4)) as Hq.
  { rewrite (Z.div_mod (Z.of_nat (length hex)) 4) at 1 by lia. lia. }
  assert ((Z.of_nat (length hex) + 3) / 4 = Z.of_nat (length hex) / 4) as Hc.
  { rewrite Hq at 1. rewrite Z.mul_comm.
    rewrite Z.div_add_l by lia. rewrite (Z.div_small 3 4) by lia. lia. }
  split.
  - assert (Forall (fun c => is_hex_digit c = true) hex) as HF.
    { apply Forall_forall. intros c Hin. rewrite forallb_forall in Hall.
      apply Hall. by apply list_elem_of_In. }
    apply (Forall_drop _ (4 * k)), (Forall_take _ 4) in HF.
    apply forallb_forall. intros c Hin. rewrite Forall_forall in HF.
    apply HF. by apply list_elem_of_In.
  - rewrite length_take, length_drop. lia.
Qed.

(** A payload of groups of four hexadecimal digits is decoded to the
    character of each group. *)
Lemma decode_wellformed db (hex : pystr) :
  spec_wellformed_hex hex = true ->
  decode_unicode_field_name db (wrap hex)
    = Ok (map (fun ch => Z.to_N (hex_value ch)) (chunks4 hex)).
Proof.
  intros Hwf. rewrite decode_wrapped.
  rewrite (all_ok_accepted _ (map (fun ch => Z.to_N (hex_value ch)) (chunks4 hex)));
    [done|].
  apply Forall2_fmap. apply Forall_Forall2_diag.
  eapply Forall_impl; [apply (chunks4_wellformed hex Hwf)|].
  intros ch [Hall Hlen]. by apply chunk_char_hex.
Qed.

Example decode_encoded_and_plain (db : unicode_db) :
  decode_unicode_field_name db (lit "<FEFF00460031>") = Ok (lit "F1") /\
  decode_unicode_field_name db (lit "(F1)") = Ok (lit "F1") /\
  decode_unicode_field_name db (lit "F1") = Ok (lit "F1").
Proof. split_and!; vm_compute; reflexivity. Qed.

(** ** Nameless nodes *)

Lemma visit_field_nameless db target value parent_path f :
  nameless f -> visit_field db target value parent_path f = (false, f).
Proof.
  unfold nameless. destruct f as [t ft v as_ kids]. cbn [T]. intros Ht.
  by rewrite visit_field_eq, Ht.
Qed.

Lemma first_hit_lookup {A} (body : A -> bool * A) xs i x :
  xs !! i = Some x ->
  (first_hit body xs).2 !! i = Some x \/
  (first_hit body xs).2 !! i = Some (body x).2.
Proof.
  revert i. induction xs as [|y r IH]; intros i Hi; [done|].
  rewrite first_hit_cons. destruct i as [|i]; cbn in Hi.
  - injection Hi as ->. destruct (body x).1; cbn; auto.
  - destruct (body y).1; cbn [snd]; [by left|]. apply (IH i Hi).
Qed.

Lemma visit_field_kids db target value parent_path f :
  Kids (visit_field db target value parent_path f).2 = Kids f \/
  exists full_path,
    Kids (visit_field db target value parent_path f).2
      = (find_and_fill_field db (Kids f) target value full_path).2.
Proof.
  destruct f as [t ft v as_ kids]. rewrite visit_field_eq.
  destruct (truthy t); [|by left].
  destruct (decode_unicode_field_name db (default [] t)) as [name|]; [|by left].
  cbv zeta. case_bool_decide.
  { left. unfold set_value. by case_bool_decide. }
  destruct (nonempty kids); [|by left].
  right. by eexists.
Qed.

(** A node without a name stays as it is, with everything below it,
    wherever it stands in the tree and whatever is written. *)
Lemma nameless_kept db target value pos :
  forall fs parent_path g,
    node_at pos fs = Some g -> nameless g ->
    node_at pos (find_and_fill_field db fs target value parent_path).2 = Some g.
Proof.
  induction pos as [|i pos IH]; intros fs pp g Hat Hg; [done|].
  cbn [node_at] in *. destruct (fs !! i) as [f|] eqn:Hi; [|done].
  unfold find_and_fill_field at 1.
  destruct (first_hit_lookup (visit_field db target value pp) fs i f Hi)
    as [-> | ->].
  { by destruct pos. }
  destruct pos as [|j pos].
  - injection Hat as ->. by rewrite visit_field_nameless.
  - destruct (visit_field_kids db target value pp f) as [-> | [full ->]];
      [done|]. by apply IH.
Qed.

(** A run without the dot that occurs in [a.b] occurs in [a] or in [b]. *)
Lemma py_in_nil_l (s : pystr) : py_in [] s = true.
Proof. by destruct s. Qed.

Lemma startswith_app_l (sub a b : pystr) :
  startswith sub a = true -> startswith sub (a ++ b) = true.
Proof.
  unfold startswith. rewrite !bool_decide_eq_true. intros H.
  rewrite <- H at 2. rewrite take_app_le; [done|].
  rewrite <- H. rewrite length_take. lia.
Qed.

Lemma py_in_app_l (sub a b : pystr) :
  py_in sub a = true -> py_in sub (a ++ b) = true.
Proof.
  induction a as [|x a IH].
  - cbn [py_in]. rewrite orb_false_r. intros H.
    unfold startswith in H. apply bool_decide_eq_true in H.
    rewrite take_nil in H. subst sub. apply py_in_nil_l.
  - cbn [py_in app]. rewrite !orb_true_iff. intros [H|H].
    + left. by apply (startswith_app_l sub (x :: a) b).
    + right. by apply IH.
Qed.

Lemma py_in_app_r (sub a b : pystr) :
  py_in sub b = true -> py_in sub (a ++ b) = true.
Proof.
  intros H. induction a as [|x a IH]; [done|].
  cbn [py_in app]. rewrite IH. apply orb_true_r.
Qed.

Lemma py_in_sep (sub a b : pystr) (c : N) :
  c ∉ sub ->
  py_in sub (a ++ c :: b) = true -> py_in sub a = true \/ py_in sub b = true.
Proof.
  intros Hc. induction a as [|x a IH]; cbn [app].
  - cbn [py_in]. rewrite orb_true_iff. intros [H|H]; [|by right].
    unfold startswith in H. apply bool_decide_eq_true in H.
    destruct sub as [|y sub]; [right; apply py_in_nil_l|].
    cbn in H. injection H as -> _. exfalso. apply Hc. by left.
  - change (py_in sub (x :: a ++ c :: b))
      with (startswith sub (x :: a ++ c :: b) || py_in sub (a ++ c :: b)).
    change (py_in sub (x :: a)) with (startswith sub (x :: a) || py_in sub a).
    rewrite !orb_true_iff. intros [H|H].
    + left. left. unfold startswith in *. rewrite bool_decide_eq_true in *.
      destruct (decide (length sub <= length (x :: a))%nat) as [Hle|Hgt].
      * rewrite <- H at 2. symmetry.
        apply (take_app_le (x :: a) (c :: b) (length sub) Hle).
      * exfalso. apply Hc. rewrite <- H.
        change (x :: a ++ c :: b) with ((x :: a) ++ c :: b).
        rewrite take_app_ge by lia.
        apply elem_of_app. right.
        destruct (length sub - length (x :: a))%nat eqn:E; [lia|].
        cbn. by left.
    + destruct (IH H) as [?|?]; auto.
Qed.

Lemma join_path_avoid (sub parent_path field_name : pystr) :
  46%N ∉ sub ->
  py_in sub parent_path = false -> py_in sub field_name = false ->
  py_in sub (join_path parent_path field_name) = false.
Proof.
  intros Hdot Hp Hn. unfold join_path.
  destruct (nonempty parent_path); [|done].
  destruct (py_in sub (parent_path ++ lit "." ++ field_name)) eqn:E; [|done].
  apply (py_in_sep sub parent_path field_name 46 Hdot) in E as [E|E]; congruence.
Qed.

Lemma node_paths_avoid db sub (f : field) :
  46%N ∉ sub ->
  forall parent_path,
    names_avoid db sub f = true -> py_in sub parent_path = false ->
    forall p, p ∈ node_paths db parent_path f -> py_in sub p = false.
Proof.
  intros Hdot. induction f as [t ft v as_ kids IH] using field_tree_ind.
  intros pp Hav Hpp p. cbn [names_avoid node_paths] in *.
  destruct (truthy t); [|by intros ?%elem_of_nil].
  destruct (decode_unicode_field_name db (default [] t)) as [name|];
    [|by intros ?%elem_of_nil].
  apply andb_true_iff in Hav as [Hname Hkids]. apply negb_true_iff in Hname.
  pose proof (join_path_avoid sub pp name Hdot Hpp Hname) as Hfull.
  cbv zeta. rewrite elem_of_cons, list_elem_of_bind.
  intros [->|(k & Hp & Hk)]; [done|].
  rewrite Forall_forall in IH. rewrite forallb_forall in Hkids.
  apply (IH k Hk (join_path pp name)); [|done|done].
  apply Hkids. by apply list_elem_of_In.
Qed.

Lemma decode_never_raises db field_str :
  exists s, Discovery.decode_unicode_field_name db field_str = Ok s.
Proof.
  unfold Discovery.decode_unicode_field_name.
  destruct (startswith (lit "<FEFF") field_str && endswith (lit ">") field_str).
  { destruct (Discovery.decode_loop _ _ _ _); eauto. }
  destruct (startswith (lit "(") field_str && endswith (lit ")") field_str);
    eauto.
Qed.

Lemma marker_in_join_l parent_name field_name :
  py_in unnamed_marker parent_name = true ->
  py_in unnamed_marker
    (if nonempty parent_name then parent_name ++ lit "." ++ field_name
     else field_name) = true.
Proof.
  intros H. destruct parent_name as [|c r]; [done|].
  cbn [nonempty]. by apply py_in_app_l.
Qed.

Lemma marker_in_join_r parent_name field_name :
  py_in unnamed_marker field_name = true ->
  py_in unnamed_marker
    (if nonempty parent_name then parent_name ++ lit "." ++ field_name
     else field_name) = true.
Proof.
  intros H. destruct (nonempty parent_name); [|done].
  apply py_in_app_r. by apply py_in_app_r.
Qed.

(** Discovery only ever appends, and what it appends for a node under a
    marked parent, or for a node without a name, is marked. *)
Lemma analyze_field_recursive_marked db (f : field) :
  forall fields_info level parent_name,
  exists new,
    Discovery.analyze_field_recursive db f fields_info level parent_name
      = fields_info ++ new /\
    (py_in unnamed_marker parent_name = true \/ nameless f ->
     Forall marked new).
Proof.
  induction f as [t ft v as_ kids IH] using field_tree_ind.
  intros infos lvl parent. cbn [Discovery.analyze_field_recursive].
  set (named := if truthy t
                then Discovery.decode_unicode_field_name db (default [] t)
                else Ok (lit "unnamed_field_"
                           ++ str_N (N.of_nat (length infos)))).
  assert (exists name, named = Ok name /\
            (truthy t = false -> py_in unnamed_marker name = true))
    as (name & -> & Hname).
  { subst named. destruct (truthy t).
    - destruct (decode_never_raises db (default [] t)) as [s ->].
      exists s. split; [done|]. intros [=].
    - eexists. split; [done|]. intros _.
      by apply (py_in_app_l unnamed_marker unnamed_marker). }
  cbn [mbind result_bind].
  set (full := if nonempty parent then parent ++ lit "." ++ name else name).
  set (info := Discovery.Build_field_info _ _ _ _ _ _ _).
  assert (forall acc,
    exists new,
      fold_left
        (fun infos child =>
           Discovery.analyze_field_recursive db child infos (lvl + 1) full)
        kids acc = acc ++ new /\
      (py_in unnamed_marker full = true -> Forall marked new)) as Hfold.
  { clear info. induction IH as [|k kids Hk _ IHkids]; intros acc.
    - exists []. cbn. by rewrite app_nil_r.
    - cbn [fold_left].
      destruct (Hk acc (lvl + 1) full) as (new1 & -> & H1).
      destruct (IHkids (acc ++ new1)) as (new2 & -> & H2).
      exists (new1 ++ new2). rewrite app_assoc. split; [done|].
      intros Hfull. apply Forall_app. auto. }
  destruct (Hfold (infos ++ [info])) as (new & -> & Hnew).
  exists (info :: new). rewrite <- app_assoc. split; [done|].
  intros Hmark.
  assert (py_in unnamed_marker full = true) as Hfull.
  { subst full. destruct Hmark as [Hp|Hn].
    - by apply marker_in_join_l.
    - apply marker_in_join_r. by apply Hname. }
  apply Forall_cons. split; [exact Hfull|by apply Hnew].
Qed.

(** C10, as the code has it.  The writer passes over a node without a
    name and goes on with its next sibling; such a node, with all that
    is below it, is the same after any write, wherever it stands.
    Discovery gives that node and every node below it a path that
    contains "unnamed_field_".  When no name the writer can reach
    contains "unnamed_field_", a write to any path that contains it
    reports not found and changes nothing. *)
Theorem nameless_never_written (db : unicode_db) :
  (forall f rest target value parent_path,
     nameless f ->
     find_and_fill_field db (f :: rest) target value parent_path
       = ((find_and_fill_field db rest target value parent_path).1,
          f :: (find_and_fill_field db rest target value parent_path).2)) /\
  (forall fs target value parent_path pos g,
     node_at pos fs = Some g -> nameless g ->
     node_at pos (find_and_fill_field db fs target value parent_path).2
       = Some g) /\
  (forall f fields_info level parent_name,
     nameless f ->
     exists new,
       Discovery.analyze_field_recursive db f fields_info level parent_name
         = fields_info ++ new /\
       Forall marked new) /\
  (forall fs target value,
     forallb (names_avoid db unnamed_marker) fs = true ->
     py_in unnamed_marker target = true ->
     find_and_fill_field db fs target value [] = (false, fs)).
Proof.
  split_and!.
  - intros f rest target value pp Hf. unfold find_and_fill_field.
    by rewrite first_hit_cons, visit_field_nameless.
  - intros fs target value pp pos g. apply nameless_kept.
  - intros f infos lvl parent Hf.
    destruct (analyze_field_recursive_marked db f infos lvl parent)
      as (new & Heq & Hnew).
    exists new. auto.
  - intros fs target value Hav Htarget.
    apply find_and_fill_field_miss. unfold named_paths.
    rewrite list_elem_of_bind. intros (f & Hin & Hf).
    rewrite forallb_forall in Hav.
    assert (py_in unnamed_marker target = false); [|congruence].
    apply (node_paths_avoid db unnamed_marker f) with (parent_path := []);
      [by_compute| |done|done].
    apply Hav. by apply list_elem_of_In.
Qed.

Lemma nameless_never_written_sample :
  find_and_fill_field ascii_db [nameless_parent; plain_root]
    (lit "unnamed_field_0.X") (lit "x") []
  = (false, [nameless_parent; plain_root]).
Proof.
  apply (proj2 (proj2 (proj2 (nameless_never_written ascii_db))));
    vm_compute; reflexivity.
Defined.

(** C10, as stated, fails: discovery lists a nameless top-level node as
    "unnamed_field_0", a path that ends at a node without a name; a
    field that is really called "unnamed_field_0" makes the write to
    that path succeed and change a value. *)
Lemma lookalike_name_written :
  nameless nameless_root /\
  (forall db,
     map Discovery.full_path
       <$> Discovery.discover_pdf_fields_enhanced db
             {| AcroForm :=
                  Some {| Fields := Some [nameless_root; lookalike_root] |} |}
     = Some [lit "unnamed_field_0"; lit "unnamed_field_0"]) /\
  (forall db,
     find_and_fill_field db [nameless_root; lookalike_root]
       (lit "unnamed_field_0") (lit "x") []
     = (true,
        [nameless_root;
         Field (Some (lit "(unnamed_field_0)")) (Some (lit "/Tx"))
           (Some (lit "x")) None []])).
Proof. split_and!; [done| |]; intros db; vm_compute; reflexivity. Qed.

(** ** Field mapper *)

Lemma split_date_value_eq db s : split_date db s = Ok (split_date_value db s).
Proof.
  unfold split_date_value.
  destruct (split_date_total db s) as [r ->]. done.
Qed.

(** Without [veteran_info] there is no map: the first line raises. *)
Lemma create_field_mapping_no_veteran db now be si :
  create_field_mapping db now
    {| veteran_info := None; benefit_election := be; signature_info := si |}
  = Raise KeyError.
Proof. reflexivity. Qed.

Lemma create_field_mapping_shape db now vi be si :
  create_field_mapping db now
    {| veteran_info := Some vi; benefit_election := be; signature_info := si |}
  = Ok (with_flags (get_flag (compensation (default no_election be)))
                   (get_flag (pension (default no_election be)))
                   (get_flag (survivors_pension_dic (default no_election be)))
                   (zip base_keys
                        (entry_values db now vi (default no_signature si)))).
Proof.
  unfold create_field_mapping, entry_values.
  cbn [veteran_info benefit_election signature_info mbind result_bind].
  rewrite !split_date_value_eq.
  destruct (handle_email_overflow _) as [e0 e1].
  destruct (if nonempty (get_str (ssn vi)) then _ else _) as [[s1 s2] s3].
  destruct (if nonempty (get_str (phone vi)) then _ else _) as [[p1 p2] p3].
  destruct (if nonempty (get_str (zip_code _)) then _ else _) as [z5 z4].
  destruct (nonempty (get_str (date_of_birth vi)));
    destruct (nonempty (get_str (date_signed _)));
    cbn [mbind result_bind];
    repeat match goal with
           | |- context [split_date_value ?d ?s] =>
               destruct (split_date_value d s) as [[? ?] ?]
           end;
    reflexivity.
Qed.

Lemma base_lookup c p s (vals : list pystr) i k :
  length vals = 27%nat -> base_keys !! i = Some k ->
  dict_get (with_flags c p s (zip base_keys vals)) k = vals !! i.
Proof.
  intros Hlen Hk.
  do 27 (destruct vals as [|? vals]; [done|]). destruct vals; [|done].
  clear Hlen.
  do 27 (destruct i as [|i];
         [injection Hk as <-; destruct c, p, s; vm_compute; reflexivity|]).
  done.
Qed.

Lemma flag_lookup c p s (vals : list pystr) :
  length vals = 27%nat ->
  let m := with_flags c p s (zip base_keys vals) in
  dict_get m COMPENSATION = (if c then Some (lit "/1") else None) /\
  dict_get m PENSION = (if p then Some (lit "/1") else None) /\
  dict_get m SURVIVORS = (if s then Some (lit "/1") else None) /\
  keys m = base_keys ++ flag_keys c p s.
Proof.
  intros Hlen.
  do 27 (destruct vals as [|? vals]; [done|]). destruct vals; [|done].
  destruct c, p, s; vm_compute; auto.
Qed.

Lemma entry_values_length db now vi si :
  length (entry_values db now vi si) = 27%nat.
Proof. reflexivity. Qed.

Lemma base_keys_not_election k :
  k ∈ base_keys -> k ∉ election_keys.
Proof.
  intros Hin Hel. revert Hin. unfold election_keys in Hel.
  rewrite !elem_of_cons in Hel.
  destruct Hel as [->|[->|[->|?%elem_of_nil]]]; [| | |done]; by_compute.
Qed.

Lemma with_flags_entries c p s (vals : list pystr) :
  length vals = 27%nat ->
  let m := with_flags c p s (zip base_keys vals) in
  entries_at m COMPENSATION = (if c then [(COMPENSATION, lit "/1")] else []) /\
  entries_at m PENSION = (if p then [(PENSION, lit "/1")] else []) /\
  entries_at m SURVIVORS = (if s then [(SURVIVORS, lit "/1")] else []).
Proof.
  intros Hlen.
  do 27 (destruct vals as [|? vals]; [done|]). destruct vals; [|done].
  destruct c, p, s; vm_compute; auto.
Qed.

(** C1. The election entries of the map are those of the flags that
    are true in the record: under the fixed path of a flag that is
    [true] the map has exactly one entry, with the selected token "/1";
    under the path of a flag that is [false], or absent, or of a record
    without [benefit_election], it has no entry at all. *)
Theorem election_flags_exact (db : unicode_db) (now : date)
    (vi : veteran_info_t) (be : option benefit_election_t)
    (si : option signature_info_t) :
  exists m,
    create_field_mapping db now
      {| veteran_info := Some vi; benefit_election := be;
         signature_info := si |} = Ok m /\
    flag_entry m COMPENSATION (be ≫= compensation) /\
    flag_entry m PENSION (be ≫= pension) /\
    flag_entry m SURVIVORS (be ≫= survivors_pension_dic).
Proof.
  rewrite create_field_mapping_shape. eexists. split; [done|].
  set (vals := entry_values _ _ _ _).
  destruct (with_flags_entries
              (get_flag (compensation (default no_election be)))
              (get_flag (pension (default no_election be)))
              (get_flag (survivors_pension_dic (default no_election be)))
              vals (entry_values_length _ _ _ _)) as (Hc & Hp & Hs).
  cbv zeta in *. unfold flag_entry.
  destruct be as [[c p s]|]; cbn [mbind option_bind compensation pension
    survivors_pension_dic default from_option id get_flag no_election] in *.
  - rewrite Hc, Hp, Hs.
    split_and!; [by destruct c as [[]|]|by destruct p as [[]|]
                |by destruct s as [[]|]].
  - rewrite Hc, Hp, Hs. done.
Qed.

Lemma election_flags_exact_sample :
  exists m,
    create_field_mapping ascii_db sample_day
      {| veteran_info := Some sample_veteran;
         benefit_election := Some sample_election;
         signature_info := None |} = Ok m /\
    entries_at m COMPENSATION = [(COMPENSATION, lit "/1")] /\
    entries_at m PENSION = [] /\
    entries_at m SURVIVORS = [].
Proof.
  exact (election_flags_exact ascii_db sample_day sample_veteran
           (Some sample_election) None).
Defined.

(** *** Decimal text of a number *)

Lemma lit_inj (s s' : string) : lit s = lit s' -> s = s'.
Proof.
  unfold lit. intros H.
  rewrite <- (string_of_list_ascii_of_string s),
    <- (string_of_list_ascii_of_string s').
  f_equal. revert H. generalize (list_ascii_of_string s').
  induction (list_ascii_of_string s) as [|a l IH]; intros [|a' l'] H;
    try done.
  cbn in H. injection H as Ha Hl. f_equal; [|by apply IH].
  by rewrite <- (ascii_N_embedding a), <- (ascii_N_embedding a'), Ha.
Qed.

Lemma str_N_inj (n n' : N) : str_N n = str_N n' -> n = n'.
Proof. unfold str_N. intros H%lit_inj. by apply (inj pretty). Qed.

Lemma pretty_N_go_head (x : N) (s : string) :
  (0 < x)%N ->
  exists c r, pretty_N_go x s = String c r /\ (49 <= N_of_ascii c <= 57)%N.
Proof.
  revert s. induction (N.lt_wf_0 x) as [x _ IH]; intros s Hx.
  rewrite pretty_N_go_step by done.
  destruct (decide (x `div` 10 = 0)%N) as [Hz|Hnz].
  - rewrite Hz, pretty_N_go_0. eexists _, _. split; [done|].
    apply N.div_small_iff in Hz; [|done].
    rewrite N.mod_small by done.
    assert (x = 1 \/ x = 2 \/ x = 3 \/ x = 4 \/ x = 5 \/ x = 6
            \/ x = 7 \/ x = 8 \/ x = 9)%N as Hc by lia.
    destruct Hc as [->|[->|[->|[->|[->|[->|[->|[->| ->]]]]]]]]; cbn; lia.
  - apply IH.
    + apply N.div_lt; lia.
    + apply N.neq_0_lt_0. exact Hnz.
Qed.

(** [str(n)] starts with a digit, and with a zero only when it is "0". *)
Lemma str_N_shape (n : N) :
  exists c r, str_N n = c :: r /\ (48 <= c <= 57)%N /\ (c = 48%N -> r = []).
Proof.
  unfold str_N, pretty, pretty_N. destruct (decide (n = 0)%N) as [->|Hn].
  - exists 48%N, []. split; [done|]. split; [lia|done].
  - destruct (pretty_N_go_head n "") as (c & r & -> & Hc); [lia|].
    eexists _, _. split; [reflexivity|]. split; [lia|]. lia.
Qed.

Lemma format_02d_eq (n : N) :
  exists c r, str_N n = c :: r /\ (48 <= c <= 57)%N /\ (c = 48%N -> r = []) /\
    format_02d n = match r with [] => [48%N; c] | _ :: _ => c :: r end.
Proof.
  destruct (str_N_shape n) as (c & r & Hs & Hc & H0).
  exists c, r. split; [done|]. split; [done|]. split; [done|].
  unfold format_02d. rewrite Hs. unfold zfill.
  assert (is_sign c = false) as ->.
  { unfold is_sign. apply orb_false_iff. split; apply N.eqb_neq; lia. }
  by destruct r as [|d [|e r]].
Qed.

Lemma format_02d_inj (n n' : N) : format_02d n = format_02d n' -> n = n'.
Proof.
  destruct (format_02d_eq n) as (c & r & Hs & Hc & H0 & ->).
  destruct (format_02d_eq n') as (c' & r' & Hs' & Hc' & H0' & ->).
  intros H. apply str_N_inj. rewrite Hs, Hs'.
  destruct r as [|d r], r' as [|d' r'].
  - by injection H as ->.
  - injection H as Hc0 _ _. by specialize (H0' (eq_sym Hc0)).
  - injection H as Hc0 _ _. by specialize (H0 Hc0).
  - done.
Qed.

Lemma format_02d_nonempty (n : N) : format_02d n <> [].
Proof.
  destruct (format_02d_eq n) as (c & r & _ & _ & _ & ->). by destruct r.
Qed.

Lemma str_N_nonempty (n : N) : str_N n <> [].
Proof. destruct (str_N_shape n) as (c & r & -> & _). done. Qed.

(** *** Absent fields *)

Lemma target_keys_date_signed :
  target_keys DateSigned = [SIG_MONTH; SIG_DAY; SIG_YEAR].
Proof. reflexivity. Qed.

Ltac entry_at i :=
  rewrite (base_lookup _ _ _ _ i) by reflexivity;
  lazy beta iota zeta delta [entry_values lookup list_lookup].

(** With [date_signed] absent the signature-date entries are today's. *)
Lemma signature_date_today db now vi be si :
  date_signed (default no_signature si) = None ->
  let m := with_flags
             (get_flag (compensation (default no_election be)))
             (get_flag (pension (default no_election be)))
             (get_flag (survivors_pension_dic (default no_election be)))
             (zip base_keys
                  (entry_values db now vi (default no_signature si))) in
  dict_get m SIG_MONTH = Some (format_02d (month now)) /\
  dict_get m SIG_DAY = Some (format_02d (day now)) /\
  dict_get m SIG_YEAR = Some (str_N (year now)).
Proof.
  intros Hds. cbv zeta. split_and!.
  - change SIG_MONTH with (lit "F[0].#subform[1].Date_Signed_Month[0]").
    entry_at 23%nat. by rewrite Hds.
  - change SIG_DAY with (lit "F[0].#subform[1].Date_Signed_Day[0]").
    entry_at 24%nat. by rewrite Hds.
  - change SIG_YEAR with (lit "F[0].#subform[1].Date_Signed_Year[0]").
    entry_at 25%nat. by rewrite Hds.
Qed.

(** C3, as the code has it.  For a valid record the map has, for every
    optional scalar other than [date_signed] that is absent, each of the
    scalar's target keys with the empty string; when [date_signed] is
    absent its three keys hold the current month and day, on two
    digits, and the current year, none of them empty. *)
Theorem absent_scalars_empty (db : unicode_db) (now : date)
    (data : input_record) :
  validate_json_input data = true ->
  exists m,
    create_field_mapping db now data = Ok m /\
    (forall f k,
       f <> DateSigned -> scalar_value data f = None -> k ∈ target_keys f ->
       dict_get m k = Some []) /\
    (scalar_value data DateSigned = None ->
       dict_get m SIG_MONTH = Some (format_02d (month now)) /\
       dict_get m SIG_DAY = Some (format_02d (day now)) /\
       dict_get m SIG_YEAR = Some (str_N (year now)) /\
       format_02d (month now) <> [] /\ format_02d (day now) <> [] /\
       str_N (year now) <> []).
Proof.
  destruct data as [[vi|] be si]; [|done]. intros _.
  rewrite create_field_mapping_shape. eexists. split; [done|]. split.
  - intros f k Hf Habs Hk.
    destruct vi as [fn mi ln dob sn ph em vafn svc ad].
    destruct f; try done; unfold target_keys in Hk;
      cbn [target_positions omap list_omap base_keys lookup list_lookup] in Hk;
      cbn [scalar_value veteran_info signature_info middle_initial ssn phone
             email va_file_number service_number address] in Habs;
      repeat (apply elem_of_cons in Hk as [->|Hk]);
      try (by apply elem_of_nil in Hk);
      try subst;
      try (destruct ad as [[st apt ct sta co zp]|];
           cbn [street apt_unit city state country zip_code] in Habs;
           try subst);
      try (destruct si as [[ds att]|];
           cbn [attorney_agent_vso_name] in Habs; try subst).
    all: first
      [ by entry_at 1%nat | by entry_at 3%nat | by entry_at 4%nat
      | by entry_at 5%nat | by entry_at 9%nat | by entry_at 10%nat
      | by entry_at 11%nat | by entry_at 12%nat | by entry_at 13%nat
      | by entry_at 14%nat | by entry_at 15%nat | by entry_at 16%nat
      | by entry_at 17%nat | by entry_at 18%nat | by entry_at 19%nat
      | by entry_at 20%nat | by entry_at 21%nat | by entry_at 22%nat
      | by entry_at 26%nat ].
  - intros Habs.
    assert (date_signed (default no_signature si) = None) as Hds.
    { destruct si as [[ds att]|]; [|done]. exact Habs. }
    destruct (signature_date_today db now vi be si Hds) as (Hm & Hd & Hy).
    split_and!; auto using format_02d_nonempty, str_N_nonempty.
Qed.

Lemma absent_scalars_empty_sample :
  exists m,
    create_field_mapping ascii_db sample_day sample_record = Ok m /\
    dict_get m (lit "F[0].Page_1[0].EMAIL_ADDRESS[1]") = Some [] /\
    dict_get m SIG_DAY = Some (lit "15").
Proof.
  destruct (absent_scalars_empty ascii_db sample_day sample_record eq_refl)
    as (m & Hm & Hempty & Hsig).
  exists m. split; [exact Hm|]. split.
  - apply (Hempty Email); [discriminate|reflexivity|by_compute].
  - destruct (Hsig eq_refl) as (_ & Hday & _). exact Hday.
Defined.

(** C3, as stated, fails for [date_signed]: a valid record without
    signature data, mapped on 15 January 2024, has the three
    signature-date keys at "01", "15" and "2024", not at the empty
    string. *)
Lemma absent_date_signed_not_empty :
  validate_json_input sample_record = true /\
  scalar_value sample_record DateSigned = None /\
  target_keys DateSigned = [SIG_MONTH; SIG_DAY; SIG_YEAR] /\
  (forall db,
     exists m,
       create_field_mapping db sample_day sample_record = Ok m /\
       dict_get m SIG_MONTH = Some (lit "01") /\
       dict_get m SIG_DAY = Some (lit "15") /\
       dict_get m SIG_YEAR = Some (lit "2024")).
Proof.
  split_and!; try reflexivity.
  intros db. unfold sample_record.
  rewrite create_field_mapping_shape. eexists. split; [reflexivity|].
  apply (signature_date_today db sample_day sample_veteran None None).
  reflexivity.
Qed.

(** C9. The map is not a function of the record alone.  With
    [date_signed] absent the three signature-date entries are the
    current month, day and year, so the same record mapped on two
    different days gives two different maps. *)
Theorem create_field_mapping_depends_on_today (db : unicode_db)
    (data : input_record) (vi : veteran_info_t) (today1 today2 : date) :
  veteran_info data = Some vi ->
  scalar_value data DateSigned = None ->
  today1 <> today2 ->
  exists m1 m2,
    create_field_mapping db today1 data = Ok m1 /\
    create_field_mapping db today2 data = Ok m2 /\
    dict_get m1 SIG_MONTH = Some (format_02d (month today1)) /\
    dict_get m1 SIG_DAY = Some (format_02d (day today1)) /\
    dict_get m1 SIG_YEAR = Some (str_N (year today1)) /\
    dict_get m2 SIG_MONTH = Some (format_02d (month today2)) /\
    dict_get m2 SIG_DAY = Some (format_02d (day today2)) /\
    dict_get m2 SIG_YEAR = Some (str_N (year today2)) /\
    m1 <> m2.
Proof.
  destruct data as [v be si]. cbn [veteran_info]. intros -> Habs Hne.
  assert (date_signed (default no_signature si) = None) as Hds.
  { destruct si as [[ds att]|]; [|done]. exact Habs. }
  pose proof (fun now => signature_date_today db now vi be si Hds) as Hsig.
  rewrite !create_field_mapping_shape.
  destruct (Hsig today1) as (Hm1 & Hd1 & Hy1).
  destruct (Hsig today2) as (Hm2 & Hd2 & Hy2).
  cbv zeta in *.
  eexists _, _. split; [reflexivity|]. split; [reflexivity|].
  split_and!; try assumption.
  intros Heq. apply Hne.
  rewrite Heq in Hm1, Hd1, Hy1.
  rewrite Hm2 in Hm1. rewrite Hd2 in Hd1. rewrite Hy2 in Hy1.
  injection Hm1 as Hm%format_02d_inj.
  injection Hd1 as Hd%format_02d_inj.
  injection Hy1 as Hy%str_N_inj.
  destruct today1, today2. cbn in *. by subst.
Qed.

Lemma create_field_mapping_next_day :
  exists m1 m2,
    create_field_mapping ascii_db sample_day sample_record = Ok m1 /\
    create_field_mapping ascii_db next_day sample_record = Ok m2 /\
    m1 <> m2.
Proof.
  destruct (create_field_mapping_depends_on_today ascii_db sample_record
              sample_veteran sample_day next_day eq_refl eq_refl)
    as (m1 & m2 & H1 & H2 & _ & _ & _ & _ & _ & _ & Hne).
  - discriminate.
  - exists m1, m2. auto.
Defined.

(** * Further properties *)

(** ** Value transformers: lengths and contents *)

Lemma slice_to_nat {A} (k : Z) (n : nat) (s : list A) :
  k = Z.of_nat n -> slice None (Some k) s = take n s.
Proof. intros ->. apply slice_to. Qed.

Lemma slice_mid {A} (lo hi : Z) (a n : nat) (s : list A) :
  lo = Z.of_nat a -> hi = Z.of_nat a + Z.of_nat n ->
  slice (Some lo) (Some hi) s = take n (drop a s).
Proof. intros -> ->. apply slice_range. Qed.

Lemma in_take {A} (x : A) n (l : list A) : x ∈ take n l -> x ∈ l.
Proof. intros H. rewrite <- (take_drop n l). apply elem_of_app. by left. Qed.

Lemma in_drop {A} (x : A) n (l : list A) : x ∈ drop n l -> x ∈ l.
Proof. intros H. rewrite <- (take_drop n l). apply elem_of_app. by right. Qed.

Lemma split_ssn_eq (ssn : pystr) :
  split_ssn ssn =
    let clean := remove_char 32 (remove_char 45 ssn) in
    (take 3 clean, take 2 (drop 3 clean), take 4 (drop 5 clean)).
Proof.
  unfold split_ssn. cbv zeta.
  rewrite (slice_to_nat 3 3), (slice_mid 3 5 3 2), (slice_mid 5 9 5 4) by done.
  by destruct (negb _).
Qed.

Lemma take_3_2_4 {A} (s : list A) :
  take 3 s ++ take 2 (drop 3 s) ++ take 4 (drop 5 s) = take 9 s.
Proof.
  replace (drop 5 s) with (drop 2 (drop 3 s)) by (by rewrite drop_drop).
  rewrite (take_take_drop (drop 3 s) 2 4). exact (take_take_drop s 3 6).
Qed.

(** X1. [split_ssn] cuts the input, dashes and spaces removed, at
    positions 3 and 5 and drops what follows position 9, whatever the
    characters are: the three parts put together are the first nine
    characters left, they contain no dash and no space, and when exactly
    nine characters are left the parts have 3, 2 and 4 characters and
    lose nothing. *)
Theorem split_ssn_parts (ssn : pystr) :
  let clean := remove_char 32 (remove_char 45 ssn) in
  let parts := split_ssn ssn in
  parts.1.1 ++ parts.1.2 ++ parts.2 = take 9 clean /\
  (45%N ∉ parts.1.1 ++ parts.1.2 ++ parts.2) /\
  (32%N ∉ parts.1.1 ++ parts.1.2 ++ parts.2) /\
  (length clean = 9%nat ->
   length parts.1.1 = 3%nat /\ length parts.1.2 = 2%nat /\
   length parts.2 = 4%nat /\ parts.1.1 ++ parts.1.2 ++ parts.2 = clean).
Proof.
  cbv zeta. rewrite split_ssn_eq. cbv zeta. cbn [fst snd].
  rewrite take_3_2_4.
  set (clean := remove_char 32 (remove_char 45 ssn)).
  assert ((45%N ∉ clean) /\ (32%N ∉ clean)) as [H45 H32].
  { subst clean. unfold remove_char. split.
    - intros [_ [? ?]%list_elem_of_filter]%list_elem_of_filter. done.
    - intros [? _]%list_elem_of_filter. done. }
  split_and!; [done| | |].
  - intros Hin. apply H45. eapply in_take. exact Hin.
  - intros Hin. apply H32. eapply in_take. exact Hin.
  - intros Hlen. rewrite !length_take, !length_drop, Hlen.
    split_and!; [done|done|done|]. apply take_ge. lia.
Qed.

Lemma split_ssn_dashed :
  let parts := split_ssn (lit "123-45-6789") in
  length parts.1.1 = 3%nat /\ length parts.1.2 = 2%nat /\
  length parts.2 = 4%nat /\
  parts.1.1 ++ parts.1.2 ++ parts.2 = lit "123456789".
Proof.
  apply (proj2 (proj2 (proj2 (split_ssn_parts (lit "123-45-6789"))))).
  reflexivity.
Defined.








(** What the [try] of [split_date] gives on an input of three parts. *)
Lemma split_date_try_parts db (s : pystr) sep m d y :
  (sep = 47%N /\ 47%N ∈ s) \/ (sep = 45%N /\ (47%N ∉ s) /\ 45%N ∈ s) ->
  split sep s = [m; d; y] ->
  split_date_try db s =
    (year ← (if len y =? 2
             then n ← int db y 10;
                  Ok (if n >? 50 then lit "19" ++ y else lit "20" ++ y)
             else Ok y);
     Ok (zfill 2 m, zfill 2 d, year)).
Proof.
  intros Hsep Hparts. unfold split_date_try.
  destruct Hsep as [[-> Hin]|(-> & Hnin & Hin)].
  - apply py_in_char in Hin. change [47%N] with (lit "/") in Hin.
    rewrite Hin, Hparts. reflexivity.
  - apply py_in_char_false in Hnin. apply py_in_char in Hin.
    change [47%N] with (lit "/") in Hnin. change [45%N] with (lit "-") in Hin.
    rewrite Hnin, Hin, Hparts. reflexivity.
Qed.

(** X4. A year that does not have exactly two characters is returned
    as it is, and nothing is checked: for month, day and year any texts
    without the separator ('/', or '-' in an input without '/'), month
    and day not a lone sign, [split_date] returns the month and the day
    padded with zeros to two characters and the year unchanged. *)
Theorem split_date_year_kept (db : unicode_db) (sep : N) (m d y : pystr) :
  sep = 47%N \/ (sep = 45%N /\ (47%N ∉ m) /\ (47%N ∉ d) /\ (47%N ∉ y)) ->
  sep ∉ m -> sep ∉ d -> sep ∉ y ->
  ~ lone_sign m -> ~ lone_sign d ->
  length y <> 2%nat ->
  split_date db (m ++ sep :: d ++ sep :: y) = Ok (lpad0 2 m, lpad0 2 d, y).
Proof.
  intros Hsep Hm Hd Hy Hsm Hsd Hlen.
  assert (split sep (m ++ sep :: d ++ sep :: y) = [m; d; y]) as Hsplit.
  { rewrite split_app by done. rewrite split_app by done.
    by rewrite split_free. }
  assert (sep ∈ m ++ sep :: d ++ sep :: y) as Hin.
  { rewrite elem_of_app, elem_of_cons. auto. }
  rewrite split_date_eq.
  rewrite (split_date_try_parts db _ sep m d y); [|
    destruct Hsep as [->|(-> & Hnm & Hnd & Hny)]; [by left|right] | done].
  - unfold len. destruct (Z.eqb_spec (Z.of_nat (length y)) 2) as [?|_]; [lia|].
    cbn [mbind result_bind]. by rewrite !zfill_lpad0.
  - split; [done|]. split; [|done].
    rewrite !elem_of_app, !elem_of_cons, !elem_of_app, !elem_of_cons.
    intros [?|[?|[?|[?|?]]]]; done.
Qed.

Lemma split_date_four_digit_year :
  split_date ascii_db (lit "1/2/1980") = Ok (lit "01", lit "02", lit "1980").
Proof.
  apply (split_date_year_kept ascii_db 47 (lit "1") (lit "2") (lit "1980"));
    first [by left | by_compute | done].
Defined.

(** ** Name decoder: the two written forms of a name *)

Lemma paren_startswith s : startswith (lit "(") (paren s) = true.
Proof. unfold startswith, paren. by apply bool_decide_eq_true_2. Qed.

Lemma paren_endswith s : endswith (lit ")") (paren s) = true.
Proof.
  unfold endswith, paren. apply bool_decide_eq_true_2. split.
  - rewrite app_assoc, length_app. cbn [lit length list_ascii_of_string map].
    rewrite Nat.add_sub. by rewrite drop_app_length.
  - rewrite !length_app. cbn. lia.
Qed.

Lemma paren_inner s : slice (Some 1) (Some (-1)) (paren s) = s.
Proof.
  unfold slice, clip, len, paren; cbn [from_option].
  rewrite !length_app.
  change (length (lit "(")) with 1%nat. change (length (lit ")")) with 1%nat.
  change (-1 <? 0) with true. change (1 <? 0) with false. cbv iota.
  rewrite Z.max_l by lia. rewrite Z.min_l by lia.
  change (Z.to_nat 1) with (length (lit "(")).
  rewrite drop_app_length.
  replace (Z.to_nat _) with (length s) by (cbn; lia).
  by rewrite take_app_length.
Qed.

Lemma decode_paren db (s : pystr) :
  decode_unicode_field_name db (paren s) = Ok s.
Proof.
  unfold decode_unicode_field_name.
  assert (startswith (lit "<FEFF") (paren s) = false) as ->.
  { unfold startswith, paren. by apply bool_decide_eq_false_2. }
  cbn [andb]. by rewrite paren_startswith, paren_endswith, paren_inner.
Qed.

(** X5. A name between parentheses is decoded by taking off exactly
    the outer pair, whatever is inside: nothing inside is decoded again,
    so inner parentheses and an inner <FEFF...> text come back as they
    are. *)
Theorem decode_parenthesised (db : unicode_db) (s : pystr) :
  decode_unicode_field_name db (paren s) = Ok s /\
  Discovery.decode_unicode_field_name db (paren s) = Ok s.
Proof.
  split; [apply decode_paren|]. rewrite decoders_agree. apply decode_paren.
Qed.

Lemma hex_digit_value_inv (d : N) :
  (d < 16)%N ->
  digit_value (hex_digit d) = Some (Z.of_N d) /\ is_hex_digit (hex_digit d) = true.
Proof.
  intros Hd.
  assert (d = 0 \/ d = 1 \/ d = 2 \/ d = 3 \/ d = 4 \/ d = 5 \/ d = 6 \/ d = 7
          \/ d = 8 \/ d = 9 \/ d = 10 \/ d = 11 \/ d = 12 \/ d = 13 \/ d = 14
          \/ d = 15)%N as Hc by lia.
  destruct Hc as [->|[->|[->|[->|[->|[->|[->|[->|[->|[->|[->|[->|[->|[->|[->| ->
    ]]]]]]]]]]]]]]]; by vm_compute.
Qed.

Lemma hex4_value (c : N) :
  (c < 65536)%N -> Z.to_N (hex_value (hex4 c)) = c.
Proof.
  intros Hc. unfold hex_value, hex4. cbn [fold_left].
  destruct (hex_digit_value_inv (c / 4096 mod 16)) as [-> _];
    [apply N.mod_lt; done|].
  destruct (hex_digit_value_inv (c / 256 mod 16)) as [-> _];
    [apply N.mod_lt; done|].
  destruct (hex_digit_value_inv (c / 16 mod 16)) as [-> _];
    [apply N.mod_lt; done|].
  destruct (hex_digit_value_inv (c mod 16)) as [-> _];
    [apply N.mod_lt; done|].
  cbn [default].
  pose proof (N.div_mod c 16 ltac:(done)) as H0.
  pose proof (N.div_mod (c / 16) 16 ltac:(done)) as H1.
  pose proof (N.div_mod (c / 256) 16 ltac:(done)) as H2.
  rewrite N.Div0.div_div in H1. rewrite N.Div0.div_div in H2.
  change (16 * 16)%N with 256%N in H1. change (256 * 16)%N with 4096%N in H2.
  assert (c / 4096 < 16)%N as H3 by (apply N.Div0.div_lt_upper_bound; lia).
  rewrite (N.mod_small (c / 4096) 16) by done.
  set (q3 := (c / 4096)%N) in *. set (q2 := (c / 256)%N) in *.
  set (q1 := (c / 16)%N) in *.
  set (r2 := (q2 mod 16)%N) in *. set (r1 := (q1 mod 16)%N) in *.
  set (r0 := (c mod 16)%N) in *.
  clearbody q1 q2 q3 r0 r1 r2. unfold id. lia.
Qed.

Lemma hex4_wellformed (c : N) :
  forallb is_hex_digit (hex4 c) = true /\ length (hex4 c) = 4%nat.
Proof.
  split; [|done]. unfold hex4. cbn [forallb].
  destruct (hex_digit_value_inv (c / 4096 mod 16)) as [_ ->];
    [apply N.mod_lt; done|].
  destruct (hex_digit_value_inv (c / 256 mod 16)) as [_ ->];
    [apply N.mod_lt; done|].
  destruct (hex_digit_value_inv (c / 16 mod 16)) as [_ ->];
    [apply N.mod_lt; done|].
  destruct (hex_digit_value_inv (c mod 16)) as [_ ->];
    [apply N.mod_lt; done|].
  done.
Qed.

Lemma chunks4_cons (ch rest : pystr) :
  length ch = 4%nat -> chunks4 (ch ++ rest) = ch :: chunks4 rest.
Proof.
  intros Hlen. unfold chunks4, len. rewrite length_app, Hlen.
  replace (Z.to_nat ((Z.of_nat (4 + length rest) + 3) / 4))
    with (S (Z.to_nat ((Z.of_nat (length rest) + 3) / 4))).
  2:{ replace (Z.of_nat (4 + length rest) + 3)
        with (1 * 4 + (Z.of_nat (length rest) + 3)) by lia.
      rewrite Z.div_add_l by lia.
      assert (0 <= (Z.of_nat (length rest) + 3) / 4)
        by (apply Z.div_pos; lia).
      lia. }
  cbn [seq map]. rewrite Nat.mul_0_r, drop_0.
  rewrite take_app_length' by done. f_equal.
  rewrite <- seq_shift, map_map. apply map_ext. intros k.
  replace (4 * S k)%nat with (length ch + 4 * k)%nat by lia.
  by rewrite drop_app_add.
Qed.

Lemma hex_encode_chunks (s : pystr) :
  chunks4 (hex_encode s) = map hex4 s /\
  spec_wellformed_hex (hex_encode s) = true.
Proof.
  unfold hex_encode. induction s as [|c s [IH1 IH2]].
  - split; reflexivity.
  - rewrite bind_cons. destruct (hex4_wellformed c) as [Hall Hlen]. split.
    + rewrite chunks4_cons by done. cbn [map]. by rewrite IH1.
    + unfold spec_wellformed_hex, len in *.
      apply andb_true_iff in IH2 as [IH2 IH3%Z.eqb_eq].
      rewrite forallb_app, Hall, IH2, length_app, Hlen. cbn [andb].
      apply Z.eqb_eq.
      replace (Z.of_nat (4 + length (s ≫= hex4)))
        with (Z.of_nat (length (s ≫= hex4)) + 1 * 4) by lia.
      by rewrite Z.mod_add.
Qed.

(** X6. Writing a name as a hexadecimal token and decoding it gives
    the name back, for every name made of 16-bit characters; so the
    encoded and the parenthesised form of one name decode to the same
    text. *)
Theorem decode_hex_encode (db : unicode_db) (s : pystr) :
  Forall (fun c => (c < 65536)%N) s ->
  decode_unicode_field_name db (wrap (hex_encode s)) = Ok s /\
  decode_unicode_field_name db (wrap (hex_encode s))
    = decode_unicode_field_name db (paren s).
Proof.
  intros Hs. destruct (hex_encode_chunks s) as [Hchunks Hwf].
  assert (decode_unicode_field_name db (wrap (hex_encode s)) = Ok s) as H.
  { rewrite decode_wellformed by done. rewrite Hchunks, map_map. f_equal.
    clear Hchunks Hwf. induction Hs as [|c s Hc _ IH]; [done|].
    cbn [map]. rewrite hex4_value by done. by rewrite IH. }
  split; [exact H|]. rewrite H. symmetry. apply decode_paren.
Qed.

Lemma decode_hex_encode_name :
  decode_unicode_field_name ascii_db (wrap (hex_encode (lit "F[0]")))
    = Ok (lit "F[0]").
Proof.
  apply (decode_hex_encode ascii_db (lit "F[0]")).
  repeat constructor.
Defined.

(** ** The writer as an update of a map from paths to fields *)

Lemma first_some_cons {A B} (g : A -> option B) x r :
  first_some g (x :: r) = match g x with Some y => Some y | None => first_some g r end.
Proof. reflexivity. Qed.

Lemma shallow_set_value f value :
  shallow (set_value f value) = set_value (shallow f) value.
Proof. unfold set_value, shallow. cbn [FT T V AS Kids]. by case_bool_decide. Qed.

Lemma set_value_twice f v w :
  set_value (set_value f v) w = set_value f w.
Proof.
  destruct f as [t ft v0 a kids]. unfold set_value. cbn [FT].
  destruct (bool_decide (ft = Some (PdfName (lit "Btn")))) eqn:E;
    cbn [T FT V AS Kids]; rewrite E; reflexivity.
Qed.

Lemma erase_set_value f value : erase (set_value f value) = erase f.
Proof. destruct f. unfold set_value. cbn [FT]. by case_bool_decide. Qed.

Lemma first_hit_write db t value pp (fs : list field) :
  Forall (turn_ok db t value pp) fs ->
  let fs' := (find_and_fill_field db fs t value pp).2 in
  ((find_and_fill_field db fs t value pp).1 = true
     <-> is_Some (read_field db fs t pp)) /\
  map erase fs' = map erase fs /\
  read_field db fs' t pp
    = (fun n => set_value n value) <$> read_field db fs t pp /\
  (forall t', t' <> t ->
     shallow <$> read_field db fs' t' pp = shallow <$> read_field db fs t' pp).
Proof.
  unfold find_and_fill_field, read_field. cbv zeta.
  induction 1 as [|k kids Hk _ IHkids].
  - cbn. split_and!; try done; try (split; [done|by intros [? ?]]).
  - destruct Hk as (H1 & H2 & H3 & H4).
    destruct IHkids as (I1 & I2 & I3 & I4).
    rewrite first_hit_cons.
    destruct (visit_field db t value pp k).1 eqn:Ehit.
    + cbn [fst snd map]. rewrite !first_some_cons.
      destruct (proj1 H1 eq_refl) as [n Hn].
      rewrite H3, Hn. cbn [fmap option_fmap option_map].
      split_and!.
      * split; [by eexists|done].
      * by rewrite H2.
      * done.
      * intros t' Hne. specialize (H4 t' Hne). rewrite !first_some_cons.
        destruct (read_node db t' pp (visit_field db t value pp k).2) as [a|],
          (read_node db t' pp k) as [b|]; try done.
    + assert (read_node db t pp k = None) as Hnone.
      { destruct (read_node db t pp k) eqn:E; [|done].
        assert (false = true); [|done]. apply H1. by eexists. }
      cbn [fst snd map]. rewrite !first_some_cons.
      rewrite H3, Hnone. cbn [fmap option_fmap option_map].
      split_and!.
      * exact I1.
      * by rewrite H2, I2.
      * exact I3.
      * intros t' Hne. specialize (H4 t' Hne). specialize (I4 t' Hne).
        rewrite !first_some_cons.
        destruct (read_node db t' pp (visit_field db t value pp k).2) as [a|],
          (read_node db t' pp k) as [b|]; try done.
Qed.

Lemma visit_field_write db t value (f : field) :
  forall pp, turn_ok db t value pp f.
Proof.
  induction f as [tk ft v as_ kids IH] using field_tree_ind. intros pp.
  unfold turn_ok. cbv zeta.
  rewrite visit_field_eq. cbn [read_node].
  destruct (truthy tk) eqn:Htk.
  2:{ cbn [fst snd read_node]. rewrite Htk. split_and!; try done;
        try (split; [done|by intros [? ?]]). }
  destruct (decode_unicode_field_name db (default [] tk)) as [name|e] eqn:Hdec.
  2:{ cbn [fst snd read_node]. rewrite Htk, Hdec. split_and!; try done;
        try (split; [done|by intros [? ?]]). }
  cbv zeta. set (full := join_path pp name).
  assert (forall w, read_node db w pp (set_value (Field tk ft v as_ kids) value)
            = if bool_decide (full = w)
              then Some (set_value (Field tk ft v as_ kids) value)
              else first_some (read_node db w full) kids) as Hset.
  { intros w. unfold set_value. cbn [FT T V AS Kids].
    case_bool_decide; cbn [read_node]; rewrite Htk, Hdec; reflexivity. }
  case_bool_decide as Heq.
  { cbn [fst snd]. split_and!.
    - split; [by eexists|done].
    - apply erase_set_value.
    - rewrite Hset. by rewrite bool_decide_eq_true_2.
    - intros t' Hne. rewrite Hset.
      rewrite !bool_decide_eq_false_2 by congruence. done. }
  destruct (first_hit_write db t value full kids) as (Hk1 & Hk2 & Hk3 & Hk4).
  { eapply Forall_impl; [exact IH|]. intros k Hk. apply Hk. }
  unfold read_field in *. cbv zeta in *.
  destruct kids as [|k0 kids0] eqn:Ekids; cbn [nonempty].
  { cbn [fst snd read_node]. rewrite Htk, Hdec. cbv zeta. fold full.
    rewrite !bool_decide_eq_false_2 by done. cbn.
    split_and!; try done; try (split; [done|by intros [? ?]]). }
  rewrite <- Ekids in *. cbn [fst snd]. cbn [read_node erase].
  rewrite Htk, Hdec. cbv zeta. fold full.
  rewrite bool_decide_eq_false_2 by done.
  split_and!.
  - exact Hk1.
  - by rewrite Hk2.
  - exact Hk3.
  - intros t' Hne. case_bool_decide; [done|]. by apply Hk4.
Qed.

Lemma find_and_fill_field_write db t value pp (fs : list field) :
  let fs' := (find_and_fill_field db fs t value pp).2 in
  ((find_and_fill_field db fs t value pp).1 = true
     <-> is_Some (read_field db fs t pp)) /\
  map erase fs' = map erase fs /\
  read_field db fs' t pp
    = (fun n => set_value n value) <$> read_field db fs t pp /\
  (forall t', t' <> t ->
     shallow <$> read_field db fs' t' pp = shallow <$> read_field db fs t' pp).
Proof.
  apply first_hit_write. apply Forall_forall. intros f _.
  apply visit_field_write.
Qed.

(** X7. A write changes values only: the fields, their names, their
    types and their kids are the same after [find_and_fill_field] as
    before, whether the target was found or not. *)
Theorem find_and_fill_field_keeps_shape (db : unicode_db) (fs : list field)
    (target value parent_path : pystr) :
  map erase (find_and_fill_field db fs target value parent_path).2
    = map erase fs.
Proof. apply (find_and_fill_field_write db target value parent_path fs). Qed.

(** X8. [find_and_fill_field] is the update of a map from paths to
    fields.  It returns [True] exactly when the path stands for a
    field; the field the path stands for afterwards is the one it stood
    for before with the value set; and for every other path the field
    it stands for has the same name, type, value and selection state
    as before. *)
Theorem find_and_fill_field_update (db : unicode_db) (fs : list field)
    (target value parent_path : pystr) :
  let fs' := (find_and_fill_field db fs target value parent_path).2 in
  ((find_and_fill_field db fs target value parent_path).1 = true
     <-> is_Some (read_field db fs target parent_path)) /\
  read_field db fs' target parent_path
    = (fun n => set_value n value) <$> read_field db fs target parent_path /\
  (forall other, other <> target ->
     shallow <$> read_field db fs' other parent_path
       = shallow <$> read_field db fs other parent_path).
Proof.
  destruct (find_and_fill_field_write db target value parent_path fs)
    as (H1 & _ & H3 & H4).
  cbv zeta. auto.
Qed.

(** ** The map and the form *)

Lemma last_write_absent (m : dict) k :
  k ∉ keys m -> last_write m k = None.
Proof.
  induction m as [|[k' v] m IH]; [done|].
  cbn [keys map fst last_write]. rewrite not_elem_of_cons. intros [Hne Hin].
  rewrite (IH Hin). by rewrite bool_decide_eq_false_2.
Qed.

Lemma last_write_get (m : dict) k :
  NoDup (keys m) ->
  last_write m k = v ← dict_get m k; if nonempty v then Some v else None.
Proof.
  induction m as [|[k' v] m IH]; [done|].
  cbn [keys map fst last_write dict_get]. rewrite NoDup_cons. intros [Hk' Hnd].
  case_bool_decide as Hk.
  - subst k'. rewrite (last_write_absent m k Hk'). cbn. by destruct v.
  - rewrite (IH Hnd). cbn [andb]. by destruct (dict_get m k ≫= _).
Qed.

Lemma dict_get_absent (m : dict) k : dict_get m k = None -> k ∉ keys m.
Proof.
  induction m as [|[k' v] m IH]; [intros _; apply not_elem_of_nil|].
  cbn [keys map fst dict_get]. case_bool_decide; [done|].
  intros H'. apply not_elem_of_cons. split; [congruence|by apply IH].
Qed.

(** X11. The e-mail address is stored whole: the two e-mail entries of
    the map, the one for [EMAIL_ADDRESS[1]] first, give the address
    back; that first part has at most 20 characters, and exactly 20
    when the address overflows into [EMAIL_ADDRESS[0]]. *)
Theorem create_field_mapping_email (db : unicode_db) (now : date)
    (vi : veteran_info_t) (be : option benefit_election_t)
    (si : option signature_info_t) :
  exists m email_0 email_1,
    create_field_mapping db now
      {| veteran_info := Some vi; benefit_election := be;
         signature_info := si |} = Ok m /\
    dict_get m EMAIL_0 = Some email_0 /\
    dict_get m EMAIL_1 = Some email_1 /\
    email_1 ++ email_0 = get_str (email vi) /\
    (length email_1 <= 20)%nat /\
    (email_0 <> [] -> length email_1 = 20%nat).
Proof.
  rewrite create_field_mapping_shape. eexists _, _, _. split; [done|].
  split; [|split].
  - change EMAIL_0 with (lit "F[0].Page_1[0].EMAIL_ADDRESS[0]").
    entry_at 9%nat. reflexivity.
  - change EMAIL_1 with (lit "F[0].Page_1[0].EMAIL_ADDRESS[1]").
    entry_at 10%nat. reflexivity.
  - unfold handle_email_overflow.
    destruct (get_str (email vi)) as [|c r] eqn:E; [cbn; split_and!; [done|lia|done]|].
    cbn [nonempty negb]. unfold len.
    destruct (Z.leb_spec (Z.of_nat (length (c :: r))) 20) as [Hle|Hgt].
    + cbn [fst snd]. rewrite app_nil_r. split_and!; [done|lia|done].
    + cbn [fst snd]. rewrite (slice_to 20), (slice_from 20) by lia.
      change (Z.to_nat 20) with 20%nat.
      rewrite take_drop, length_take. split_and!; [done|lia|lia].
Qed.

(** X12. With a non-empty [date_signed] in the record the map does not
    depend on the day on which it is built. *)
Theorem create_field_mapping_signed (db : unicode_db) (now now' : date)
    (data : input_record) (si : signature_info_t) (c : N) (r : pystr) :
  signature_info data = Some si -> date_signed si = Some (c :: r) ->
  create_field_mapping db now data = create_field_mapping db now' data.
Proof.
  intros Hsi Hds. destruct data as [[vi|] be si']; [|done].
  cbn in Hsi. subst si'. rewrite !create_field_mapping_shape.
  change (default no_signature (Some si)) with si.
  do 2 f_equal. unfold entry_values. rewrite Hds.
  reflexivity.
Qed.

Lemma create_field_mapping_signed_slash :
  create_field_mapping ascii_db sample_day
    {| veteran_info := Some sample_veteran; benefit_election := None;
       signature_info :=
         Some {| date_signed := Some (lit "03/04/2024");
                 attorney_agent_vso_name := None |} |}
  = create_field_mapping ascii_db next_day
    {| veteran_info := Some sample_veteran; benefit_election := None;
       signature_info :=
         Some {| date_signed := Some (lit "03/04/2024");
                 attorney_agent_vso_name := None |} |}.
Proof.
  apply (create_field_mapping_signed ascii_db sample_day next_day _
           {| date_signed := Some (lit "03/04/2024");
              attorney_agent_vso_name := None |} 48%N (lit "3/04/2024"));
    reflexivity.
Defined.

Lemma mapping_keys_NoDup c p s (vals : list pystr) :
  length vals = 27%nat ->
  NoDup (keys (with_flags c p s (zip base_keys vals))).
Proof.
  intros Hlen.
  destruct (flag_lookup c p s vals Hlen) as (_ & _ & _ & ->).
  destruct c, p, s; apply (bool_decide_unpack _); vm_compute; exact I.
Qed.

(** ** The listing of discovery *)

Lemma listed_app db off a b x y :
  listed db off a x -> listed db (off + length a) b y ->
  listed db off (a ++ b) (x ++ y).
Proof.
  revert off x. induction a as [|n a IH]; intros off [|i x]; cbn [listed length app];
    try done.
  - rewrite Nat.add_0_r. done.
  - intros [Hd Hl] Hb. split; [done|]. apply IH; [done|].
    by replace (S off + length a)%nat with (off + S (length a))%nat by lia.
Qed.

Lemma listed_length db off nodes new :
  listed db off nodes new -> length new = length nodes.
Proof.
  revert off new. induction nodes as [|n nodes IH]; intros off [|i new];
    cbn [listed length]; try done.
  intros [_ Hl]. f_equal. by apply (IH (S off)).
Qed.

Lemma listed_lookup db off nodes new i node :
  listed db off nodes new -> nodes !! i = Some node ->
  exists info, new !! i = Some info /\ describes db (off + i) node info.
Proof.
  revert off new i. induction nodes as [|n nodes IH]; intros off [|x new] i;
    cbn [listed]; try done.
  intros [Hd Hl] Hi. destruct i as [|i].
  - injection Hi as <-. exists x. by rewrite Nat.add_0_r.
  - destruct (IH (S off) new i Hl Hi) as (info & H1 & H2).
    exists info. split; [done|].
    by replace (off + S i)%nat with (S off + i)%nat by lia.
Qed.

(** The loop over a list of fields, each of which lists as it should. *)
Lemma analyze_fold_listing db (fs : list field) level parent_name :
  Forall (listing_ok db) fs ->
  forall fields_info,
  exists new,
    fold_left (fun infos child =>
                 Discovery.analyze_field_recursive db child infos level
                   parent_name) fs fields_info
      = fields_info ++ new /\
    listed db (length fields_info) (fs ≫= preorder) new /\
    fs ≫= node_paths db parent_name ⊆ map Discovery.full_path new /\
    (forallb all_named fs = true ->
     map Discovery.full_path new = fs ≫= node_paths db parent_name).
Proof.
  induction 1 as [|f fs Hf _ IH]; intros infos.
  { exists []. rewrite app_nil_r. cbn. split_and!; done. }
  cbn [fold_left].
  destruct (Hf infos level parent_name) as (new1 & -> & Hl1 & Hs1 & He1).
  destruct (IH (infos ++ new1)) as (new2 & -> & Hl2 & Hs2 & He2).
  exists (new1 ++ new2). rewrite app_assoc. split; [done|].
  rewrite !bind_cons, map_app. split_and!.
  - apply listed_app; [done|].
    rewrite <- (listed_length db _ _ _ Hl1), <- length_app. done.
  - intros p. rewrite !elem_of_app. intros [Hp|Hp]; [left; by apply Hs1|].
    right. by apply Hs2.
  - cbn [forallb]. intros [Ha Hb]%andb_true_iff. by rewrite He1, He2.
Qed.

Lemma analyze_field_recursive_listing db (f : field) : listing_ok db f.
Proof.
  induction f as [t ft v as_ kids IH] using field_tree_ind.
  intros infos lvl pn. cbn [Discovery.analyze_field_recursive].
  destruct (truthy t) eqn:Ht.
  - destruct (decode_never_raises db (default [] t)) as [name Hname].
    rewrite Hname. cbn [mbind result_bind].
    set (info := Discovery.Build_field_info _ _ _ _ _ _ _).
    change (if nonempty pn then pn ++ lit "." ++ name else name)
      with (join_path pn name) in *.
    destruct (analyze_fold_listing db kids (lvl + 1) (join_path pn name) IH
                (infos ++ [info])) as (new & -> & Hl & Hs & He).
    exists (info :: new). rewrite <- app_assoc. split; [done|].
    cbn [preorder node_paths map]. rewrite Ht.
    rewrite decoders_agree in Hname. rewrite Hname.
    change (Discovery.full_path info) with (join_path pn name).
    split_and!.
    + cbn [listed]. split.
      * unfold describes, decoded_name. cbn [T Kids]. rewrite Ht, Hname.
        split_and!; reflexivity.
      * rewrite length_app, Nat.add_1_r in Hl. exact Hl.
    + intros p. rewrite !elem_of_cons. intros [->|Hp]; [by left|].
      right. by apply Hs.
    + cbn [all_named]. rewrite Ht. cbn [andb]. intros Hk. by rewrite (He Hk).
  - cbn [mbind result_bind].
    set (name := lit "unnamed_field_" ++ _).
    set (info := Discovery.Build_field_info _ _ _ _ _ _ _).
    change (if nonempty pn then pn ++ lit "." ++ name else name)
      with (join_path pn name) in *.
    destruct (analyze_fold_listing db kids (lvl + 1) (join_path pn name) IH
                (infos ++ [info])) as (new & -> & Hl & _ & _).
    exists (info :: new). rewrite <- app_assoc. split; [done|].
    cbn [preorder node_paths]. rewrite Ht.
    split_and!.
    + cbn [listed]. split.
      * unfold describes, decoded_name. cbn [T Kids]. rewrite Ht.
        split_and!; reflexivity.
      * rewrite length_app, Nat.add_1_r in Hl. exact Hl.
    + intros p Hp. by apply elem_of_nil in Hp.
    + cbn [all_named]. rewrite Ht. done.
Qed.

Lemma discover_listing db pdf form fs :
  AcroForm pdf = Some form -> Fields form = Some fs ->
  exists infos,
    Discovery.discover_pdf_fields_enhanced db pdf = Some infos /\
    listed db 0 (fs ≫= preorder) infos /\
    named_paths db [] fs ⊆ map Discovery.full_path infos /\
    (forallb all_named fs = true ->
     map Discovery.full_path infos = named_paths db [] fs).
Proof.
  intros Hform Hfs. unfold Discovery.discover_pdf_fields_enhanced.
  rewrite Hform, Hfs.
  destruct (analyze_fold_listing db fs 0 []
              (proj2 (Forall_forall _ _)
                 (fun f _ => analyze_field_recursive_listing db f)) [])
    as (new & -> & Hl & Hs & He).
  exists new. done.
Qed.


(** ** The output file and [main] *)

Lemma isalnum_not_special alnum c :
  isalnum alnum c = true ->
  c <> 0%N /\ c <> 46%N /\ c <> 47%N /\ c <> 92%N.
Proof.
  unfold isalnum, is_ascii_alnum, is_ascii_digit.
  destruct (N.ltb_spec c 128) as [Hlt|Hge]; [|lia].
  rewrite !orb_true_iff, !andb_true_iff, !N.leb_le. lia.
Qed.

Lemma filter_isalnum_avoids alnum (s : pystr) c :
  c ∈ filter (fun c => isalnum alnum c = true) s ->
  c <> 0%N /\ c <> 46%N /\ c <> 47%N /\ c <> 92%N.
Proof.
  rewrite list_elem_of_filter. intros [H _].
  by apply (isalnum_not_special alnum).
Qed.

Lemma occurrences_app c (s t : pystr) :
  occurrences c (s ++ t) = (occurrences c s + occurrences c t)%nat.
Proof. unfold occurrences. by rewrite filter_app, length_app. Qed.

Lemma occurrences_none c (s : pystr) : c ∉ s -> occurrences c s = 0%nat.
Proof.
  unfold occurrences. induction s as [|x s IH]; [done|].
  rewrite not_elem_of_cons. intros [Hne Hin].
  rewrite filter_cons_False by congruence. by apply IH.
Qed.

(** The name of the output file without its fixed ends. *)
Lemma generate_output_filename_shape alnum data :
  exists clean,
    generate_output_filename alnum data
      = lit "VA_Form_21-0966_" ++ clean ++ lit ".pdf" /\
    Forall (fun c => isalnum alnum c = true) clean.
Proof.
  unfold generate_output_filename. eexists. rewrite (app_assoc (filter _ _)).
  split; [reflexivity|].
  apply Forall_app. split; apply Forall_forall; intros c Hc;
    by apply list_elem_of_filter in Hc as [Hc _].
Qed.

Lemma clean_avoids alnum (clean : pystr) c :
  Forall (fun c => isalnum alnum c = true) clean ->
  c = 0%N \/ c = 46%N \/ c = 47%N \/ c = 92%N -> c ∉ clean.
Proof.
  intros Hall Hc Hin. rewrite Forall_forall in Hall.
  pose proof (isalnum_not_special alnum c (Hall c Hin)). lia.
Qed.

(** X17. The name of the output file is "VA_Form_21-0966_", characters
    of the two names that [isalnum] accepts, and ".pdf": whatever the
    names in the record, it contains no slash, no backslash and no NUL,
    and its only dot is that of the extension. *)
Theorem generate_output_filename_plain (alnum : N -> bool)
    (data : input_record) :
  let name := generate_output_filename alnum data in
  startswith (lit "VA_Form_21-0966_") name = true /\
  endswith (lit ".pdf") name = true /\
  (47%N ∉ name) /\ (92%N ∉ name) /\ (0%N ∉ name) /\
  occurrences 46 name = 1%nat.
Proof.
  cbv zeta.
  destruct (generate_output_filename_shape alnum data) as (clean & -> & Hall).
  pose proof (clean_avoids alnum clean) as Hav. specialize (fun c => Hav c Hall).
  split_and!.
  - unfold startswith. apply bool_decide_eq_true.
    by rewrite take_app_length.
  - unfold endswith. apply bool_decide_eq_true.
    rewrite !length_app. split; [|lia].
    rewrite app_assoc.
    replace (length (lit "VA_Form_21-0966_") + (length clean + length (lit ".pdf"))
             - length (lit ".pdf"))%nat
      with (length (lit "VA_Form_21-0966_" ++ clean))
      by (rewrite length_app; lia).
    by rewrite drop_app_length.
  - rewrite !elem_of_app. intros [H|[H|H]]; [revert H; by_compute| |revert H; by_compute].
    revert H. apply Hav. lia.
  - rewrite !elem_of_app. intros [H|[H|H]]; [revert H; by_compute| |revert H; by_compute].
    revert H. apply Hav. lia.
  - rewrite !elem_of_app. intros [H|[H|H]]; [revert H; by_compute| |revert H; by_compute].
    revert H. apply Hav. lia.
  - rewrite !occurrences_app.
    rewrite (occurrences_none 46 clean) by (apply Hav; lia).
    reflexivity.
Qed.

(** * The functions with the console *)

(** ** What a console shows *)

Lemma shows_app out (s t : pystr) :
  shows out (s ++ t) = shows out s && shows out t.
Proof. unfold shows. apply forallb_app. Qed.

Lemma shows_ascii out (s : pystr) :
  forallb (fun c => (c <? 128)%N) s = true -> shows out s = true.
Proof.
  unfold shows, encodes. rewrite !forallb_forall. intros H c Hc.
  by rewrite (H c Hc).
Qed.

Lemma shows_lit_ascii out (s : string) :
  Forall (fun a => (N_of_ascii a < 128)%N) (list_ascii_of_string s) ->
  shows out (lit s) = true.
Proof.
  intros H. apply shows_ascii. unfold lit. rewrite forallb_forall.
  intros c [a [<- Ha]]%in_map_iff. apply N.ltb_lt.
  rewrite Forall_forall in H. apply H. by apply list_elem_of_In.
Qed.

Lemma pretty_N_char_ascii (x : N) : (N_of_ascii (pretty_N_char x) < 128)%N.
Proof. unfold pretty_N_char. repeat case_match; cbn; lia. Qed.

Lemma pretty_N_go_ascii (x : N) (s : string) :
  Forall (fun a => (N_of_ascii a < 128)%N) (list_ascii_of_string s) ->
  Forall (fun a => (N_of_ascii a < 128)%N)
    (list_ascii_of_string (pretty_N_go x s)).
Proof.
  revert s. induction (N.lt_wf_0 x) as [x _ IH]; intros s Hs.
  destruct (decide (x = 0)%N) as [->|Hx].
  - by rewrite pretty_N_go_0.
  - rewrite pretty_N_go_step by lia. apply IH.
    + apply N.div_lt; lia.
    + cbn [list_ascii_of_string]. constructor; [|done].
      apply pretty_N_char_ascii.
Qed.

Lemma shows_str_N out (n : N) : shows out (str_N n) = true.
Proof.
  unfold str_N. apply shows_lit_ascii. unfold pretty, pretty_N.
  case_decide.
  - repeat constructor.
  - apply pretty_N_go_ascii. constructor.
Qed.

Lemma shows_str_int out (n : Z) : shows out (str_int n) = true.
Proof.
  unfold str_int. destruct (n <? 0); [|apply shows_str_N].
  rewrite shows_app, shows_str_N. reflexivity.
Qed.

Lemma shows_str_exn out (e : exn) : shows out (str_exn e) = true.
Proof. by destruct e. Qed.

Lemma shows_replicate out n (c : N) :
  encodes out c = true -> shows out (replicate n c) = true.
Proof. intros Hc. unfold shows. induction n; [done|]. cbn. by rewrite Hc. Qed.

Lemma shows_symbol out (s : pystr) :
  has_symbols out -> forallb (fun c => bool_decide (c ∈ symbols)) s = true ->
  shows out s = true.
Proof.
  unfold has_symbols, shows. rewrite !forallb_forall. intros Hsym Hs c Hc.
  apply Hsym. apply list_elem_of_In.
  exact (bool_decide_unpack _ (Is_true_true_2 _ (Hs c Hc))).
Qed.

Lemma has_symbols_utf8 : has_symbols utf8.
Proof. reflexivity. Qed.

Lemma print_shown out (text : pystr) :
  shows out text = true -> print out text = Ok tt.
Proof. unfold print. by intros ->. Qed.

Lemma print_refused out (text : pystr) :
  shows out text = false -> print out text = Raise ValueError.
Proof. unfold print. by intros ->. Qed.

(** A line of the program: symbols, ASCII text, numbers, and texts the
    console is known to show. *)
Ltac line_ok :=
  rewrite ?shows_app, ?andb_true_iff;
  repeat match goal with |- _ /\ _ => split end;
  first [ assumption
        | reflexivity
        | apply shows_str_int
        | apply shows_str_N
        | apply shows_str_exn
        | (apply shows_symbol; [assumption|reflexivity]) ].

(** ** Value transformers *)

Lemma split_ssn_returns out (ssn : pystr) r :
  Printing.split_ssn out ssn = Ok r -> r = split_ssn ssn.
Proof.
  unfold Printing.split_ssn, split_ssn. cbv zeta.
  destruct (negb _); [|by intros [= <-]].
  destruct (print out _); cbn [mbind result_bind]; [by intros [= <-]|done].
Qed.

Lemma split_ssn_shown out (ssn : pystr) :
  has_symbols out -> Printing.split_ssn out ssn = Ok (split_ssn ssn).
Proof.
  intros Hsym. unfold Printing.split_ssn, split_ssn. cbv zeta.
  destruct (negb _); [|done].
  rewrite print_shown by line_ok. reflexivity.
Qed.

Lemma split_phone_returns out db (phone : pystr) r :
  Printing.split_phone out db phone = Ok r -> r = split_phone db phone.
Proof.
  unfold Printing.split_phone, split_phone. cbv zeta.
  destruct (negb _); cbn [mbind result_bind]; [|by intros [= <-]].
  destruct (print out _); cbn [mbind result_bind]; [by intros [= <-]|done].
Qed.

Lemma split_phone_shown out db (phone : pystr) :
  has_symbols out -> Printing.split_phone out db phone = Ok (split_phone db phone).
Proof.
  intros Hsym. unfold Printing.split_phone, split_phone. cbv zeta.
  destruct (negb _); [|done].
  rewrite print_shown by line_ok. reflexivity.
Qed.

Lemma split_zip_returns out db (zip_code : pystr) r :
  Printing.split_zip out db zip_code = Ok r -> r = split_zip db zip_code.
Proof.
  unfold Printing.split_zip, split_zip. cbv zeta.
  destruct (_ >=? 5); [by intros [= <-]|].
  destruct (print out _); cbn [mbind result_bind]; [by intros [= <-]|done].
Qed.

Lemma split_zip_shown out db (zip_code : pystr) :
  has_symbols out -> shows out zip_code = true ->
  Printing.split_zip out db zip_code = Ok (split_zip db zip_code).
Proof.
  intros Hsym Hz. unfold Printing.split_zip, split_zip. cbv zeta.
  destruct (_ >=? 5); [done|].
  rewrite print_shown by line_ok. reflexivity.
Qed.

(** ** [split_date] *)

Lemma shows_warning out (text s rest : pystr) :
  shows out text = true -> shows out rest = true ->
  shows out (WARNING_SIGN ++ text ++ s ++ rest) = shows out (WARNING_SIGN ++ s).
Proof.
  intros Ht Hr. rewrite !shows_app, Ht, Hr.
  by rewrite andb_true_r.
Qed.

Lemma print_warning out (text s rest : pystr) :
  shows out text = true -> shows out rest = true ->
  print out (WARNING_SIGN ++ text ++ s ++ rest)
  = if shows out (WARNING_SIGN ++ s) then Ok tt else Raise ValueError.
Proof. intros Ht Hr. unfold print. by rewrite shows_warning. Qed.

Lemma dated_parts (s : pystr) :
  dated s ->
  exists sep m d y,
    ((sep = 47%N /\ 47%N ∈ s) \/ (sep = 45%N /\ (47%N ∉ s) /\ 45%N ∈ s)) /\
    split sep s = [m; d; y].
Proof.
  unfold dated, three_part.
  assert (forall sep, occurrences sep s = 2%nat ->
            sep ∈ s /\ exists m d y, split sep s = [m; d; y]) as Hthree.
  { intros sep Hocc. split; [apply occurrences_pos; lia|].
    pose proof (length_split sep s) as Hlen. rewrite Hocc in Hlen.
    destruct (split sep s) as [|m [|d [|y [|? ?]]]]; try done. eauto. }
  intros [H47|[H0 H45]].
  - destruct (Hthree 47%N H47) as (Hin & m & d & y & Hs).
    exists 47%N, m, d, y. auto.
  - destruct (Hthree 45%N H45) as (Hin & m & d & y & Hs).
    exists 45%N, m, d, y. split; [|done]. right. split_and!; [done| |done].
    intros Hc%occurrences_pos. lia.
Qed.

Lemma parts_dated (s : pystr) sep m d y :
  (sep = 47%N /\ 47%N ∈ s) \/ (sep = 45%N /\ (47%N ∉ s) /\ 45%N ∈ s) ->
  split sep s = [m; d; y] -> dated s.
Proof.
  intros Hsep Hparts. pose proof (length_split sep s) as Hlen.
  rewrite Hparts in Hlen. cbn in Hlen. unfold dated, three_part.
  destruct Hsep as [[-> _]|(-> & Hno & _)]; [left; lia|right].
  split; [|lia].
  destruct (occurrences 47 s) eqn:E; [done|].
  exfalso. apply Hno. apply occurrences_pos. lia.
Qed.

(** On three parts the [try] of [split_date] prints nothing. *)
Lemma split_date_try_quiet out db (s : pystr) sep m d y :
  (sep = 47%N /\ 47%N ∈ s) \/ (sep = 45%N /\ (47%N ∉ s) /\ 45%N ∈ s) ->
  split sep s = [m; d; y] ->
  Printing.split_date_try out db s = split_date_try db s.
Proof.
  intros Hsep Hparts. unfold Printing.split_date_try, split_date_try.
  destruct Hsep as [[-> Hin]|(-> & Hnin & Hin)].
  - apply py_in_char in Hin. change [47%N] with (lit "/") in Hin.
    rewrite Hin, Hparts. reflexivity.
  - apply py_in_char_false in Hnin. apply py_in_char in Hin.
    change [47%N] with (lit "/") in Hnin. change [45%N] with (lit "-") in Hin.
    rewrite Hnin, Hin, Hparts. reflexivity.
Qed.

(** On anything else it prints a warning with the text. *)
Lemma split_date_try_warns out db (s : pystr) :
  ~ dated s ->
  Printing.split_date_try out db s
    = (if shows out (WARNING_SIGN ++ s) then Ok sentinel else Raise ValueError)
  /\ split_date_try db s = Ok sentinel.
Proof.
  unfold dated, three_part. intros Hnot.
  unfold Printing.split_date_try, split_date_try, len.
  rewrite !length_split.
  assert (forall text,
    shows out text = true ->
    (_ ← print out (WARNING_SIGN ++ text ++ s); Ok sentinel)
    = (if shows out (WARNING_SIGN ++ s) then Ok sentinel
       else Raise ValueError :> result (pystr * pystr * pystr))) as Hprint.
  { intros text Ht. rewrite <- (app_nil_r s) at 1.
    rewrite (print_warning out text s []) by done.
    by destruct (shows out (WARNING_SIGN ++ s)). }
  destruct (py_in (lit "/") s) eqn:E47.
  { destruct (Z.eqb_spec (Z.of_nat (S (occurrences 47 s))) 3) as [Heq|_].
    - exfalso. apply Hnot. left. lia.
    - split; [|done]. by apply Hprint. }
  apply (py_in_char_false 47 s) in E47.
  assert (occurrences 47 s = 0%nat) as H0.
  { destruct (occurrences 47 s) eqn:E; [done|].
    exfalso. apply E47. apply occurrences_pos. lia. }
  destruct (py_in (lit "-") s).
  { destruct (Z.eqb_spec (Z.of_nat (S (occurrences 45 s))) 3) as [Heq|_].
    - exfalso. apply Hnot. right. split; [done|lia].
    - split; [|done]. by apply Hprint. }
  split; [|done]. by apply Hprint.
Qed.

Lemma split_date_handler out (s : pystr) e :
  (_ ← print out (WARNING_SIGN ++ lit " Error parsing date " ++ s
                  ++ lit ": " ++ str_exn e);
   Ok sentinel)
  = (if shows out (WARNING_SIGN ++ s) then Ok sentinel
     else Raise ValueError :> result (pystr * pystr * pystr)).
Proof.
  rewrite (print_warning out _ s (lit ": " ++ str_exn e)); [|done|].
  - by destruct (shows out (WARNING_SIGN ++ s)).
  - rewrite shows_app, shows_str_exn. done.
Qed.

(** [split_date] with the console against [split_date] without: the
    same result, unless a warning that is due cannot be printed. *)
Lemma split_date_cases out db (s : pystr) :
  Printing.split_date out db s = split_date db s \/
  (split_date db s = Ok sentinel /\
   Printing.split_date out db s
     = if shows out (WARNING_SIGN ++ s) then Ok sentinel else Raise ValueError).
Proof.
  unfold Printing.split_date. rewrite split_date_eq.
  destruct (decide (dated s)) as [Hd|Hn].
  - destruct (dated_parts s Hd) as (sep & m & d & y & Hsep & Hparts).
    rewrite (split_date_try_quiet out db s sep m d y Hsep Hparts).
    destruct (split_date_try db s) as [r|e]; [by left|].
    right. split; [done|]. apply split_date_handler.
  - destruct (split_date_try_warns out db s Hn) as [-> ->].
    right. split; [done|].
    destruct (shows out (WARNING_SIGN ++ s)) eqn:E; [done|].
    rewrite split_date_handler. by rewrite E.
Qed.

Lemma split_date_returns out db (s : pystr) r :
  Printing.split_date out db s = Ok r -> split_date db s = Ok r.
Proof.
  destruct (split_date_cases out db s) as [->|[Hpure ->]]; [done|].
  destruct (shows out (WARNING_SIGN ++ s)); [|done].
  by intros [= <-].
Qed.

Lemma split_date_shown out db (s : pystr) :
  has_symbols out -> shows out s = true ->
  Printing.split_date out db s = split_date db s.
Proof.
  intros Hsym Hs.
  destruct (split_date_cases out db s) as [->|[-> ->]]; [done|].
  assert (shows out (WARNING_SIGN ++ s) = true) as -> by line_ok. done.
Qed.




(** ** The form after [fill_form] *)

Lemma for_each_cons {A S} (body : S -> A -> S * result unit) x rest st :
  for_each body (x :: rest) st
  = match body st x with
    | (st', Ok _) => for_each body rest st'
    | (st', Raise e) => (st', Raise e)
    end.
Proof. reflexivity. Qed.


Lemma read_field_named db fs t pp :
  is_Some (read_field db fs t pp) <-> t ∈ named_paths db pp fs.
Proof.
  rewrite <- (find_and_fill_field_found db fs t [] pp).
  symmetry. apply (find_and_fill_field_write db t [] pp fs).
Qed.

Lemma named_paths_write db fs t value pp k :
  k ∈ named_paths db pp (find_and_fill_field db fs t value pp).2
    <-> k ∈ named_paths db pp fs.
Proof.
  rewrite <- !read_field_named.
  destruct (find_and_fill_field_write db t value pp fs) as (_ & _ & H3 & H4).
  cbv zeta in *.
  destruct (decide (k = t)) as [->|Hne].
  - rewrite H3. by rewrite fmap_is_Some.
  - specialize (H4 k Hne).
    rewrite <- (fmap_is_Some shallow), H4, fmap_is_Some. done.
Qed.

Lemma apply_write_last k0 v0 rest k n :
  apply_write (last_write ((k0, v0) :: rest) k) n
  = apply_write (last_write rest k)
      (apply_write (if bool_decide (k0 = k) && nonempty v0 then Some v0
                    else None) n).
Proof.
  cbn [last_write]. destruct (last_write rest k) as [w|]; [|done].
  cbn [apply_write].
  destruct (bool_decide (k0 = k) && nonempty v0); [|done].
  cbn [apply_write]. by rewrite set_value_twice.
Qed.

Lemma attempted_cons item rest :
  attempted (item :: rest) = attempted [item] ++ attempted rest.
Proof.
  unfold attempted. change (item :: rest) with ([item] ++ rest).
  by rewrite filter_app.
Qed.

Lemma attempted_empty k : attempted [(k, @nil N)] = [].
Proof. reflexivity. Qed.

Lemma attempted_value k c v : attempted [(k, c :: v)] = [(k, c :: v)].
Proof. unfold attempted. by rewrite filter_cons_True. Qed.

Lemma keys_shown_cons out item rest :
  keys_shown out (item :: rest)
    <-> keys_shown out [item] /\ keys_shown out rest.
Proof. unfold keys_shown. rewrite attempted_cons. apply Forall_app. Qed.


Lemma hits_cons out db fs item rest :
  hits out db fs (item :: rest) = hits out db fs [item] ++ hits out db fs rest.
Proof. unfold hits. by rewrite (attempted_cons item rest), filter_app. Qed.

Lemma hits_paths out db fs fs' items :
  (forall p, p ∈ named_paths db [] fs' <-> p ∈ named_paths db [] fs) ->
  hits out db fs' items = hits out db fs items.
Proof.
  intros Hp. unfold hits. apply list_filter_iff. intros item.
  by rewrite (Hp item.1).
Qed.

Lemma hits_le out db fs items :
  (length (hits out db fs items) <= length (attempted items))%nat.
Proof. unfold hits. apply length_filter. Qed.

Lemma report_line_paths out db fs fs' item :
  (forall p, p ∈ named_paths db [] fs' <-> p ∈ named_paths db [] fs) ->
  report_line out db fs' item = report_line out db fs item.
Proof.
  intros Hp. unfold report_line.
  by rewrite (bool_decide_ext _ _ (Hp item.1)).
Qed.

(** A turn on an entry without a value. *)
Lemma fill_entry_empty out db st field_name :
  Printing.fill_entry out db st (field_name, []) = (st, Ok tt).
Proof. reflexivity. Qed.

(** A turn on a path that no field carries, with a key the console
    shows: the entry is reported as not found and nothing is touched. *)
Lemma fill_entry_miss out db st fs field_name field_value :
  has_symbols out -> shows out field_name = true ->
  field_value <> [] -> fields st = Some fs ->
  field_name ∉ named_paths db [] fs ->
  Printing.fill_entry out db st (field_name, field_value) =
    ({| fields := Some fs;
        filled_count := filled_count st;
        failed_count := failed_count st + 1;
        printed := printed st ++ [NotFound field_name] |}, Ok tt).
Proof.
  intros Hsym Hk Hv Hfs Hmiss. unfold Printing.fill_entry.
  destruct field_value as [|c v]; [done|]. cbn [nonempty]. rewrite Hfs.
  rewrite find_and_fill_field_miss by done.
  rewrite print_shown by line_ok. reflexivity.
Qed.

(** A turn on a path that a field carries: the write is made, and the
    entry is reported as filled when the console shows the value and
    as failed when it does not. *)
Lemma fill_entry_hit out db st fs field_name field_value :
  has_symbols out -> shows out field_name = true ->
  field_value <> [] -> fields st = Some fs ->
  field_name ∈ named_paths db [] fs ->
  Printing.fill_entry out db st (field_name, field_value) =
    ({| fields := Some (find_and_fill_field db fs field_name field_value []).2;
        filled_count :=
          filled_count st + (if shows out field_value then 1 else 0);
        failed_count :=
          failed_count st + (if shows out field_value then 0 else 1);
        printed :=
          printed st
          ++ [if shows out field_value then Filled field_name field_value
              else Failed field_name ValueError] |}, Ok tt).
Proof.
  intros Hsym Hk Hv Hfs Hhit. unfold Printing.fill_entry.
  destruct field_value as [|c v]; [done|]. cbn [nonempty]. rewrite Hfs.
  apply find_and_fill_field_found with (value := c :: v) in Hhit.
  destruct (find_and_fill_field db fs field_name (c :: v) []) as [b fs'].
  cbn [fst snd] in *. subst b.
  destruct (shows out (c :: v)) eqn:Hval.
  - rewrite print_shown by line_ok. rewrite !Z.add_0_r. reflexivity.
  - rewrite print_refused.
    2:{ rewrite !shows_app, Hval. by rewrite !andb_false_r. }
    rewrite print_shown by line_ok.
    cbn [fields filled_count failed_count printed]. rewrite !Z.add_0_r.
    reflexivity.
Qed.

(** A turn when the form has no field list. *)
Lemma fill_entry_no_fields out db st k c v :
  has_symbols out -> shows out k = true -> fields st = None ->
  Printing.fill_entry out db st (k, c :: v)
  = ({| fields := None;
        filled_count := filled_count st;
        failed_count := failed_count st + 1;
        printed := printed st ++ [Failed k TypeError] |}, Ok tt).
Proof.
  intros Hsym Hk Hst. unfold Printing.fill_entry. cbn [nonempty]. rewrite Hst.
  rewrite print_shown by line_ok. by rewrite Hst.
Qed.


(** One turn of the loop with a key that the console shows. *)
Lemma fill_entry_fields out db st fs k v :
  has_symbols out -> keys_shown out [(k, v)] -> fields st = Some fs ->
  exists st' fs',
    Printing.fill_entry out db st (k, v) = (st', Ok tt) /\
    fields st' = Some fs' /\
    map erase fs' = map erase fs /\
    (forall p, p ∈ named_paths db [] fs' <-> p ∈ named_paths db [] fs) /\
    (forall p,
       shallow <$> read_field db fs' p []
       = apply_write (if bool_decide (k = p) && nonempty v then Some v
                      else None)
         <$> (shallow <$> read_field db fs p [])) /\
    filled_count st'
      = filled_count st + Z.of_nat (length (hits out db fs [(k, v)])) /\
    failed_count st'
      = failed_count st
        + Z.of_nat (length (attempted [(k, v)])
                    - length (hits out db fs [(k, v)])) /\
    printed st'
      = printed st ++ map (report_line out db fs) (attempted [(k, v)]).
Proof.
  intros Hsym Hkeys Hfs. unfold hits.
  destruct v as [|c v].
  { exists st, fs. rewrite attempted_empty, filter_nil. cbn [length map].
    split_and!; try done; try lia.
    - intros p. rewrite andb_false_r. by destruct (read_field db fs p []).
    - by rewrite app_nil_r. }
  assert (shows out k = true) as Hk.
  { unfold keys_shown in Hkeys. rewrite attempted_value in Hkeys.
    exact (proj1 (Forall_singleton _ _) Hkeys). }
  rewrite attempted_value.
  destruct (find_and_fill_field_write db k (c :: v) [] fs) as (H1 & H2 & H3 & H4).
  cbv zeta in *.
  assert (forall p,
    shallow <$> read_field db (find_and_fill_field db fs k (c :: v) []).2 p []
    = apply_write (if bool_decide (k = p) && true then Some (c :: v) else None)
      <$> (shallow <$> read_field db fs p [])) as Hread.
  { intros p. rewrite andb_true_r. case_bool_decide as Hp.
    - subst p. rewrite H3. destruct (read_field db fs k []); [|done].
      cbn. by rewrite shallow_set_value.
    - rewrite (H4 p) by congruence. by destruct (read_field db fs p []). }
  pose proof (fun p => named_paths_write db fs k (c :: v) [] p) as Hpaths.
  unfold report_line. cbn [map fst snd].
  destruct (decide (k ∈ named_paths db [] fs)) as [Hin|Hnot].
  - rewrite (fill_entry_hit out db st fs k (c :: v)) by done.
    eexists _, _. split; [reflexivity|]. cbn [fields filled_count failed_count printed].
    rewrite bool_decide_eq_true_2 by done.
    destruct (shows out (c :: v)) eqn:Hval.
    + rewrite filter_cons_True by done. rewrite filter_nil. cbn [length].
      split_and!; try done; lia.
    + rewrite filter_cons_False by (cbn [snd]; intros [_ ?]; congruence).
      rewrite filter_nil. cbn [length].
      split_and!; try done; lia.
  - rewrite (fill_entry_miss out db st fs k (c :: v)) by done.
    eexists _, _. split; [reflexivity|]. cbn [fields filled_count failed_count printed].
    rewrite bool_decide_eq_false_2 by done.
    rewrite filter_cons_False by (intros [? _]; done). rewrite filter_nil.
    cbn [length].
    rewrite find_and_fill_field_miss in Hread, Hpaths, H2 by done.
    cbn [snd] in *.
    split_and!; try done; lia.
Qed.

(** The loop of [fill_form] over keys that the console shows. *)
Lemma fill_loop_fields out db items :
  has_symbols out -> keys_shown out items ->
  forall st fs,
    fields st = Some fs ->
    exists st' fs',
      for_each (Printing.fill_entry out db) items st = (st', Ok tt) /\
      fields st' = Some fs' /\
      map erase fs' = map erase fs /\
      (forall p,
         shallow <$> read_field db fs' p []
         = apply_write (last_write items p)
           <$> (shallow <$> read_field db fs p [])) /\
      filled_count st'
        = filled_count st + Z.of_nat (length (hits out db fs items)) /\
      failed_count st'
        = failed_count st
          + Z.of_nat (length (attempted items)
                      - length (hits out db fs items)) /\
      printed st'
        = printed st ++ map (report_line out db fs) (attempted items).
Proof.
  intros Hsym.
  induction items as [|[k v] rest IH]; intros Hkeys st fs Hfs.
  - exists st, fs. cbn. split_and!; try done; try lia.
    + intros p. by destruct (read_field db fs p []).
    + by rewrite app_nil_r.
  - apply keys_shown_cons in Hkeys as [Hk Hrest].
    destruct (fill_entry_fields out db st fs k v Hsym Hk Hfs)
      as (st1 & fs1 & Hrun1 & Hf1 & He1 & Hp1 & Hr1 & Hc1 & Hd1 & Ho1).
    destruct (IH Hrest st1 fs1 Hf1)
      as (st' & fs' & Hrun' & Hf' & He' & Hr' & Hc' & Hd' & Ho').
    exists st', fs'. rewrite for_each_cons, Hrun1.
    rewrite (hits_paths out db fs fs1 rest Hp1) in Hc', Hd'.
    pose proof (hits_le out db fs [(k, v)]).
    pose proof (hits_le out db fs rest).
    rewrite (hits_cons _ _ _ (k, v) rest), (attempted_cons (k, v) rest),
      !length_app.
    split_and!; [done|done|by rewrite He', He1| |lia|lia|].
    + intros p. rewrite Hr', Hr1.
      destruct (read_field db fs p []) as [n|]; [|done].
      cbn [fmap option_fmap option_map]. f_equal.
      symmetry. apply apply_write_last.
    + rewrite Ho', Ho1, map_app, <- app_assoc. do 2 f_equal.
      apply map_ext. intros item. by apply report_line_paths.
Qed.

(** The loop when the form has no field list. *)
Lemma fill_loop_no_fields out db items :
  has_symbols out -> keys_shown out items ->
  forall st,
    fields st = None ->
    exists st',
      for_each (Printing.fill_entry out db) items st = (st', Ok tt) /\
      fields st' = None /\
      filled_count st' = filled_count st /\
      failed_count st'
        = failed_count st + Z.of_nat (length (attempted items)) /\
      printed st'
        = printed st
          ++ map (fun item => Failed item.1 TypeError) (attempted items).
Proof.
  intros Hsym.
  induction items as [|[k v] rest IH]; intros Hkeys st Hst.
  - exists st. cbn. rewrite app_nil_r. split_and!; try done; lia.
  - apply keys_shown_cons in Hkeys as [Hk Hrest].
    rewrite for_each_cons, (attempted_cons (k, v) rest), length_app, map_app.
    destruct v as [|c v].
    + rewrite fill_entry_empty, attempted_empty.
      destruct (IH Hrest st Hst) as (st' & Hrun & H1 & H2 & H3 & H4).
      exists st'. cbn [length map app]. split_and!; try done.
    + unfold keys_shown in Hk. rewrite attempted_value in Hk.
      apply (proj1 (Forall_singleton _ _)) in Hk. cbn [fst] in Hk.
      rewrite (fill_entry_no_fields out db st k c v Hsym Hk Hst).
      rewrite attempted_value.
      set (st1 := Build_fill_state _ _ _ _).
      destruct (IH Hrest st1 eq_refl) as (st' & Hrun & H1 & H2 & H3 & H4).
      exists st'. rewrite H2, H3, H4.
      cbn [filled_count failed_count printed length map fst st1].
      rewrite <- app_assoc. split_and!; try done; lia.
Qed.

(** The frame of [fill_form] around a loop that ends without an
    exception, on a console that has the symbols. *)
Lemma fill_form_frame out db rd form field_mapping st :
  has_symbols out -> AcroForm rd = Some form ->
  for_each (Printing.fill_entry out db) field_mapping (start (Fields form))
    = (st, Ok tt) ->
  Printing.fill_form out db (Some rd) field_mapping
  = (Ok true, Some {| AcroForm := Some {| Fields := fields st |} |}, Some st).
Proof.
  intros Hsym Hform Hloop. unfold Printing.fill_form.
  rewrite print_shown by line_ok. rewrite Hform, Hloop.
  cbn [mbind result_bind].
  rewrite !print_shown by line_ok. reflexivity.
Qed.


Lemma report_line_name out db fs item :
  outcome_name (report_line out db fs item) = item.1.
Proof.
  unfold report_line. case_bool_decide; [|done].
  by destruct (shows out item.2).
Qed.

(** The loop over keys that the console shows ends without an
    exception, whatever the form. *)
Lemma fill_loop_returns out db items st :
  has_symbols out -> keys_shown out items ->
  exists st',
    for_each (Printing.fill_entry out db) items st = (st', Ok tt) /\
    filled_count st' + failed_count st'
      = filled_count st + failed_count st
        + Z.of_nat (length (attempted items)) /\
    map outcome_name (printed st')
      = map outcome_name (printed st) ++ map fst (attempted items).
Proof.
  intros Hsym Hkeys. destruct (fields st) as [fs|] eqn:Hfs.
  - destruct (fill_loop_fields out db items Hsym Hkeys st fs Hfs)
      as (st' & fs' & Hrun & _ & _ & _ & Hc & Hd & Ho).
    exists st'. pose proof (hits_le out db fs items).
    split_and!; [done|lia|].
    rewrite Ho, map_app, map_map. f_equal.
    apply map_ext. intros item. apply report_line_name.
  - destruct (fill_loop_no_fields out db items Hsym Hkeys st Hfs)
      as (st' & Hrun & _ & Hc & Hd & Ho).
    exists st'. split_and!; [done|lia|].
    by rewrite Ho, map_app, map_map.
Qed.




Example fill_form_sample_run :
  Printing.fill_form utf8 ascii_db (Some sample_reader) sample_mapping
  = (Ok true,
     Some {| AcroForm := Some {| Fields := Some
       [Field (Some (lit "(A)")) (Some (lit "/Tx")) (Some (lit "x")) None [];
        dup_second] |} |},
     Some {| fields := Some
               [Field (Some (lit "(A)")) (Some (lit "/Tx")) (Some (lit "x"))
                  None [];
                dup_second];
             filled_count := 1; failed_count := 1;
             printed := [Filled (lit "A") (lit "x"); NotFound (lit "B")] |}).
Proof. vm_compute. reflexivity. Qed.


(** A value the console cannot show, on a path that is there: the
    field is written and the entry is counted as failed. *)
Example fill_form_value_refused :
  Printing.fill_form utf8 ascii_db (Some sample_reader)
    [ (lit "A", lone_surrogate) ]
  = (Ok true,
     Some {| AcroForm := Some {| Fields := Some
       [Field (Some (lit "(A)")) (Some (lit "/Tx")) (Some lone_surrogate)
          None [];
        dup_second] |} |},
     Some {| fields := Some
               [Field (Some (lit "(A)")) (Some (lit "/Tx"))
                  (Some lone_surrogate) None [];
                dup_second];
             filled_count := 0; failed_count := 1;
             printed := [Failed (lit "A") ValueError] |}).
Proof. vm_compute. reflexivity. Qed.

(** X9. After [fill_form], on a console that has the symbols and shows
    the keys, the field a path stands for has the name, type, value and
    selection state it had in the form given, with the value of the
    last non-empty entry for that path set on it when there is one,
    whether or not the console shows the values; nothing else about the
    fields has changed. *)
Theorem fill_form_writes (out : console) (db : unicode_db) (rd : reader)
    (form : acroform) (fs : list field) (field_mapping : dict) :
  has_symbols out -> keys_shown out field_mapping ->
  AcroForm rd = Some form -> Fields form = Some fs ->
  exists st fs',
    Printing.fill_form out db (Some rd) field_mapping
      = (Ok true, Some {| AcroForm := Some {| Fields := Some fs' |} |},
         Some st) /\
    map erase fs' = map erase fs /\
    forall path,
      shallow <$> read_field db fs' path []
      = apply_write (last_write field_mapping path)
        <$> (shallow <$> read_field db fs path []).
Proof.
  intros Hsym Hkeys Hform Hfs.
  destruct (fill_loop_fields out db field_mapping Hsym Hkeys
              (start (Some fs)) fs eq_refl)
    as (st & fs' & Hrun & Hf & He & Hr & _).
  exists st, fs'. rewrite <- Hfs in Hrun.
  rewrite (fill_form_frame out db rd form field_mapping st Hsym Hform Hrun).
  rewrite Hf. auto.
Qed.

(** X10. The report of [fill_form], on a console that has the symbols
    and shows the keys, is decided by the form given and by the
    console: in the order of the map, an entry with a value is reported
    as filled when its path stands for a field of the form as it was
    before the first write and the console shows its value, as failed
    when the path stands for a field and the console does not show the
    value, and as not found otherwise; the counter of filled entries is
    the number of the first kind and the counter of failed entries the
    number of the others. *)
Theorem fill_form_counts (out : console) (db : unicode_db) (rd : reader)
    (form : acroform) (fs : list field) (field_mapping : dict) :
  has_symbols out -> keys_shown out field_mapping ->
  AcroForm rd = Some form -> Fields form = Some fs ->
  exists st rd',
    Printing.fill_form out db (Some rd) field_mapping
      = (Ok true, Some rd', Some st) /\
    filled_count st = Z.of_nat (length (hits out db fs field_mapping)) /\
    failed_count st
      = Z.of_nat (length (attempted field_mapping)
                  - length (hits out db fs field_mapping)) /\
    printed st = map (report_line out db fs) (attempted field_mapping).
Proof.
  intros Hsym Hkeys Hform Hfs.
  destruct (fill_loop_fields out db field_mapping Hsym Hkeys
              (start (Some fs)) fs eq_refl)
    as (st & fs' & Hrun & _ & _ & _ & Hc & Hd & Ho).
  eexists st, _. rewrite <- Hfs in Hrun.
  rewrite (fill_form_frame out db rd form field_mapping st Hsym Hform Hrun).
  split; [reflexivity|]. split; [exact Hc|]. split; [exact Hd|exact Ho].
Qed.

(** X20. On a form that has no field list, with a console that has the
    symbols and shows the keys, [fill_form] still returns [True]: every
    entry with a value fails with the [TypeError] of the iteration and
    is counted as failed, none is counted as filled, and the document
    is as it was. *)
Theorem fill_form_no_field_list (out : console) (db : unicode_db)
    (rd : reader) (form : acroform) (field_mapping : dict) :
  has_symbols out -> keys_shown out field_mapping ->
  AcroForm rd = Some form -> Fields form = None ->
  exists st,
    Printing.fill_form out db (Some rd) field_mapping
      = (Ok true, Some {| AcroForm := Some {| Fields := None |} |}, Some st) /\
    filled_count st = 0 /\
    failed_count st = Z.of_nat (length (attempted field_mapping)) /\
    printed st
      = map (fun item => Failed item.1 TypeError) (attempted field_mapping).
Proof.
  intros Hsym Hkeys Hform Hfs.
  destruct (fill_loop_no_fields out db field_mapping Hsym Hkeys
              (start None) eq_refl) as (st & Hrun & H1 & H2 & H3 & H4).
  exists st. rewrite <- Hfs in Hrun.
  rewrite (fill_form_frame out db rd form field_mapping st Hsym Hform Hrun).
  rewrite H1, H2, H3, H4. done.
Qed.

Lemma fill_form_no_field_list_sample :
  exists st,
    Printing.fill_form utf8 ascii_db (Some bare_reader) sample_mapping
      = (Ok true, Some {| AcroForm := Some {| Fields := None |} |}, Some st) /\
    filled_count st = 0 /\
    failed_count st = Z.of_nat (length (attempted sample_mapping)) /\
    printed st
      = map (fun item => Failed item.1 TypeError) (attempted sample_mapping).
Proof.
  apply (fill_form_no_field_list utf8 ascii_db bare_reader
           {| Fields := None |} sample_mapping);
    first [reflexivity | by_compute].
Defined.

Lemma fill_form_writes_sample :
  exists st fs',
    Printing.fill_form utf8 ascii_db (Some sample_reader) sample_mapping
      = (Ok true, Some {| AcroForm := Some {| Fields := Some fs' |} |},
         Some st) /\
    map erase fs' = map erase [dup_first; dup_second] /\
    forall path,
      shallow <$> read_field ascii_db fs' path []
      = apply_write (last_write sample_mapping path)
        <$> (shallow <$> read_field ascii_db [dup_first; dup_second] path []).
Proof.
  apply (fill_form_writes utf8 ascii_db sample_reader
           {| Fields := Some [dup_first; dup_second] |}
           [dup_first; dup_second] sample_mapping);
    first [reflexivity | by_compute].
Defined.

Lemma fill_form_counts_sample :
  exists st rd',
    Printing.fill_form utf8 ascii_db (Some sample_reader)
      [ (lit "A", lone_surrogate); (lit "A", lit "x"); (lit "B", lit "y") ]
      = (Ok true, Some rd', Some st) /\
    filled_count st = 1 /\ failed_count st = 2 /\
    printed st
      = [ Failed (lit "A") ValueError; Filled (lit "A") (lit "x");
          NotFound (lit "B") ].
Proof.
  apply (fill_form_counts utf8 ascii_db sample_reader
           {| Fields := Some [dup_first; dup_second] |}
           [dup_first; dup_second]
           [ (lit "A", lone_surrogate); (lit "A", lit "x");
             (lit "B", lit "y") ]);
    first [reflexivity | by_compute].
Defined.

(** ** The map and the form, with the console *)

Lemma create_field_mapping_shown out db now data :
  has_symbols out -> texts_shown out data ->
  Printing.create_field_mapping out db now data
    = create_field_mapping db now data.
Proof.
  intros Hsym Htexts. destruct data as [[vi|] be si]; [|done].
  unfold texts_shown, printed_texts in Htexts. cbn [veteran_info signature_info] in Htexts.
  apply Forall_cons in Htexts as [Hdob Htexts].
  apply Forall_cons in Htexts as [Hsig Htexts].
  apply Forall_cons in Htexts as [Hzip _].
  unfold Printing.create_field_mapping, create_field_mapping.
  cbn [veteran_info benefit_election signature_info mbind result_bind].
  rewrite (split_ssn_shown out _ Hsym), (split_phone_shown out db _ Hsym).
  rewrite (split_date_shown out db _ Hsym Hdob).
  rewrite (split_date_shown out db _ Hsym Hsig).
  rewrite (split_zip_shown out db _ Hsym Hzip).
  destruct (handle_email_overflow _) as [e0 e1].
  destruct (nonempty (get_str (ssn vi)));
    destruct (nonempty (get_str (phone vi)));
    destruct (nonempty (get_str (zip_code _)));
    reflexivity.
Qed.

Lemma create_field_mapping_returns out db now data m :
  Printing.create_field_mapping out db now data = Ok m ->
  create_field_mapping db now data = Ok m.
Proof.
  destruct data as [[vi|] be si]; [|done].
  unfold Printing.create_field_mapping, create_field_mapping.
  cbn [veteran_info benefit_election signature_info mbind result_bind].
  destruct (handle_email_overflow _) as [e0 e1].
  assert (forall (b : bool) s,
            (exists e, (if b then Printing.split_ssn out s
                        else Ok ([], [], [])) = Raise e) \/
            (if b then Printing.split_ssn out s else Ok ([], [], []))
              = Ok (if b then split_ssn s else ([], [], []))) as Hssn.
  { intros [] s; [|by right].
    destruct (Printing.split_ssn out s) as [r|e] eqn:E; [|left; eauto].
    right. by rewrite (split_ssn_returns out s r E). }
  assert (forall (b : bool) s,
            (exists e, (if b then Printing.split_phone out db s
                        else Ok ([], [], [])) = Raise e) \/
            (if b then Printing.split_phone out db s else Ok ([], [], []))
              = Ok (if b then split_phone db s else ([], [], []))) as Hphone.
  { intros [] s; [|by right].
    destruct (Printing.split_phone out db s) as [r|e] eqn:E; [|left; eauto].
    right. by rewrite (split_phone_returns out db s r E). }
  assert (forall (b : bool) s (other : result (pystr * pystr * pystr)),
            (exists e, (if b then Printing.split_date out db s else other)
                       = Raise e) \/
            (if b then Printing.split_date out db s else other)
              = (if b then split_date db s else other)) as Hdate.
  { intros [] s other; [|by right].
    destruct (Printing.split_date out db s) as [r|e] eqn:E; [|left; eauto].
    right. by rewrite (split_date_returns out db s r E). }
  assert (forall (b : bool) s,
            (exists e, (if b then Printing.split_zip out db s
                        else Ok ([], [])) = Raise e) \/
            (if b then Printing.split_zip out db s else Ok ([], []))
              = Ok (if b then split_zip db s else ([], []))) as Hzip.
  { intros [] s; [|by right].
    destruct (Printing.split_zip out db s) as [r|e] eqn:E; [|left; eauto].
    right. by rewrite (split_zip_returns out db s r E). }
  destruct (Hssn (nonempty (get_str (ssn vi))) (get_str (ssn vi)))
    as [[e ->]| ->]; [done|].
  cbn [mbind result_bind].
  destruct (Hphone (nonempty (get_str (phone vi))) (get_str (phone vi)))
    as [[e ->]| ->];
    [by destruct (if nonempty (get_str (ssn vi)) then _ else _) as [[? ?] ?]|].
  cbn [mbind result_bind].
  destruct (if nonempty (get_str (ssn vi)) then _ else _) as [[s1 s2] s3].
  destruct (if nonempty (get_str (phone vi)) then _ else _) as [[p1 p2] p3].
  destruct (Hdate (nonempty (get_str (date_of_birth vi)))
              (get_str (date_of_birth vi)) (Ok ([], [], [])))
    as [[e ->]| ->]; [done|].
  destruct (if nonempty (get_str (date_of_birth vi)) then _ else _)
    as [[[d1 d2] d3]|e]; [|done].
  cbn [mbind result_bind].
  match goal with
  | |- context [if ?b then Printing.split_date out db ?s else ?other] =>
      destruct (Hdate b s other) as [[e ->]| ->]; [done|]
  end.
  match goal with
  | |- context [if ?b then split_date db ?s else ?other] =>
      destruct (if b then split_date db s else other) as [[[g1 g2] g3]|e];
        [|done]
  end.
  cbn [mbind result_bind].
  match goal with
  | |- context [if ?b then Printing.split_zip out db ?s else _] =>
      destruct (Hzip b s) as [[e ->]| ->]; [done|]
  end.
  cbn [mbind result_bind].
  match goal with
  | |- context [if ?b then split_zip db ?s else ?other] =>
      destruct (if b then split_zip db s else other) as [z5 z4]
  end.
  done.
Qed.

Lemma mapping_keys_ascii c p s :
  Forall (fun k => forallb (fun c => (c <? 128)%N) k = true)
    (base_keys ++ flag_keys c p s).
Proof. destruct c, p, s; by_compute. Qed.

Lemma mapping_keys_shown out c p s (vals : list pystr) :
  length vals = 27%nat ->
  keys_shown out (with_flags c p s (zip base_keys vals)).
Proof.
  intros Hlen. unfold keys_shown, attempted.
  apply Forall_forall. intros item [_ Hin]%list_elem_of_filter.
  apply shows_ascii.
  pose proof (mapping_keys_ascii c p s) as Hascii.
  rewrite Forall_forall in Hascii. apply Hascii.
  destruct (flag_lookup c p s vals Hlen) as (_ & _ & _ & <-).
  unfold keys. apply list_elem_of_fmap. by exists item.
Qed.

(** X13. The checkbox strategy, from the record to the form, on a
    console that has the symbols and shows the dates and the ZIP code
    of the record: after the map of the record is applied to a form,
    the field at the path of an election whose flag is [true] in the
    record has the value "/1" set on it, and the field at the path of
    an election whose flag is [false] or absent is as it was in the
    form given. *)
Theorem election_boxes_filled (out : console) (db : unicode_db) (now : date)
    (vi : veteran_info_t) (be : option benefit_election_t)
    (si : option signature_info_t) (rd : reader) (form : acroform)
    (fs : list field) :
  let data := {| veteran_info := Some vi; benefit_election := be;
                 signature_info := si |} in
  has_symbols out -> texts_shown out data ->
  AcroForm rd = Some form -> Fields form = Some fs ->
  exists m st fs',
    Printing.create_field_mapping out db now data = Ok m /\
    Printing.fill_form out db (Some rd) m
      = (Ok true, Some {| AcroForm := Some {| Fields := Some fs' |} |},
         Some st) /\
    box_after db fs fs' COMPENSATION (be ≫= compensation) /\
    box_after db fs fs' PENSION (be ≫= pension) /\
    box_after db fs fs' SURVIVORS (be ≫= survivors_pension_dic).
Proof.
  intros data Hsym Htexts Hform Hfs.
  rewrite (create_field_mapping_shown out db now data Hsym Htexts).
  unfold data. rewrite create_field_mapping_shape.
  set (cf := get_flag (compensation (default no_election be))).
  set (pf := get_flag (pension (default no_election be))).
  set (sf := get_flag (survivors_pension_dic (default no_election be))).
  set (vals := entry_values db now vi (default no_signature si)).
  set (m := with_flags cf pf sf (zip base_keys vals)).
  pose proof (mapping_keys_shown out cf pf sf vals
                (entry_values_length _ _ _ _)) as Hkeys.
  fold m in Hkeys.
  destruct (fill_loop_fields out db m Hsym Hkeys (start (Some fs)) fs eq_refl)
    as (st & fs' & Hrun & Hf & _ & Hr & _).
  exists m, st, fs'. rewrite <- Hfs in Hrun.
  rewrite (fill_form_frame out db rd form m st Hsym Hform Hrun), Hf.
  split; [done|]. split; [done|].
  assert (forall path (flag : bool),
            dict_get m path = (if flag then Some (lit "/1") else None) ->
            last_write m path = if flag then Some (lit "/1") else None)
    as Hlast.
  { intros path flag Hget.
    rewrite (last_write_get m path)
      by apply (mapping_keys_NoDup cf pf sf vals (entry_values_length _ _ _ _)).
    rewrite Hget. by destruct flag. }
  destruct (flag_lookup cf pf sf vals (entry_values_length _ _ _ _))
    as (Hc & Hp & Hs & _).
  cbv zeta in *. fold m in Hc, Hp, Hs.
  unfold box_after. rewrite !Hr.
  rewrite (Hlast _ _ Hc), (Hlast _ _ Hp), (Hlast _ _ Hs).
  subst cf pf sf.
  destruct be as [[c p s]|]; cbn [mbind option_bind compensation pension
    survivors_pension_dic default from_option id get_flag no_election].
  - split_and!; [by destruct c as [[]|]|by destruct p as [[]|]
                |by destruct s as [[]|]].
  - done.
Qed.

Lemma election_boxes_filled_sample :
  exists m st fs',
    Printing.create_field_mapping utf8 ascii_db sample_day
      {| veteran_info := Some sample_veteran;
         benefit_election := Some sample_election;
         signature_info := None |} = Ok m /\
    Printing.fill_form utf8 ascii_db (Some boxes_reader) m
      = (Ok true, Some {| AcroForm := Some {| Fields := Some fs' |} |},
         Some st) /\
    shallow <$> read_field ascii_db fs' COMPENSATION []
      = Some (Field (Some (lit "(COMPENSATION[0])")) (Some (lit "/Btn"))
                (Some (lit "/1")) (Some (lit "/1")) []) /\
    shallow <$> read_field ascii_db fs' PENSION []
      = Some (Field (Some (lit "(PENSION[0])")) (Some (lit "/Btn"))
                None (Some (lit "/Off")) []).
Proof.
  destruct (election_boxes_filled utf8 ascii_db sample_day sample_veteran
              (Some sample_election) None boxes_reader
              {| Fields := Some boxes_form |} boxes_form)
    as (m & st & fs' & Hm & Hrun & Hc & Hp & _);
    [reflexivity|by_compute|reflexivity|reflexivity|].
  exists m, st, fs'. split; [exact Hm|]. split; [exact Hrun|].
  unfold box_after in Hc, Hp. rewrite Hc, Hp.
  split; vm_compute; reflexivity.
Defined.

(** ** [main] *)

Lemma validate_json_input_veteran data :
  validate_json_input data = true -> exists vi, veteran_info data = Some vi.
Proof.
  unfold validate_json_input. destruct (veteran_info data); [eauto|done].
Qed.

Lemma validate_json_input_shown out data :
  has_symbols out ->
  Printing.validate_json_input out data = Ok (validate_json_input data).
Proof.
  intros Hsym. unfold Printing.validate_json_input, validate_json_input.
  destruct (veteran_info data) as [vi|];
    [|rewrite print_shown by line_ok; reflexivity].
  destruct (first_name vi); [|rewrite print_shown by line_ok; reflexivity].
  destruct (last_name vi); [|rewrite print_shown by line_ok; reflexivity].
  destruct (date_of_birth vi); rewrite print_shown by line_ok; reflexivity.
Qed.

Lemma validate_json_input_returns out data b :
  Printing.validate_json_input out data = Ok b -> b = validate_json_input data.
Proof.
  unfold Printing.validate_json_input, validate_json_input.
  destruct (veteran_info data) as [vi|];
    [|destruct (print out _); cbn; congruence].
  destruct (first_name vi); [|destruct (print out _); cbn; congruence].
  destruct (last_name vi); [|destruct (print out _); cbn; congruence].
  destruct (date_of_birth vi); destruct (print out _); cbn; congruence.
Qed.

(** The map of a record that has passed validation: it is there, and
    every console shows its keys. *)
Lemma create_field_mapping_valid db now data :
  validate_json_input data = true ->
  exists m,
    create_field_mapping db now data = Ok m /\
    forall out, keys_shown out m.
Proof.
  intros [vi Hvi]%validate_json_input_veteran.
  destruct data as [v be si]. cbn in Hvi. subst v.
  rewrite create_field_mapping_shape. eexists. split; [done|].
  intros out. apply mapping_keys_shown. apply entry_values_length.
Qed.

Lemma fill_form_no_acroform out db rd field_mapping :
  has_symbols out -> AcroForm rd = None ->
  Printing.fill_form out db (Some rd) field_mapping = (Ok false, Some rd, None).
Proof.
  intros Hsym Hform. unfold Printing.fill_form.
  rewrite print_shown by line_ok. rewrite Hform.
  rewrite print_shown by line_ok. reflexivity.
Qed.

Lemma fill_form_returns out db rd form field_mapping :
  has_symbols out -> keys_shown out field_mapping ->
  AcroForm rd = Some form ->
  exists st,
    Printing.fill_form out db (Some rd) field_mapping
    = (Ok true, Some {| AcroForm := Some {| Fields := fields st |} |}, Some st).
Proof.
  intros Hsym Hkeys Hform.
  destruct (fill_loop_returns out db field_mapping (start (Fields form))
              Hsym Hkeys) as (st & Hrun & _).
  exists st. by apply (fill_form_frame out db rd form).
Qed.

(** X18. On a console that has the symbols and shows the paths of the
    command line, with loaders that let no exception out and a record
    whose dates and ZIP code the console shows, no exception leaves
    [main] before the call of [save_filled_form]:
    [create_field_mapping] is only reached with a record that has
    passed [validate_json_input], so that its first line cannot raise,
    and the keys of its map are ASCII, so that [fill_form] runs to its
    end.  When [main] gets to saving, the record has passed validation
    and the path is "output/" followed by the generated file name. *)
Theorem main_no_exception (out : console) (db : unicode_db)
    (alnum : N -> bool) (now : date)
    (argv : list pystr) (path_exists : pystr -> bool)
    (load_json_input : pystr -> result (option input_record))
    (load_blank_form : pystr -> result (option reader)) :
  has_symbols out ->
  Forall (fun path => shows out path = true) argv ->
  (forall path, exists loaded,
     load_json_input path = Ok loaded /\
     forall data, loaded = Some data -> texts_shown out data) ->
  (forall path, exists loaded, load_blank_form path = Ok loaded) ->
  exists e,
    Printing.main out db alnum now argv path_exists load_json_input
      load_blank_form = Ok e /\
    forall output_path doc,
      e = Printing.Save output_path doc ->
      exists blank_pdf_path json_input_path data,
        argv !! 1%nat = Some blank_pdf_path /\
        argv !! 2%nat = Some json_input_path /\
        load_json_input json_input_path = Ok (Some data) /\
        validate_json_input data = true /\
        output_path = lit "output/" ++ generate_output_filename alnum data.
Proof.
  intros Hsym Hargv Hjson Hblank. unfold Printing.main.
  destruct argv as [|a0 [|pdf [|json rest]]];
    try (rewrite !print_shown by line_ok; eexists; split; [done|done]).
  apply Forall_cons in Hargv as [_ Hargv].
  apply Forall_cons in Hargv as [Hpdf Hargv].
  apply Forall_cons in Hargv as [Hjs _].
  destruct (path_exists pdf); cbn [negb];
    [|rewrite print_shown by line_ok; eexists; split; [done|done]].
  destruct (path_exists json); cbn [negb];
    [|rewrite print_shown by line_ok; eexists; split; [done|done]].
  rewrite !print_shown by line_ok. cbn [mbind result_bind].
  destruct (Hjson json) as (loaded & Hload & Htexts). rewrite Hload.
  cbn [mbind result_bind].
  destruct loaded as [data|]; [|eexists; split; [done|done]].
  destruct (Hblank pdf) as (rd & ->). cbn [mbind result_bind].
  destruct rd as [rd|]; [|eexists; split; [done|done]].
  rewrite (validate_json_input_shown out data Hsym). cbn [mbind result_bind].
  destruct (validate_json_input data) eqn:Hval; cbn [negb];
    [|eexists; split; [done|done]].
  rewrite (create_field_mapping_shown out db now data Hsym (Htexts data eq_refl)).
  destruct (create_field_mapping_valid db now data Hval) as (m & -> & Hkeys).
  cbn [mbind result_bind].
  destruct (AcroForm rd) as [form|] eqn:Hform.
  - destruct (fill_form_returns out db rd form m Hsym (Hkeys out) Hform)
      as [st ->].
    eexists. split; [done|]. intros p d [= <- <-].
    exists pdf, json, data. done.
  - rewrite (fill_form_no_acroform out db rd m Hsym Hform).
    eexists. split; [done|done].
Qed.



Lemma main_no_exception_sample :
  exists e,
    Printing.main utf8 ascii_db (fun _ => false) sample_day
      [lit "va_form_filler_complete.py"; lit "blank.pdf"; lit "data.json"]
      (fun _ => true) (fun _ => Ok (Some sample_record))
      (fun _ => Ok (Some form_reader)) = Ok e /\
    forall output_path doc,
      e = Printing.Save output_path doc ->
      exists blank_pdf_path json_input_path data,
        [lit "va_form_filler_complete.py"; lit "blank.pdf"; lit "data.json"]
          !! 1%nat = Some blank_pdf_path /\
        [lit "va_form_filler_complete.py"; lit "blank.pdf"; lit "data.json"]
          !! 2%nat = Some json_input_path /\
        Ok (Some sample_record) = Ok (Some data) /\
        validate_json_input data = true /\
        output_path
          = lit "output/" ++ generate_output_filename (fun _ => false) data.
Proof.
  apply (main_no_exception utf8 ascii_db (fun _ => false) sample_day
           [lit "va_form_filler_complete.py"; lit "blank.pdf";
            lit "data.json"]
           (fun _ => true) (fun _ => Ok (Some sample_record))
           (fun _ => Ok (Some form_reader))).
  - reflexivity.
  - by_compute.
  - intros _. exists (Some sample_record). split; [reflexivity|].
    intros data [= <-]. by_compute.
  - intros _. eexists. reflexivity.
Defined.

(** A record that passes validation with a date of birth that the
    console cannot show: the warning of [split_date] raises, and the
    exception leaves [create_field_mapping] and [main]. *)
Example main_date_refused :
  validate_json_input
    {| veteran_info := Some unshown_veteran; benefit_election := None;
       signature_info := None |} = true /\
  Printing.main utf8 ascii_db (fun _ => false) sample_day
    [lit "va_form_filler_complete.py"; lit "blank.pdf"; lit "data.json"]
    (fun _ => true)
    (fun _ => Ok (Some {| veteran_info := Some unshown_veteran;
                          benefit_election := None;
                          signature_info := None |}))
    (fun _ => Ok (Some form_reader)) = Raise ValueError.
Proof. split; vm_compute; reflexivity. Qed.

(** ** The listing of discovery, with the console *)

Lemma for_each_fold {A S} (body : S -> A -> S * result unit)
    (pure : S -> A -> S) (xs : list A) :
  Forall (fun x => forall st, body st x = (pure st x, Ok tt)) xs ->
  forall st, for_each body xs st = (fold_left pure xs st, Ok tt).
Proof.
  induction 1 as [|x xs Hx _ IH]; intros st; [done|].
  rewrite for_each_cons, Hx. apply IH.
Qed.

Lemma shows_join_path out (parent_path field_name : pystr) :
  shows out parent_path = true -> shows out field_name = true ->
  shows out (join_path parent_path field_name) = true.
Proof.
  intros Hp Hn. unfold join_path. destruct (nonempty parent_path); [|done].
  line_ok.
Qed.

(** With every line shown, a call with the console appends what the
    call without it appends, and ends without an exception. *)
Lemma analyze_field_recursive_shown out db (f : field) :
  has_symbols out -> Forall (node_shown out db) (preorder f) ->
  forall fields_info level parent_name,
    shows out parent_name = true ->
    Printing.analyze_field_recursive out db f fields_info level parent_name
    = (Discovery.analyze_field_recursive db f fields_info level parent_name,
       Ok tt).
Proof.
  intros Hsym. induction f as [t ft v as_ kids IH] using field_tree_ind.
  intros Hshown infos lvl pn Hpn.
  cbn [preorder] in Hshown. apply Forall_cons in Hshown as [[Hname Htype] Hkids].
  unfold decoded_name in Hname. cbn [T FT] in Hname, Htype.
  cbn [Printing.analyze_field_recursive Discovery.analyze_field_recursive].
  set (named := if truthy t
                then Discovery.decode_unicode_field_name db (default [] t)
                else Ok (lit "unnamed_field_"
                           ++ str_N (N.of_nat (length infos)))).
  assert (exists name, named = Ok name /\ shows out name = true)
    as (name & -> & Hn).
  { subst named. destruct (truthy t).
    - destruct (decode_never_raises db (default [] t)) as [name Hdec].
      rewrite decoders_agree in Hdec. rewrite Hdec in Hname.
      exists name. by rewrite decoders_agree.
    - eexists. split; [reflexivity|]. line_ok. }
  cbn [mbind result_bind].
  change (if nonempty pn then pn ++ lit "." ++ name else name)
    with (join_path pn name).
  pose proof (shows_join_path out pn name Hpn Hn) as Hfull.
  assert (shows out (if truthy ft then default [] ft else lit "Unknown") = true)
    as Hft by (by destruct (truthy ft)).
  rewrite print_shown.
  2:{ rewrite !shows_app, Hfull, Hft, shows_str_int.
      rewrite shows_replicate by reflexivity.
      rewrite (shows_symbol out DIAMOND Hsym) by reflexivity. reflexivity. }
  rewrite (for_each_fold _
             (fun infos child =>
                Discovery.analyze_field_recursive db child infos (lvl + 1)
                  (join_path pn name))).
  - reflexivity.
  - rewrite Forall_forall in IH. apply Forall_forall. intros child Hin st.
    apply IH; [done| |done].
    rewrite Forall_forall in Hkids. apply Forall_forall. intros node Hnode.
    apply Hkids. apply list_elem_of_bind. eauto.
Qed.

Lemma discover_shown out db (pdf_path : pystr)
    (PdfReader : pystr -> result (reader * Z)) (pdf : reader) (pages : Z) :
  has_symbols out -> shows out pdf_path = true ->
  PdfReader pdf_path = Ok (pdf, pages) ->
  (forall form fs, AcroForm pdf = Some form -> Fields form = Some fs ->
     form_shown out db fs) ->
  Printing.discover_pdf_fields_enhanced out db pdf_path PdfReader
    = Ok (Discovery.discover_pdf_fields_enhanced db pdf).
Proof.
  intros Hsym Hpath Hread Hshown.
  unfold Printing.discover_pdf_fields_enhanced,
    Discovery.discover_pdf_fields_enhanced.
  rewrite !print_shown by line_ok. cbn [mbind result_bind].
  rewrite Hread. cbn [mbind result_bind].
  rewrite ?print_shown by line_ok. cbn [mbind result_bind].
  destruct (AcroForm pdf) as [form|] eqn:Hform; [|reflexivity].
  destruct (Fields form) as [fs|] eqn:Hfs; [|reflexivity].
  rewrite ?print_shown by line_ok. cbn [mbind result_bind].
  rewrite (for_each_fold _
             (fun infos field =>
                Discovery.analyze_field_recursive db field infos 0 [])).
  - reflexivity.
  - specialize (Hshown form fs eq_refl Hfs). unfold form_shown in Hshown.
    apply Forall_forall. intros f Hin st.
    apply analyze_field_recursive_shown; [done| |done].
    rewrite Forall_forall in Hshown. apply Forall_forall. intros node Hnode.
    apply Hshown. apply list_elem_of_bind. eauto.
Qed.

(** X14. On a console that has the symbols and shows the path of the
    file and the names and type tags of the fields, discovery lists
    every node of the form once, a node before its kids and the kids in
    order: the entry at a position is that of the node at that
    position, under its decoded name when it has a name and under
    "unnamed_field_" followed by the position otherwise. *)
Theorem discovery_lists_every_node (out : console) (db : unicode_db)
    (pdf_path : pystr) (PdfReader : pystr -> result (reader * Z))
    (pdf : reader) (pages : Z) (form : acroform) (fs : list field) :
  has_symbols out -> shows out pdf_path = true ->
  PdfReader pdf_path = Ok (pdf, pages) ->
  AcroForm pdf = Some form -> Fields form = Some fs ->
  form_shown out db fs ->
  exists infos,
    Printing.discover_pdf_fields_enhanced out db pdf_path PdfReader
      = Ok (Some infos) /\
    length infos = length (fs ≫= preorder) /\
    forall i node,
      (fs ≫= preorder) !! i = Some node ->
      exists info, infos !! i = Some info /\ describes db i node info.
Proof.
  intros Hsym Hpath Hread Hform Hfs Hshown.
  rewrite (discover_shown out db pdf_path PdfReader pdf pages Hsym Hpath Hread).
  2:{ intros form' fs' Hform' Hfs'. congruence. }
  destruct (discover_listing db pdf form fs Hform Hfs) as (infos & -> & Hl & _).
  exists infos. split; [done|]. split; [by apply (listed_length db 0)|].
  intros i node Hi. exact (listed_lookup db 0 _ _ i node Hl Hi).
Qed.

(** X16. Discovery and the writer agree on paths, on a console that
    has the symbols and shows the path of the file and the names and
    type tags of the fields: every path on which [find_and_fill_field]
    finds a field is a full path of the listing of discovery, and in a
    form all of whose nodes carry a name the writer finds a field on
    every path of the listing. *)
Theorem discovered_paths_writable (out : console) (db : unicode_db)
    (pdf_path : pystr) (PdfReader : pystr -> result (reader * Z))
    (pdf : reader) (pages : Z) (form : acroform) (fs : list field) :
  has_symbols out -> shows out pdf_path = true ->
  PdfReader pdf_path = Ok (pdf, pages) ->
  AcroForm pdf = Some form -> Fields form = Some fs ->
  form_shown out db fs ->
  exists infos,
    Printing.discover_pdf_fields_enhanced out db pdf_path PdfReader
      = Ok (Some infos) /\
    (forall target value,
       (find_and_fill_field db fs target value []).1 = true ->
       target ∈ map Discovery.full_path infos) /\
    (forallb all_named fs = true ->
     forall target value,
       target ∈ map Discovery.full_path infos ->
       (find_and_fill_field db fs target value []).1 = true).
Proof.
  intros Hsym Hpath Hread Hform Hfs Hshown.
  rewrite (discover_shown out db pdf_path PdfReader pdf pages Hsym Hpath Hread).
  2:{ intros form' fs' Hform' Hfs'. congruence. }
  destruct (discover_listing db pdf form fs Hform Hfs)
    as (infos & -> & _ & Hs & He).
  exists infos. split; [done|]. split.
  - intros target value Hf. apply Hs. by apply find_and_fill_field_found in Hf.
  - intros Hall target value Hin. apply find_and_fill_field_found.
    by rewrite <- (He Hall).
Qed.

Lemma discovery_lists_every_node_sample :
  exists infos,
    Printing.discover_pdf_fields_enhanced utf8 ascii_db (lit "blank.pdf")
      (fun _ => Ok (form_reader, 2)) = Ok (Some infos) /\
    length infos = length (sample_form ≫= preorder) /\
    forall i node,
      (sample_form ≫= preorder) !! i = Some node ->
      exists info, infos !! i = Some info /\ describes ascii_db i node info.
Proof.
  apply (discovery_lists_every_node utf8 ascii_db (lit "blank.pdf")
           (fun _ => Ok (form_reader, 2)) form_reader 2
           {| Fields := Some sample_form |} sample_form);
    first [reflexivity | by_compute].
Defined.


Lemma discovered_paths_writable_sample :
  exists infos,
    Printing.discover_pdf_fields_enhanced utf8 ascii_db (lit "blank.pdf")
      (fun _ => Ok (sample_reader, 1)) = Ok (Some infos) /\
    (forall target value,
       (find_and_fill_field ascii_db [dup_first; dup_second] target value []).1
         = true ->
       target ∈ map Discovery.full_path infos) /\
    (forallb all_named [dup_first; dup_second] = true ->
     forall target value,
       target ∈ map Discovery.full_path infos ->
       (find_and_fill_field ascii_db [dup_first; dup_second] target value []).1
         = true).
Proof.
  apply (discovered_paths_writable utf8 ascii_db (lit "blank.pdf")
           (fun _ => Ok (sample_reader, 1)) sample_reader 1
           {| Fields := Some [dup_first; dup_second] |}
           [dup_first; dup_second]);
    first [reflexivity | by_compute].
Defined.

(** A name that decodes to lone surrogates: the line of the node
    raises after the node is listed, the handler prints, and the kid is
    never visited, while the writer finds it. *)
Example discovery_stops_at_unshown_name :
  Printing.discover_pdf_fields_enhanced utf8 ascii_db (lit "blank.pdf")
    (fun _ => Ok ({| AcroForm := Some {| Fields := Some [unshown_root] |} |},
                  1))
  = Ok (Some
      [ {| Discovery.level := 0; Discovery.parent := [];
           Discovery.field_name := [0xD83D%N; 0xDE00%N];
           Discovery.full_path := [0xD83D%N; 0xDE00%N];
           Discovery.field_type := lit "Unknown";
           Discovery.has_children := true;
           Discovery.child_count := 1 |} ]) /\
  (find_and_fill_field ascii_db [unshown_root]
     ([0xD83D%N; 0xDE00%N] ++ lit ".X") (lit "v") []).1 = true.
Proof. split; vm_compute; reflexivity. Qed.
